(** * ArchivedBooks: catalog ingestion, read view and filter evaluation

    A shallow embedding of the three application variants of the repository

    - [src/app_one_tab_pro.py]  (Streamlit application, module [App]),
    - [src/kaveh_books1.py]     (Qt application, module [Kaveh]),
    - [src/build_installer.py]  (Qt application with pictures, module
      [Installer]),

    followed by the properties of the import pipeline, of the denormalized
    read query and of the filter block.  The last part covers the entries of
    the combo boxes, the session of the Streamlit pages, and the picture
    lookup, the thumbnail cache and the table model of [build_installer.py].

    Conventions of the embedding.
    - Python [str] is [string]; text is read byte-wise, so case folding,
      whitespace and the ordering of strings are those of the ASCII range.
    - A data frame is the list of its rows, in index order.
    - An SQLite table is the list of its rows in rowid order; a connection
      carries the database as committed on disk and the database as seen by
      its own statements.
    - Python exceptions are the [Raise] results of a state-and-error monad. *)

From Stdlib Require Import ZArith Ascii String List.
From stdpp Require Import base decidable option list sorting strings gmap pretty.

Local Open Scope string_scope.
Local Open Scope list_scope.
Local Open Scope Z_scope.

#[local] Set Warnings "-clear-no-such-hyp".

(** ** Python strings *)

(** [str.isspace] on one character of the ASCII range: tab, line feed,
    vertical tab, form feed, carriage return, the four separators
    0x1c-0x1f and the space. *)
Definition is_space (a : ascii) : bool :=
  let n := nat_of_ascii a in
  ((9 <=? n)%nat && (n <=? 13)%nat) || ((28 <=? n)%nat && (n <=? 32)%nat).

Fixpoint lstrip (s : string) : string :=
  match s with
  | String a s' => if is_space a then lstrip s' else s
  | EmptyString => EmptyString
  end.

Fixpoint rstrip (s : string) : string :=
  match s with
  | String a s' =>
      match rstrip s' with
      | EmptyString => if is_space a then EmptyString else String a EmptyString
      | t => String a t
      end
  | EmptyString => EmptyString
  end.

(** [str.strip()] *)
Definition strip (s : string) : string := rstrip (lstrip s).

(** [str.lower()] on one character of the ASCII range. *)
Definition lower (a : ascii) : ascii :=
  let n := nat_of_ascii a in
  if ((65 <=? n)%nat && (n <=? 90)%nat) then ascii_of_nat (n + 32) else a.

(** ** Exceptions and the connection monad *)

Inductive exn : Set :=
| ValueError       (* int() of a cell that is not a number *)
| InterfaceError   (* sqlite3: a parameter of unsupported type (pd.NA) *)
| IntegrityError   (* sqlite3: UNIQUE, NOT NULL or FOREIGN KEY failed *)
| ReError          (* re.error: the pattern does not compile *)
| TypeError        (* int() of a value that is neither text nor number *)
| OverflowError.   (* sqlite3: an int parameter outside the signed 64-bit range *)

Inductive result (A : Type) : Type :=
| Ok (a : A)
| Raise (e : exn).
Arguments Ok {A} a.
Arguments Raise {A} e.

#[global] Instance exn_eq_dec : EqDecision exn.
Proof. solve_decision. Defined.

(** ** The data frame returned by [pd.read_excel]

    A cell of a text column is blank ([NaN]) or holds a value; [Text s] is a
    cell whose Python [str()] is [s].  The code only ever applies [int()] to
    the [book_id] cell, so that cell is given by what [int()] does on it; a
    number cell of a sheet is finite. *)

Inductive cell : Set :=
| Text (s : string)
| NaN.

Inductive id_cell : Set :=
| Numeric (z : Z)   (* int(cell) returns z *)
| NonNumeric        (* int(cell) raises ValueError: text that is no integer, or NaN *)
| Dated.            (* a date or a time: int(cell) raises TypeError *)

Record raw_row : Set := RawRow {
  x_book_id : id_cell;
  x_brand : cell;
  x_model : cell;
  x_machine_type : cell;
  x_title : cell;
  x_language : cell;
  x_edition_year : cell;
  x_location : cell
}.

(** A row after [load_excel_to_df]: the five text columns hold a [str] or
    [pd.NA] ([None]); the other columns are untouched. *)
Record row : Set := Row {
  book_id : id_cell;
  brand : option string;
  model : option string;
  machine_type : option string;
  title : option string;
  language : option string;
  edition_year : cell;
  location : cell
}.

(** [int(r['book_id'])] *)
Definition py_int (c : id_cell) : result Z :=
  match c with
  | Numeric z => Ok z
  | NonNumeric => Raise ValueError
  | Dated => Raise TypeError
  end.

(** [Series.astype(str)]: a blank becomes the text "nan". *)
Definition astype_str (c : cell) : string :=
  match c with
  | Text s => s
  | NaN => "nan"
  end.

(** [Series.astype('string')]: a blank stays [pd.NA]. *)
Definition astype_string (c : cell) : option string :=
  match c with
  | Text s => Some s
  | NaN => None
  end.

(** [Series.replace({'nan': pd.NA})] on one value. *)
Definition replace_nan (s : string) : option string :=
  if decide (s = "nan") then None else Some s.

(** [Series.fillna(v)] on one value. *)
Definition fillna (v : string) (o : option string) : option string :=
  match o with
  | Some s => Some s
  | None => Some v
  end.

(** [None if pd.isna(c) else str(c)] *)
Definition str_or_none (c : cell) : option string :=
  match c with
  | Text s => Some s
  | NaN => None
  end.

(** [Series.dropna()] *)
Definition dropna (l : list (option string)) : list string := omap id l.

(** [Series.unique()]: the distinct values in order of first appearance. *)
Fixpoint unique (l : list string) : list string :=
  match l with
  | [] => []
  | x :: l' => x :: filter (λ y, y ≠ x) (unique l')
  end.

(** The order of Python strings (lexicographic on code points). *)
Definition str_le (s1 s2 : string) : Prop := String.leb s1 s2 = true.

#[global] Instance str_le_dec : RelDecision str_le.
Proof. intros s1 s2. unfold str_le. apply _. Defined.

(** [sorted(values)] *)
Definition sorted (l : list string) : list string := merge_sort str_le l.

(** ** The SQLite store

    [SCHEMA]: four dimension tables [(id INTEGER PRIMARY KEY, name TEXT
    UNIQUE)], the fact table [books] and the table [meta]. *)

Record dim_row : Set := DimRow {
  dim_id : Z;
  dim_name : string
}.

Record book_row : Set := BookRow {
  bk_id : Z;
  bk_book_id : Z;
  bk_title : string;
  bk_edition_year : option string;
  bk_location : option string;
  bk_brand_id : option Z;
  bk_model_id : option Z;
  bk_machine_type_id : option Z;
  bk_language_id : option Z
}.

Record db : Set := Db {
  brands : list dim_row;
  machine_types : list dim_row;
  models : list dim_row;
  languages : list dim_row;
  books : list book_row;
  meta : list (string * string)
}.

Inductive table : Set := Brands | MachineTypes | Models | Languages.

#[global] Instance dim_row_eq_dec : EqDecision dim_row.
Proof. solve_decision. Defined.
#[global] Instance book_row_eq_dec : EqDecision book_row.
Proof. solve_decision. Defined.
#[global] Instance db_eq_dec : EqDecision db.
Proof. solve_decision. Defined.
#[global] Instance table_eq_dec : EqDecision table.
Proof. solve_decision. Defined.

Definition dim (t : table) (d : db) : list dim_row :=
  match t with
  | Brands => brands d
  | MachineTypes => machine_types d
  | Models => models d
  | Languages => languages d
  end.

Definition set_dim (t : table) (rows : list dim_row) (d : db) : db :=
  match t with
  | Brands => Db rows (machine_types d) (models d) (languages d) (books d) (meta d)
  | MachineTypes => Db (brands d) rows (models d) (languages d) (books d) (meta d)
  | Models => Db (brands d) (machine_types d) rows (languages d) (books d) (meta d)
  | Languages => Db (brands d) (machine_types d) (models d) rows (books d) (meta d)
  end.

Definition set_books (bs : list book_row) (d : db) : db :=
  Db (brands d) (machine_types d) (models d) (languages d) bs (meta d).

(** The six tables right after [DROP TABLE IF EXISTS ...] and
    [CREATE TABLE IF NOT EXISTS ...]. *)
Definition empty_db : db := Db [] [] [] [] [] [].

(** The rowid SQLite gives to a row inserted without one: one more than the
    largest rowid in the table, 1 in an empty table. *)
Definition next_rowid (ids : list Z) : Z :=
  match ids with
  | [] => 1
  | i :: l => foldr Z.max i l + 1
  end.

(** [INSERT OR IGNORE INTO {table} (name) VALUES (?)]: [name] is UNIQUE, a
    row that would repeat a name is skipped. *)
Definition insert_name (name : string) (rows : list dim_row) : list dim_row :=
  if decide (name ∈ dim_name <$> rows) then rows
  else rows ++ [DimRow (next_rowid (dim_id <$> rows)) name].

Definition insert_or_ignore (t : table) (name : string) (d : db) : db :=
  set_dim t (insert_name name (dim t d)) d.

(** [SELECT id FROM {table} WHERE name=?] followed by [fetchone()]. *)
Definition select_id (t : table) (name : string) (d : db) : option Z :=
  dim_id <$> head (filter (λ r, dim_name r = name) (dim t d)).

(** An [int] that the module sqlite3 binds as an SQLite INTEGER: a signed
    64-bit value; binding any other [int] raises [OverflowError]. *)
Definition int64 (z : Z) : Prop := -2^63 ≤ z < 2^63.

#[global] Instance int64_dec (z : Z) : Decision (int64 z).
Proof. unfold int64. apply _. Defined.

(** A foreign key is NULL or the id of a row of the parent table. *)
Definition fk_ok (fk : option Z) (parent : list dim_row) : bool :=
  match fk with
  | None => true
  | Some i => bool_decide (i ∈ dim_id <$> parent)
  end.

(** The eight parameters of the INSERT into [books]; [p_title] is [None]
    when the bound Python value is [pd.NA]. *)
Record book_params : Set := BookParams {
  p_book_id : Z;
  p_title : option string;
  p_edition_year : option string;
  p_location : option string;
  p_brand_id : option Z;
  p_model_id : option Z;
  p_machine_type_id : option Z;
  p_language_id : option Z
}.

Definition fks_ok (p : book_params) (d : db) : bool :=
  fk_ok (p_brand_id p) (brands d) && fk_ok (p_model_id p) (models d) &&
  fk_ok (p_machine_type_id p) (machine_types d) &&
  fk_ok (p_language_id p) (languages d).

Definition new_book (p : book_params) (t : string) (bs : list book_row) : book_row :=
  BookRow (next_rowid (bk_id <$> bs)) (p_book_id p) t
          (p_edition_year p) (p_location p)
          (p_brand_id p) (p_model_id p) (p_machine_type_id p) (p_language_id p).

(** [INSERT INTO books (book_id, title, edition_year, location, brand_id,
    model_id, machine_type_id, language_id) VALUES (?, ?, ?, ?, ?, ?, ?, ?)]
    under [book_id INTEGER UNIQUE NOT NULL], [title TEXT NOT NULL] and the
    four foreign keys with [PRAGMA foreign_keys = ON].  sqlite3 binds the
    parameters in order before the statement runs: an [int] outside the
    signed 64-bit range raises [OverflowError], a value of unsupported type
    the binding error. *)
Definition insert_book (p : book_params) (d : db) : result db :=
  if decide (int64 (p_book_id p)) then
    match p_title p with
    | None => Raise InterfaceError
    | Some t =>
        if decide (p_book_id p ∈ bk_book_id <$> books d) then Raise IntegrityError
        else if fks_ok p d then Ok (set_books (books d ++ [new_book p t (books d)]) d)
        else Raise IntegrityError
    end
  else Raise OverflowError.

(** [INSERT OR REPLACE INTO books (...) VALUES (...)]: the parameters are
    bound as for [INSERT]; the new rowid is chosen from the table as it
    stands, then the rows that hold the same [book_id] are deleted, and the
    new row is inserted. *)
Definition insert_or_replace_book (p : book_params) (d : db) : result db :=
  if decide (int64 (p_book_id p)) then
    match p_title p with
    | None => Raise InterfaceError
    | Some t =>
        let kept := filter (λ b, bk_book_id b ≠ p_book_id p) (books d) in
        if fks_ok p d then Ok (set_books (kept ++ [new_book p t (books d)]) d)
        else Raise IntegrityError
    end
  else Raise OverflowError.

(** ** Connections (module sqlite3, default isolation level)

    [committed] is the database file as every other connection reads it,
    [working] the database as this connection's statements see it.  INSERT
    opens a transaction when none is open; outside a transaction a statement
    is committed at once. *)

Record conn : Set := Conn {
  committed : db;
  working : db;
  in_transaction : bool
}.

Definition M (A : Type) : Type := conn → conn * result A.

#[global] Instance M_ret : MRet M := λ A a c, (c, Ok a).
#[global] Instance M_bind : MBind M := λ A B f m c,
  match m c with
  | (c', Ok a) => f a c'
  | (c', Raise e) => (c', Raise e)
  end.

Definition raise {A} (e : exn) : M A := λ c, (c, Raise e).

Definition lift {A} (r : result A) : M A := λ c, (c, r).

(** [sqlite3.connect(db_path)] *)
Definition connect (store : db) : conn := Conn store store false.

(** [conn.commit()] *)
Definition commit : M unit := λ c, (Conn (working c) (working c) false, Ok tt).

(** [conn.rollback()] *)
Definition rollback : M unit := λ c, (Conn (committed c) (committed c) false, Ok tt).

(** [conn.execute("BEGIN TRANSACTION")] *)
Definition begin_transaction : M unit :=
  λ c, (Conn (committed c) (working c) true, Ok tt).

(** [cur.execute] of an INSERT: a transaction is opened first; a statement
    that fails changes no row. *)
Definition execute (stmt : db → result db) : M unit := λ c,
  match stmt (working c) with
  | Ok d => (Conn (committed c) d true, Ok tt)
  | Raise e => (Conn (committed c) (working c) true, Raise e)
  end.

(** [cur.execute] of a statement that is no INSERT (here DROP TABLE): it
    joins the open transaction, or is committed at once. *)
Definition execute_ddl (stmt : db → db) : M unit := λ c,
  let d := stmt (working c) in
  (Conn (if in_transaction c then committed c else d) d (in_transaction c), Ok tt).

(** [cur.execute] of a SELECT followed by a fetch. *)
Definition fetch {A} (q : db → A) : M A := λ c, (c, Ok (q (working c))).

(** [cur.executescript(script)]: the pending transaction is committed, then
    every statement of the script is run and committed. *)
Definition executescript (script : db → db) : M unit := λ c,
  let d := script (working c) in (Conn d d false, Ok tt).

(** A Python [for] loop whose body may raise. *)
Fixpoint for_ {A} (l : list A) (body : A → M unit) : M unit :=
  match l with
  | [] => mret tt
  | x :: l' => body x ;; for_ l' body
  end.

(** [try: body  except Exception as e: handler; raise e] *)
Definition try_except {A} (body : M A) (handler : M unit) : M A := λ c,
  match body c with
  | (c', Ok a) => (c', Ok a)
  | (c', Raise e) => (fst (handler c'), Raise e)
  end.

(** ** Regular expressions (module re)

    [Series.str.contains(pat, case=False, na=False)] compiles [pat] with
    [re.compile(pat, re.IGNORECASE)] and keeps the values in which
    [search] finds a match.  The fragment of the pattern syntax modelled
    here: literal characters, [.], [\] before a character that is neither
    letter nor digit, the groups [( )], the alternation [|] and the
    repetitions [*], [+], [?] with their lazy forms.  A pattern that uses
    anything else ([[], [{], [^], [$], [(?], [\d], a possessive repetition)
    is outside the fragment. *)

Inductive regex : Set :=
| Void
| Eps
| Chr (a : ascii)
| AnyChar
| Cat (r1 r2 : regex)
| Alt (r1 r2 : regex)
| Star (r : regex).

(** An item of a sequence, and whether it is a repetition already. *)
Definition item : Set := (regex * bool)%type.

(** A (sub)pattern being read: the alternatives closed by [|] so far and the
    items of the current alternative, the last one first. *)
Record frame : Set := Frame {
  alts : option regex;
  items : list item
}.

Definition seq_regex (s : list item) : regex :=
  foldl (λ acc it, Cat (fst it) acc) Eps s.

Definition frame_regex (f : frame) : regex :=
  match alts f with
  | None => seq_regex (items f)
  | Some a => Alt a (seq_regex (items f))
  end.

Definition push (it : item) (f : frame) : frame :=
  Frame (alts f) (it :: items f).

Definition repeat_of (a : ascii) (r : regex) : regex :=
  if decide (a = "*"%char) then Star r
  else if decide (a = "+"%char) then Cat r (Star r)
  else Alt r Eps.

Definition is_alnum (a : ascii) : bool :=
  let n := nat_of_ascii a in
  ((48 <=? n)%nat && (n <=? 57)%nat) || ((65 <=? n)%nat && (n <=? 90)%nat) ||
  ((97 <=? n)%nat && (n <=? 122)%nat).

Inductive parsed : Set :=
| Pattern (r : regex)
| BadPattern        (* re.error *)
| OutOfFragment.

(** [sre_parse.parse] on the fragment, one pass from left to right; [stack]
    holds the enclosing subpatterns of the open groups. *)
Fixpoint parse (cur : frame) (stack : list frame) (p : string) : parsed :=
  match p with
  | EmptyString =>
      match stack with
      | [] => Pattern (frame_regex cur)
      | _ :: _ => BadPattern                      (* missing ) *)
      end
  | String a p' =>
      if decide (a = "|"%char) then
        parse (Frame (Some (frame_regex cur)) []) stack p'
      else if decide (a = "("%char) then
        match p' with
        | String "?" _ => OutOfFragment
        | _ => parse (Frame None []) (cur :: stack) p'
        end
      else if decide (a = ")"%char) then
        match stack with
        | [] => BadPattern                        (* unbalanced parenthesis *)
        | f :: st => parse (push (frame_regex cur, false) f) st p'
        end
      else if decide (a = "*"%char ∨ a = "+"%char ∨ a = "?"%char) then
        match items cur with
        | [] => BadPattern                        (* nothing to repeat *)
        | (_, true) :: _ => BadPattern            (* multiple repeat *)
        | (r, false) :: s =>
            let cur' := Frame (alts cur) ((repeat_of a r, true) :: s) in
            match p' with
            | String "?" p'' => parse cur' stack p''
            | String "+" _ => OutOfFragment
            | _ => parse cur' stack p'
            end
        end
      else if decide (a = "."%char) then
        parse (push (AnyChar, false) cur) stack p'
      else if decide (a = "\"%char) then
        match p' with
        | EmptyString => BadPattern               (* bad escape (end of pattern) *)
        | String b p'' =>
            if is_alnum b then OutOfFragment
            else parse (push (Chr b, false) cur) stack p''
        end
      else if decide (a = "["%char ∨ a = "{"%char ∨ a = "^"%char ∨ a = "$"%char) then
        OutOfFragment
      else parse (push (Chr a, false) cur) stack p'
  end.

(** [re.compile(pat, re.IGNORECASE)]: [None] outside the fragment. *)
Definition re_compile (pat : string) : option (result regex) :=
  match parse (Frame None []) [] pat with
  | Pattern r => Some (Ok r)
  | BadPattern => Some (Raise ReError)
  | OutOfFragment => None
  end.

Fixpoint nullable (r : regex) : bool :=
  match r with
  | Void | Chr _ | AnyChar => false
  | Eps | Star _ => true
  | Cat r1 r2 => nullable r1 && nullable r2
  | Alt r1 r2 => nullable r1 || nullable r2
  end.

(** The derivative of [r] by the character [c]; letters are compared without
    case (IGNORECASE) and [.] matches every character but the line feed. *)
Fixpoint deriv (c : ascii) (r : regex) : regex :=
  match r with
  | Void | Eps => Void
  | Chr p => if decide (lower c = lower p) then Eps else Void
  | AnyChar => if decide (c = "010"%char) then Void else Eps
  | Cat r1 r2 =>
      if nullable r1 then Alt (Cat (deriv c r1) r2) (deriv c r2)
      else Cat (deriv c r1) r2
  | Alt r1 r2 => Alt (deriv c r1) (deriv c r2)
  | Star r1 => Cat (deriv c r1) (Star r1)
  end.

(** [regex.match(s) is not None]: some prefix of [s] is in the language. *)
Fixpoint re_match (r : regex) (s : string) : bool :=
  nullable r ||
  match s with
  | String c s' => re_match (deriv c r) s'
  | EmptyString => false
  end.

(** [regex.search(s) is not None] *)
Fixpoint re_search (r : regex) (s : string) : bool :=
  re_match r s ||
  match s with
  | String _ s' => re_search r s'
  | EmptyString => false
  end.

(** ** The denormalized read view *)

(** A row of the frame returned by [load_db_to_df]; the columns are, in
    order, the catalog number, the title, the brand, the model, the machine
    type, the language, the edition and the location. *)
Record drow : Set := DRow {
  c_number : Z;
  c_title : string;
  c_brand : option string;
  c_model : option string;
  c_type : option string;
  c_language : option string;
  c_edition : option string;
  c_location : option string
}.

#[global] Instance drow_eq_dec : EqDecision drow.
Proof. solve_decision. Defined.

(** [l LEFT JOIN r ON on]: every row of [l] with each matching row of [r],
    or once with NULLs when no row matches. *)
Definition left_join {A B} (on : A → B → bool) (l : list A) (r : list B)
  : list (A * option B) :=
  a ← l;
  match filter (λ b, on a b) r with
  | [] => [(a, None)]
  | ms => (λ b, (a, Some b)) <$> ms
  end.

(** [fk = id] in SQL: never true on NULL. *)
Definition fk_eq (fk : option Z) (i : Z) : bool :=
  match fk with
  | Some j => bool_decide (j = i)
  | None => false
  end.

Definition joined : Set :=
  (book_row * option dim_row * option dim_row * option dim_row * option dim_row)%type.

Definition joined_book (j : joined) : book_row := j.1.1.1.1.

(** The order of [ORDER BY b.book_id]. *)
Definition by_book_id (x y : joined) : Prop :=
  bk_book_id (joined_book x) ≤ bk_book_id (joined_book y).

#[global] Instance by_book_id_dec : RelDecision by_book_id.
Proof. intros x y. unfold by_book_id. apply _. Defined.

(** [FROM books b LEFT JOIN brands br ON b.brand_id = br.id
     LEFT JOIN models m ON b.model_id = m.id
     LEFT JOIN machine_types mt ON b.machine_type_id = mt.id
     LEFT JOIN languages lg ON b.language_id = lg.id
     ORDER BY b.book_id] *)
Definition from_joins (d : db) : list joined :=
  let j1 := left_join (λ b br, fk_eq (bk_brand_id b) (dim_id br)) (books d) (brands d) in
  let j2 := left_join (λ j m, fk_eq (bk_model_id j.1) (dim_id m)) j1 (models d) in
  let j3 := left_join (λ j mt, fk_eq (bk_machine_type_id j.1.1) (dim_id mt)) j2 (machine_types d) in
  let j4 := left_join (λ j lg, fk_eq (bk_language_id j.1.1.1) (dim_id lg)) j3 (languages d) in
  merge_sort by_book_id j4.

(** The select list of [app_one_tab_pro.py] and [kaveh_books1.py]. *)
Definition select_names (j : joined) : drow :=
  let '(b, br, m, mt, lg) := j in
  DRow (bk_book_id b) (bk_title b)
       (dim_name <$> br) (dim_name <$> m) (dim_name <$> mt) (dim_name <$> lg)
       (bk_edition_year b) (bk_location b).

(** [COALESCE(x, '')] *)
Definition coalesce (x : option string) : option string :=
  match x with
  | Some s => Some s
  | None => Some ""
  end.

(** The select list of [build_installer.py]. *)
Definition select_coalesce (j : joined) : drow :=
  let '(b, br, m, mt, lg) := j in
  DRow (bk_book_id b) (bk_title b)
       (coalesce (dim_name <$> br)) (coalesce (dim_name <$> m))
       (coalesce (dim_name <$> mt)) (coalesce (dim_name <$> lg))
       (coalesce (bk_edition_year b)) (coalesce (bk_location b)).

(** The entry "all" of the four combo boxes. *)
Definition ALL : string := "(همه)".

(** [df[df[col] == v]]: a null never equals a string. *)
Definition select_eq (col : drow → option string) (v : string) (df : list drow)
  : list drow :=
  filter (λ r, col r = Some v) df.

(** [df[df[title].str.contains(q, case=False, na=False)]] *)
Definition select_contains (q : string) (df : list drow)
  : option (result (list drow)) :=
  match re_compile q with
  | None => None
  | Some (Raise e) => Some (Raise e)
  | Some (Ok re) => Some (Ok (filter (λ r, re_search re (c_title r) = true) df))
  end.

(** ** Code shared by [app_one_tab_pro.py] and [kaveh_books1.py]

    The two files define [create_schema], [load_excel_to_df],
    [populate_replace] and [load_db_to_df] with the same text; they differ
    in [get_id] and in the filter block. *)

(** The script [DROP TABLE IF EXISTS books; ... brands; ... models;
    ... machine_types; ... languages; ... meta;] followed by [SCHEMA]
    leaves the six tables empty. *)
Definition drop_tables (d : db) : db := empty_db.

(** The script [SCHEMA] ([CREATE TABLE IF NOT EXISTS ...]) keeps the rows of
    the tables that exist. *)
Definition SCHEMA (d : db) : db := d.

Definition create_schema (drop : bool) : M unit :=
  (if drop then executescript drop_tables else mret tt) ;;
  executescript SCHEMA ;;
  commit.

(** The loop over the five text columns of [load_excel_to_df]:
    [df[col].astype(str).str.strip()] then [replace({'nan': pd.NA})]. *)
Definition clean (c : cell) : option string :=
  replace_nan (strip (astype_str c)).

(** One row of the frame after the loop and
    [df['language'].fillna('Unknown')]. *)
Definition clean_row (x : raw_row) : row :=
  Row (x_book_id x)
      (clean (x_brand x)) (clean (x_model x)) (clean (x_machine_type x))
      (clean (x_title x))
      (fillna "Unknown" (clean (x_language x)))
      (x_edition_year x) (x_location x).

Definition load_excel_to_df (xl : list raw_row) : list row := clean_row <$> xl.

(** [pd.notna(v)] *)
Definition notna (v : option string) : bool :=
  match v with
  | Some _ => true
  | None => false
  end.

Section populate.
(** The [get_id] of the file. *)
Variable get_id : table → option string → M (option Z).

Definition populate_dimensions (df : list row) : M unit :=
  for_ [(Brands, brand); (MachineTypes, machine_type);
        (Models, model); (Languages, language)]
    (λ tc, for_ (sorted (unique (dropna (tc.2 <$> df))))
             (λ v, get_id tc.1 (Some v) ;; mret tt)).

Definition populate_book (r : row) : M unit :=
  brand_id ← (if notna (brand r) then get_id Brands (brand r) else mret None);
  mtype_id ← (if notna (machine_type r) then get_id MachineTypes (machine_type r)
              else mret None);
  model_id ← (if notna (model r) then get_id Models (model r) else mret None);
  lang_id ← (if notna (language r) then get_id Languages (language r) else mret None);
  n ← lift (py_int (book_id r));
  execute (insert_book
             (BookParams n (title r)
                (str_or_none (edition_year r)) (str_or_none (location r))
                brand_id model_id mtype_id lang_id)).

Definition populate_replace_with (df : list row) : M unit :=
  create_schema true ;;
  populate_dimensions df ;;
  commit ;;
  for_ df populate_book ;;
  commit.
End populate.

(** The statements of [get_id] after its guard. *)
Definition get_or_create (t : table) (name : string) : M (option Z) :=
  execute (λ d, Ok (insert_or_ignore t name d)) ;;
  fetch (select_id t name).

(** The handler of the rebuild button / menu action:
    [try: df = load_excel_to_df(xlsx); conn = sqlite3.connect(db_path);
    populate_replace(conn, df); conn.close() ... except Exception: ...].
    It returns the database file as other connections read it afterwards. *)
Definition run_import (populate : list row → M unit) (df : list row) (store : db)
  : db * result unit :=
  let '(c, r) := populate df (connect store) in (committed c, r).

(** ** [src/app_one_tab_pro.py] *)
Module App.

Definition get_id (t : table) (name : option string) : M (option Z) :=
  match name with
  | None => mret None
  | Some n => get_or_create t n
  end.

Definition populate_replace : list row → M unit := populate_replace_with get_id.

Definition load_db_to_df (store : db) : list drow :=
  select_names <$> from_joins store.

(** The branch of the menu that rebuilds the archive: the store
    afterwards and, when no exception was raised, the frame put in
    [st.session_state["df"]]. *)
Definition update_archive (xl : list raw_row) (store : db)
  : db * result (list drow) :=
  match run_import populate_replace (load_excel_to_df xl) store with
  | (store', Ok _) => (store', Ok (load_db_to_df store'))
  | (store', Raise e) => (store', Raise e)
  end.

(** The filter block of the archive page; the count shown is the length
    of the result. *)
Definition filter_block (dfb : list drow) (f_brand f_type f_model f_lang q : string)
  : option (result (list drow)) :=
  let filt := dfb in
  let filt := if decide (f_brand ≠ ALL) then select_eq c_brand f_brand filt else filt in
  let filt := if decide (f_type ≠ ALL) then select_eq c_type f_type filt else filt in
  let filt := if decide (f_model ≠ ALL) then select_eq c_model f_model filt else filt in
  let filt := if decide (f_lang ≠ ALL) then select_eq c_language f_lang filt else filt in
  if decide (q ≠ "") then select_contains q filt else Some (Ok filt).

End App.

(** ** [src/kaveh_books1.py] *)
Module Kaveh.

Definition get_id (t : table) (name : option string) : M (option Z) :=
  match name with
  | None => mret None
  | Some n => if decide (n = "") then mret None else get_or_create t n
  end.

Definition populate_replace : list row → M unit := populate_replace_with get_id.

Definition load_db_to_df (store : db) : list drow :=
  select_names <$> from_joins store.

Definition action_rebuild_from_excel (xl : list raw_row) (store : db)
  : db * result (list drow) :=
  match run_import populate_replace (load_excel_to_df xl) store with
  | (store', Ok _) => (store', Ok (load_db_to_df store'))
  | (store', Raise e) => (store', Raise e)
  end.

(** [MainWindow.apply_filters]: the arguments are [self._df_full], the
    current texts of the four combo boxes and the text of the search box;
    the result is the frame given to the table model. *)
Definition apply_filters (df_full : list drow)
    (f_brand f_type f_model f_lang search : string)
  : option (result (list drow)) :=
  let df := df_full in
  let q := strip search in
  if decide (df ≠ []) then
    let df := if decide (f_brand ≠ "" ∧ f_brand ≠ ALL)
              then select_eq c_brand f_brand df else df in
    let df := if decide (f_type ≠ "" ∧ f_type ≠ ALL)
              then select_eq c_type f_type df else df in
    let df := if decide (f_model ≠ "" ∧ f_model ≠ ALL)
              then select_eq c_model f_model df else df in
    let df := if decide (f_lang ≠ "" ∧ f_lang ≠ ALL)
              then select_eq c_language f_lang df else df in
    if decide (q ≠ "") then select_contains q df else Some (Ok df)
  else Some (Ok df).

End Kaveh.

(** ** [src/build_installer.py] *)
Module Installer.

Inductive any_table : Set := TBooks | TDim (t : table) | TMeta.

(** [DROP TABLE IF EXISTS {table}] followed by [OPTIMIZED_SCHEMA]'s
    [CREATE TABLE IF NOT EXISTS] leaves that table empty. *)
Definition drop_table (t : any_table) (d : db) : db :=
  match t with
  | TBooks => set_books [] d
  | TDim t => set_dim t [] d
  | TMeta => Db (brands d) (machine_types d) (models d) (languages d) (books d) []
  end.

Definition OPTIMIZED_SCHEMA (d : db) : db := d.

Definition create_schema (drop : bool) : M unit :=
  (if drop then
     for_ [TBooks; TDim Brands; TDim Models; TDim MachineTypes;
           TDim Languages; TMeta]
       (λ t, execute_ddl (drop_table t))
   else mret tt) ;;
  executescript OPTIMIZED_SCHEMA ;;
  commit.

(** [df[col].astype('string')] then [df[col].str.strip()]. *)
Definition clean (c : cell) : option string := strip <$> astype_string c.

(** One row of the frame after the loop and
    [df['language'].fillna('Unknown')]. *)
Definition clean_row (x : raw_row) : row :=
  Row (x_book_id x)
      (clean (x_brand x)) (clean (x_model x)) (clean (x_machine_type x))
      (clean (x_title x))
      (fillna "Unknown" (clean (x_language x)))
      (x_edition_year x) (x_location x).

Definition load_excel_to_df (xl : list raw_row) : list row := clean_row <$> xl.

(** [cur.executemany(sql, rows)] *)
Definition executemany {A} (stmt : A → db → result db) (rows : list A) : M unit :=
  for_ rows (λ x, execute (stmt x)).

(** [{row[0]: row[1] for row in cur.fetchall()}] after
    [SELECT name, id FROM {table}]. *)
Definition name_ids (t : table) (d : db) : gmap string Z :=
  foldl (λ m r, <[dim_name r := dim_id r]> m) ∅ (dim t d).

(** [ids.get(str(v)) if pd.notna(v) else None] *)
Definition lookup_id (ids : gmap string Z) (v : option string) : option Z :=
  match v with
  | Some s => ids !! s
  | None => None
  end.

(** [str(v)] of a value of a cleaned text column. *)
Definition py_str (v : option string) : string :=
  match v with
  | Some s => s
  | None => "<NA>"
  end.

(** The loop that fills [books_data]. *)
Fixpoint books_data (brand_ids machine_type_ids model_ids language_ids : gmap string Z)
    (df : list row) : result (list book_params) :=
  match df with
  | [] => Ok []
  | r :: df' =>
      let brand_id := lookup_id brand_ids (brand r) in
      let mtype_id := lookup_id machine_type_ids (machine_type r) in
      let model_id := lookup_id model_ids (model r) in
      let lang_id := lookup_id language_ids (language r) in
      match py_int (book_id r) with
      | Raise e => Raise e
      | Ok n =>
          match books_data brand_ids machine_type_ids model_ids language_ids df' with
          | Raise e => Raise e
          | Ok rest =>
              Ok (BookParams n (Some (py_str (title r)))
                    (str_or_none (edition_year r)) (str_or_none (location r))
                    brand_id model_id mtype_id lang_id :: rest)
          end
      end
  end.

Definition insert_names (t : table) (col : row → option string) (df : list row)
  : M unit :=
  let names := unique (dropna (col <$> df)) in
  if decide (names ≠ []) then
    executemany (λ n d, Ok (insert_or_ignore t n d)) names
  else mret tt.

Definition populate_replace (df : list row) : M unit :=
  create_schema true ;;
  begin_transaction ;;
  try_except
    (insert_names Brands brand df ;;
     insert_names MachineTypes machine_type df ;;
     insert_names Models model df ;;
     insert_names Languages language df ;;
     brand_ids ← fetch (name_ids Brands);
     machine_type_ids ← fetch (name_ids MachineTypes);
     model_ids ← fetch (name_ids Models);
     language_ids ← fetch (name_ids Languages);
     data ← lift (books_data brand_ids machine_type_ids model_ids language_ids df);
     executemany insert_or_replace_book data ;;
     commit)
    rollback.

(** The SQL query of [load_db_to_df]. *)
Definition read_query (store : db) : list drow :=
  select_coalesce <$> from_joins store.

(** [@lru_cache(maxsize=128)]: the frames returned so far, keyed by the
    path of the database file, the most recently used first. *)
Definition cache : Type := list (string * list drow).

Definition cache_get (db_path : string) (k : cache) : option (list drow) :=
  snd <$> head (filter (λ e, e.1 = db_path) k).

Definition load_db_to_df (db_path : string) (store : db) (k : cache)
  : list drow * cache :=
  match cache_get db_path k with
  | Some df => (df, (db_path, df) :: filter (λ e, e.1 ≠ db_path) k)
  | None => let df := read_query store in (df, take 128 ((db_path, df) :: k))
  end.

Definition action_rebuild_from_excel (xl : list raw_row) (db_path : string)
    (store : db) (k : cache) : db * cache * result (list drow) :=
  match run_import populate_replace (load_excel_to_df xl) store with
  | (store', Ok _) =>
      let '(df, k') := load_db_to_df db_path store' k in (store', k', Ok df)
  | (store', Raise e) => (store', k, Raise e)
  end.

(** [mask &= (df[col].values == v)] *)
Definition and_eq (col : drow → option string) (v : string) (df : list drow)
    (mask : list bool) : list bool :=
  zip_with andb mask ((λ r, bool_decide (col r = Some v)) <$> df).

(** [df[title].astype(str).str.contains(q, case=False, na=False)] *)
Definition str_contains (q : string) (df : list drow) : option (result (list bool)) :=
  match re_compile q with
  | None => None
  | Some (Raise e) => Some (Raise e)
  | Some (Ok re) => Some (Ok ((λ r, re_search re (c_title r)) <$> df))
  end.

(** [df[mask]] *)
Definition select_mask (df : list drow) (mask : list bool) : list drow :=
  fst <$> filter (λ p, p.2 = true) (zip df mask).

(** [MainWindow._apply_filters_async]: the frame given to the table model
    and to the count label; [Raise] when the [except] branch reports the
    error in the status bar and the view keeps its content. *)
Definition _apply_filters_async (df_full : list drow)
    (f_brand f_type f_model f_lang search : string)
  : option (result (list drow)) :=
  let df := df_full in
  let mask := replicate (length df) true in
  let mask := if decide (f_brand ≠ "" ∧ f_brand ≠ ALL)
              then and_eq c_brand f_brand df mask else mask in
  let mask := if decide (f_type ≠ "" ∧ f_type ≠ ALL)
              then and_eq c_type f_type df mask else mask in
  let mask := if decide (f_model ≠ "" ∧ f_model ≠ ALL)
              then and_eq c_model f_model df mask else mask in
  let mask := if decide (f_lang ≠ "" ∧ f_lang ≠ ALL)
              then and_eq c_language f_lang df mask else mask in
  let q := strip search in
  if decide (q ≠ "") then
    match str_contains q df with
    | None => None
    | Some (Raise e) => Some (Raise e)
    | Some (Ok search_mask) => Some (Ok (select_mask df (zip_with andb mask search_mask)))
    end
  else Some (Ok (select_mask df mask)).

End Installer.


(** * Vocabulary of the properties *)

(** The constraints [id INTEGER PRIMARY KEY] and [name TEXT UNIQUE]. *)
Definition dim_ok (rows : list dim_row) : Prop :=
  NoDup (dim_id <$> rows) ∧ NoDup (dim_name <$> rows).

(** Interning a list of names one after the other. *)
Definition intern (names : list string) (rows : list dim_row) : list dim_row :=
  foldl (λ rows n, insert_name n rows) rows names.

(** The definitions that depend on the names [get_id] skips: [skip n] holds
    when the [get_id] of the file returns [None] on [n] without touching
    the table. *)
Section skipped_names.
Variable skip : string → bool.

(** The names the dimension loop interns for one column. *)
Definition dim_names (col : row → option string) (df : list row) : list string :=
  filter (λ n, skip n = false) (sorted (unique (dropna (col <$> df)))).

(** The database after the dimension loops. *)
Definition dims_db (df : list row) : db :=
  Db (intern (dim_names brand df) []) (intern (dim_names machine_type df) [])
     (intern (dim_names model df) []) (intern (dim_names language df) []) [] [].

(** The id [get_id] returns for the value of a cell once the name is
    interned. *)
Definition resolve (t : table) (d : db) (v : option string) : option Z :=
  match v with
  | None => None
  | Some n => if skip n then None else select_id t n d
  end.

Definition params_of (d : db) (r : row) (n : Z) : book_params :=
  BookParams n (title r) (str_or_none (edition_year r)) (str_or_none (location r))
    (resolve Brands d (brand r)) (resolve Models d (model r))
    (resolve MachineTypes d (machine_type r)) (resolve Languages d (language r)).

Definition put_book (r : row) (d : db) : result db :=
  match py_int (book_id r) with
  | Raise e => Raise e
  | Ok n => insert_book (params_of d r n) d
  end.

Fixpoint put_books (rs : list row) (d : db) : db * result unit :=
  match rs with
  | [] => (d, Ok tt)
  | r :: rs' =>
      match put_book r d with
      | Ok d' => put_books rs' d'
      | Raise e => (d, Raise e)
      end
  end.

(** Every name of the row that [get_id] looks up is in its table. *)
Definition covered (d : db) (r : row) : Prop :=
  ∀ t col n,
    (t, col) ∈ [(Brands, brand); (MachineTypes, machine_type);
                (Models, model); (Languages, language)] →
    col r = Some n → skip n = false → n ∈ dim_name <$> dim t d.

(** The value of a cell as the store keeps it: a skipped name is not
    recorded. *)
Definition kept (v : option string) : option string :=
  match v with
  | Some n => if skip n then None else Some n
  | None => None
  end.

(** The book row [b] records the sheet row [r] in the database [d]. *)
Definition stores (d : db) (r : row) (b : book_row) : Prop :=
  book_id r = Numeric (bk_book_id b) ∧ title r = Some (bk_title b) ∧
  bk_edition_year b = str_or_none (edition_year r) ∧
  bk_location b = str_or_none (location r) ∧
  bk_brand_id b = resolve Brands d (brand r) ∧
  bk_model_id b = resolve Models d (model r) ∧
  bk_machine_type_id b = resolve MachineTypes d (machine_type r) ∧
  bk_language_id b = resolve Languages d (language r).

(** The row read back for a sheet row, given what the store keeps of a
    cell. *)
Definition read_back_with (r : row) : option drow :=
  match book_id r, title r with
  | Numeric n, Some t =>
      Some (DRow n t (kept (brand r)) (kept (model r))
              (kept (machine_type r)) (kept (language r))
              (str_or_none (edition_year r)) (str_or_none (location r)))
  | _, _ => None
  end.

End skipped_names.

(** The integers of the [book_id] column. *)
Definition numbers (rs : list row) : list Z :=
  omap (λ r, match book_id r with Numeric n => Some n | _ => None end) rs.

(** The row of a dimension table a foreign key points to. *)
Definition row_of (rows : list dim_row) (fk : option Z) : option dim_row :=
  match fk with
  | None => None
  | Some i => head (filter (λ r, dim_id r = i) rows)
  end.

(** The name a foreign key stands for: null for a null key. *)
Definition name_of (rows : list dim_row) (fk : option Z) : option string :=
  dim_name <$> row_of rows fk.

(** The book [b] with the rows its four keys point to. *)
Definition join_book (d : db) (b : book_row) : joined :=
  (b, row_of (brands d) (bk_brand_id b), row_of (models d) (bk_model_id b),
   row_of (machine_types d) (bk_machine_type_id b),
   row_of (languages d) (bk_language_id b)).

(** The constraint [id INTEGER PRIMARY KEY] of the four dimension tables. *)
Definition pk_unique (d : db) : Prop := ∀ t, NoDup (dim_id <$> dim t d).

(** The row the read query of [app_one_tab_pro.py] and [kaveh_books1.py]
    shows for the book [b]. *)
Definition denormalized (d : db) (b : book_row) : drow :=
  DRow (bk_book_id b) (bk_title b)
       (name_of (brands d) (bk_brand_id b)) (name_of (models d) (bk_model_id b))
       (name_of (machine_types d) (bk_machine_type_id b))
       (name_of (languages d) (bk_language_id b))
       (bk_edition_year b) (bk_location b).

(** The same row with [COALESCE(x, '')] on every text column. *)
Definition denormalized_coalesce (d : db) (b : book_row) : drow :=
  DRow (bk_book_id b) (bk_title b)
       (coalesce (name_of (brands d) (bk_brand_id b)))
       (coalesce (name_of (models d) (bk_model_id b)))
       (coalesce (name_of (machine_types d) (bk_machine_type_id b)))
       (coalesce (name_of (languages d) (bk_language_id b)))
       (coalesce (bk_edition_year b)) (coalesce (bk_location b)).

(** [app_one_tab_pro.py]: only [None] is skipped. *)
Definition no_skip (n : string) : bool := false.

(** [kaveh_books1.py]: [not name] also skips the empty string. *)
Definition skip_empty (n : string) : bool := bool_decide (n = "").

(** The column of the cleaned frame that feeds a dimension table. *)
Definition column (t : table) : row → option string :=
  match t with
  | Brands => brand
  | MachineTypes => machine_type
  | Models => model
  | Languages => language
  end.

(** A sheet whose rows are well formed: every catalog number is an integer,
    no two rows share one, and every row has a title. *)
Definition well_formed (xl : list raw_row) : Prop :=
  (∀ x, x ∈ xl → ∃ n, x_book_id x = Numeric n) ∧
  NoDup (x_book_id <$> xl) ∧
  (∀ x, x ∈ xl → clean (x_title x) ≠ None).

(** Every catalog number of the sheet is a signed 64-bit value. *)
Definition in_range (xl : list raw_row) : Prop :=
  ∀ x n, x ∈ xl → x_book_id x = Numeric n → int64 n.

(** The cleaned value of a text cell in the words of the specification: the
    trimmed text, and null for a blank cell and for a text that is empty or
    "nan" once trimmed. *)
Definition spec_cleaned (c : cell) : option string :=
  match c with
  | NaN => None
  | Text s => if decide (strip s = "" ∨ strip s = "nan") then None else Some (strip s)
  end.

(** The columns the round trip compares: the catalog number, the title and
    the four dimension names. *)
Definition shown (r : drow)
  : Z * string * option string * option string * option string * option string :=
  (c_number r, c_title r, c_brand r, c_model r, c_type r, c_language r).

(** The same columns as the specification expects them for a sheet row: the
    cleaned values, the language defaulted to "Unknown". *)
Definition spec_row (x : raw_row)
  : option (Z * string * option string * option string * option string * option string) :=
  match x_book_id x, spec_cleaned (x_title x) with
  | Numeric n, Some t =>
      Some (n, t, spec_cleaned (x_brand x), spec_cleaned (x_model x),
            spec_cleaned (x_machine_type x),
            Some (default "Unknown" (spec_cleaned (x_language x))))
  | _, _ => None
  end.

(** A sheet well formed in the words of the specification: the catalog
    numbers are integers, no two rows share one, and the required title is
    present once cleaned. *)
Definition spec_well_formed (xl : list raw_row) : Prop :=
  (∀ x, x ∈ xl → ∃ n, x_book_id x = Numeric n) ∧
  NoDup (x_book_id <$> xl) ∧
  (∀ x, x ∈ xl → spec_cleaned (x_title x) ≠ None).

(** No cell of the four dimension columns is a text of white space only. *)
Definition no_blank_name (xl : list raw_row) : Prop :=
  ∀ x c s, x ∈ xl →
    c ∈ [x_brand x; x_model x; x_machine_type x; x_language x] →
    c = Text s → strip s ≠ "".

(** A sheet whose only row has the catalog number 2^63. *)
Definition sheet_big : list raw_row :=
  [ RawRow (Numeric 9223372036854775808) (Text "ABC") NaN NaN (Text "Engine Manual")
      NaN NaN NaN ].

(** The denormalized row expected for a cleaned sheet row. *)
Definition read_back (r : row) : option drow :=
  match book_id r, title r with
  | Numeric n, Some t =>
      Some (DRow n t (brand r) (model r) (machine_type r) (language r)
              (str_or_none (edition_year r)) (str_or_none (location r)))
  | _, _ => None
  end.

(** The sheet of the concrete scenario, with a blank language in the first
    row. *)
Definition sheet_two : list raw_row :=
  [ RawRow (Numeric 1) (Text "ABC") NaN NaN (Text "Engine Manual") NaN NaN NaN;
    RawRow (Numeric 2) (Text "XYZ") NaN NaN (Text "Pump Guide") (Text "English") NaN NaN ].

(** A language cell that is absent: blank, or a text that is "nan" once
    trimmed. *)
Definition absent (c : cell) : Prop :=
  c = NaN ∨ ∃ s, c = Text s ∧ strip s = "nan".

(** The statements of an [executemany], run on the database. *)
Fixpoint exec_all {A} (stmt : A → db → result db) (rows : list A) (d : db)
  : db * result unit :=
  match rows with
  | [] => (d, Ok tt)
  | x :: rows' =>
      match stmt x d with
      | Ok d' => exec_all stmt rows' d'
      | Raise e => (d, Raise e)
      end
  end.

(** The database after the four [executemany] of names. *)
Definition installer_dims (df : list row) : db :=
  Db (intern (unique (dropna (brand <$> df))) [])
     (intern (unique (dropna (machine_type <$> df))) [])
     (intern (unique (dropna (model <$> df))) [])
     (intern (unique (dropna (language <$> df))) []) [] [].

(** The four dictionaries read from the dimension tables. *)
Definition installer_data (df : list row) : result (list book_params) :=
  let W := installer_dims df in
  Installer.books_data (Installer.name_ids Brands W) (Installer.name_ids MachineTypes W)
    (Installer.name_ids Models W) (Installer.name_ids Languages W) df.

(** Two rows of the sheet carry the catalog number [n]. *)
Definition twice (n : Z) (xl : list raw_row) : Prop :=
  ∃ (i j : nat) (x y : raw_row),
    i ≠ j ∧ xl !! i = Some x ∧ xl !! j = Some y ∧
    x_book_id x = Numeric n ∧ x_book_id y = Numeric n.

(** The number of book rows with the catalog number [n]. *)
Definition copies (n : Z) (d : db) : nat :=
  length (filter (λ b, bk_book_id b = n) (books d)).

(** A sheet whose two rows carry the catalog number 7. *)
Definition sheet_twice : list raw_row :=
  [ RawRow (Numeric 7) (Text "ABC") NaN NaN (Text "Engine Manual") NaN NaN NaN;
    RawRow (Numeric 7) (Text "XYZ") NaN NaN (Text "Pump Guide") (Text "English") NaN NaN ].

(** A store that holds the two books of [sheet_two]. *)
Definition store_two : db :=
  Db [DimRow 1 "ABC"; DimRow 2 "XYZ"] [] []
     [DimRow 1 "English"; DimRow 2 "Unknown"]
     [BookRow 1 1 "Engine Manual" None None (Some 1) None None (Some 2);
      BookRow 2 2 "Pump Guide" None None (Some 2) None None (Some 1)]
     [].

(** A sheet whose second row has a catalog number that is no number. *)
Definition sheet_bad : list raw_row :=
  [ RawRow (Numeric 3) (Text "Acme") NaN NaN (Text "Valve Handbook") NaN NaN NaN;
    RawRow NonNumeric (Text "Bolt") NaN NaN (Text "Gear Notes") NaN NaN NaN ].

(** The selection [sel] of a combo box accepts the name [name]: the
    entry "all" accepts everything, any other entry only the equal name. *)
Definition dim_pass (sel : string) (name : option string) : Prop :=
  sel ≠ ALL → name = Some sel.

(** The row passes the four selections. *)
Definition dims_pass (f_brand f_type f_model f_lang : string) (r : drow) : Prop :=
  dim_pass f_brand (c_brand r) ∧ dim_pass f_type (c_type r) ∧
  dim_pass f_model (c_model r) ∧ dim_pass f_lang (c_language r).

#[global] Instance dim_pass_dec (sel : string) (name : option string) :
  Decision (dim_pass sel name).
Proof. unfold dim_pass. apply _. Defined.

#[global] Instance dims_pass_dec (fb ft fm fl : string) (r : drow) :
  Decision (dims_pass fb ft fm fl r).
Proof. unfold dims_pass. apply _. Defined.

(** The filter as the specification words it: the rows that pass every
    active selection and, when a query is present, whose title the query
    finds, in the order of the input. *)
Definition spec_filter (dfb : list drow) (f_brand f_type f_model f_lang q : string)
  : option (result (list drow)) :=
  if decide (q = "") then Some (Ok (filter (dims_pass f_brand f_type f_model f_lang) dfb))
  else
    match re_compile q with
    | None => None
    | Some (Raise e) => Some (Raise e)
    | Some (Ok re) =>
        Some (Ok (filter (λ r, dims_pass f_brand f_type f_model f_lang r ∧
                               re_search re (c_title r) = true) dfb))
    end.

(** The text of a combo box of the Qt applications: the empty text of a box
    without a current entry stands for the entry "all". *)
Definition current (text : string) : string :=
  if decide (text = "") then ALL else text.

(** The frame read back from [store_two]. *)
Definition rows_two : list drow :=
  [ DRow 1 "Engine Manual" (Some "ABC") None None (Some "Unknown") None None;
    DRow 2 "Pump Guide" (Some "XYZ") None None (Some "English") None None ].

(** [q] is a prefix of [s], letters compared without case. *)
Fixpoint prefix_ci (q s : string) : bool :=
  match q, s with
  | EmptyString, _ => true
  | String a q', String b s' => bool_decide (lower a = lower b) && prefix_ci q' s'
  | String _ _, EmptyString => false
  end.

(** [q] occurs in [s] as a literal substring, letters compared without
    case. *)
Fixpoint contains_ci (q s : string) : bool :=
  prefix_ci q s ||
  match s with
  | String _ s' => contains_ci q s'
  | EmptyString => false
  end.

(** A character that [sre_parse] reads as itself. *)
Definition is_meta (a : ascii) : bool :=
  bool_decide (a = "|"%char ∨ a = "("%char ∨ a = ")"%char ∨
               (a = "*"%char ∨ a = "+"%char ∨ a = "?"%char) ∨
               a = "."%char ∨ a = "\"%char ∨
               (a = "["%char ∨ a = "{"%char ∨ a = "^"%char ∨ a = "$"%char)).

Fixpoint plain (q : string) : bool :=
  match q with
  | EmptyString => true
  | String a q' => negb (is_meta a) && plain q'
  end.

(** The pattern that matches the characters of [q] followed by [r]. *)
Fixpoint literal (q : string) (r : regex) : regex :=
  match q with
  | EmptyString => r
  | String a q' => Cat (Chr a) (literal q' r)
  end.

(** The items pushed while the characters of [q] are read. *)
Fixpoint push_all (q : string) (its : list item) : list item :=
  match q with
  | EmptyString => its
  | String a q' => push_all q' ((Chr a, false) :: its)
  end.

(** Every character of [s] is a space in the sense of [str.isspace]; the
    empty string included. *)
Fixpoint whitespace_only (s : string) : bool :=
  match s with
  | EmptyString => true
  | String a s' => is_space a && whitespace_only s'
  end.

(** The frame [rows_two] with a third book whose title is one word. *)
Definition rows_three : list drow :=
  rows_two ++ [DRow 3 "Index" (Some "ABC") None None (Some "English") None None].

(** A sheet whose only row has a brand cell of three spaces. *)
Definition sheet_blank : list raw_row :=
  [ RawRow (Numeric 1) (Text "   ") NaN NaN (Text "Engine Manual") NaN NaN NaN ].

(** A sheet whose only row has the brand " nan ". *)
Definition sheet_nan : list raw_row :=
  [ RawRow (Numeric 1) (Text " nan ") NaN NaN (Text "Engine Manual") NaN NaN NaN ].

(** * Vocabulary of the further properties *)

(** Every foreign key of every book is null or the id of a row of its
    dimension table. *)
Definition fk_integrity (d : db) : Prop :=
  ∀ b, b ∈ books d →
    fk_ok (bk_brand_id b) (brands d) = true ∧
    fk_ok (bk_model_id b) (models d) = true ∧
    fk_ok (bk_machine_type_id b) (machine_types d) = true ∧
    fk_ok (bk_language_id b) (languages d) = true.

(** The foreign key of a book into the dimension table [t]. *)
Definition fk_of (t : table) (b : book_row) : option Z :=
  match t with
  | Brands => bk_brand_id b
  | MachineTypes => bk_machine_type_id b
  | Models => bk_model_id b
  | Languages => bk_language_id b
  end.

(** The book row [b] holds the eight values bound by the parameters [p]. *)
Definition recorded (p : book_params) (b : book_row) : Prop :=
  p = BookParams (bk_book_id b) (Some (bk_title b)) (bk_edition_year b) (bk_location b)
        (bk_brand_id b) (bk_model_id b) (bk_machine_type_id b) (bk_language_id b).

(** The row the read query of [build_installer.py] shows for a cleaned sheet
    row with the catalog number [n]. *)
Definition installer_read_back (n : Z) (r : row) : drow :=
  DRow n (Installer.py_str (title r))
       (coalesce (brand r)) (coalesce (model r))
       (coalesce (machine_type r)) (coalesce (language r))
       (coalesce (str_or_none (edition_year r))) (coalesce (str_or_none (location r))).

(** ** The entries of the combo boxes *)

(** The column of the frame that a combo box filters. *)
Definition dcol (t : table) : drow → option string :=
  match t with
  | Brands => c_brand
  | MachineTypes => c_type
  | Models => c_model
  | Languages => c_language
  end.

(** [list.sort(key=key)]: a stable sort on the keys. *)
Fixpoint insert_by (key : string → string) (x : string) (l : list string)
  : list string :=
  match l with
  | [] => [x]
  | y :: l' => if decide (str_le (key x) (key y)) then x :: l else y :: insert_by key x l'
  end.

Definition sort_by (key : string → string) (l : list string) : list string :=
  foldr (insert_by key) [] l.

(** [app_one_tab_pro.py]: the options of the four [st.selectbox]. *)
Module AppView.

Definition options (series : list (option string)) : list string :=
  [ALL] ++ sorted (unique (dropna series)).

End AppView.

(** [kaveh_books1.py]: [MainWindow._update_filters]. *)
Module KavehView.

Definition opts (series : list (option string)) : list string :=
  let vals := sorted (unique (dropna series)) in
  [ALL] ++ vals.

(** The items put in the combo box of each column. *)
Definition _update_filters (df_full : list drow) (t : table) : list string :=
  if decide (df_full ≠ []) then opts (dcol t <$> df_full) else [ALL].

End KavehView.

(** [build_installer.py]: [MainWindow._update_filters]. *)
Module InstallerView.

Definition get_sorted_options (series : list (option string)) : list string :=
  let values := unique (dropna series) in
  sort_by strip values.

Definition _update_filters (df_full : list drow) (t : table) : list string :=
  if decide (df_full = []) then [ALL]
  else [ALL] ++ get_sorted_options (dcol t <$> df_full).

End InstallerView.

(** The selections in which only the combo box of the column [t] is moved,
    to the entry [o]. *)
Definition only (t : table) (o : string) (t' : table) : string :=
  if decide (t' = t) then o else ALL.

(** The rows of a dimension table whose names were interned in the order of
    the list, from an empty table: the ids count from 1. *)
Definition numbered (names : list string) : list dim_row :=
  zip_with DimRow (seqZ 1 (Z.of_nat (length names))) names.

(** ** [build_installer.py]: the class [ImageCache]

    [QPixmap] is the type of the pictures.  The result of
    [self._create_thumbnail(image_path, size)], which reads and writes the
    picture files, is an argument of [get_thumbnail]: [None] when it returns
    [None] or a value that the test [if thumbnail:] rejects. *)
Module ImageCache.

(** The exceptions of [list.remove], [list.pop] and [del d[k]]. *)
Inductive py_error : Set := ValueError | IndexError | KeyError.

Section pixmap.
Variable QPixmap : Type.

Record t : Type := Cache {
  thumbnails : gmap string QPixmap;
  book_images : gmap string (list string);
  lru_queue : list string
}.

Definition max_cache_size : nat := 500.

Definition _init_cache : t := Cache ∅ ∅ [].

Definition get_book_images (book_id : string) (c : t) : list string :=
  match book_images c !! book_id with
  | None => []
  | Some images => images
  end.

Definition set_book_images (book_id : string) (images : list string) (c : t) : t :=
  Cache (thumbnails c) (<[book_id := images]> (book_images c)) (lru_queue c).

(** [list.remove(x)]: the first occurrence of [x] is removed; [None] when
    there is none ([ValueError]). *)
Fixpoint list_remove (x : string) (l : list string) : option (list string) :=
  match l with
  | [] => None
  | y :: l' => if decide (y = x) then Some l' else (y ::.) <$> list_remove x l'
  end.

(** [f"{image_path}_{size[0]}_{size[1]}"] *)
Definition key_of (image_path : string) (size : Z * Z) : string :=
  image_path +:+ "_" +:+ pretty size.1 +:+ "_" +:+ pretty size.2.

Definition get_thumbnail (image_path : string) (size : Z * Z)
    (created : option QPixmap) (c : t) : py_error + (t * option QPixmap) :=
  let key := key_of image_path size in
  match thumbnails c !! key with
  | Some pix =>
      match list_remove key (lru_queue c) with
      | None => inl ValueError
      | Some q => inr (Cache (thumbnails c) (book_images c) (q ++ [key]), Some pix)
      end
  | None =>
      match created with
      | Some thumbnail =>
          let thumbs := <[key := thumbnail]> (thumbnails c) in
          let queue := lru_queue c ++ [key] in
          if decide (max_cache_size < base.size thumbs)%nat then
            match queue with
            | [] => inl IndexError
            | oldest_key :: queue' =>
                match thumbs !! oldest_key with
                | None => inl KeyError
                | Some _ =>
                    inr (Cache (delete oldest_key thumbs) (book_images c) queue',
                         Some thumbnail)
                end
            end
          else inr (Cache thumbs (book_images c) queue, Some thumbnail)
      | None => inr (c, None)
      end
  end.

(** The queue lists the cached keys, each once, and the cache is within
    its bound. *)
Definition inv (c : t) : Prop :=
  NoDup (lru_queue c) ∧
  (∀ k, k ∈ lru_queue c ↔ is_Some (thumbnails c !! k)) ∧
  (size (thumbnails c) ≤ max_cache_size)%nat.

End pixmap.

Arguments Cache {QPixmap} _ _ _.
Arguments thumbnails {QPixmap} _.
Arguments book_images {QPixmap} _.
Arguments lru_queue {QPixmap} _.
Arguments _init_cache {QPixmap}.
Arguments get_book_images {QPixmap} _ _.
Arguments set_book_images {QPixmap} _ _ _.
Arguments get_thumbnail {QPixmap} _ _ _ _.
Arguments inv {QPixmap} _.

End ImageCache.

(** ** [app_one_tab_pro.py]: the two pages and the session

    One run of the script.  [df] is [st.session_state["df"]], [store] the
    database file; [exists_] is [os.path.exists(db_path)] at the start of
    the run. *)
Module AppPage.

(** The branch of the menu entry that shows the archive: the session state
    afterwards and the frame handed to the filter block, [None] when the
    page shows a notice instead of the table. *)
Definition archive_page (exists_ : bool) (store : db) (df : option (list drow))
  : option (list drow) * option (list drow) :=
  if exists_ then
    let df := match df with
              | None => Some (App.load_db_to_df store)
              | Some _ => df
              end in
    (df, df)
  else (df, None).

(** The branch of the menu entry that updates the archive, once the button
    is pressed with an uploaded sheet: the store and the session state
    afterwards. *)
Definition update_page (xl : list raw_row) (store : db) (df : option (list drow))
  : db * option (list drow) :=
  match App.update_archive xl store with
  | (store', Ok dfb) => (store', Some dfb)
  | (store', Raise _) => (store', df)
  end.

End AppPage.

(** ** [build_installer.py]: [find_book_images_fast]

    [path] is [pathlib.Path] with its own equality, [str_path] is [str()]
    of a path and [div] the operator [/] with a file name.  The file system
    is read through [exists_], [is_dir] and [iterdir]; [iterdir] is [None]
    when listing the directory raises.  [extensions] lists the six
    extensions in the order in which the Python [set] is iterated. *)
Module Pictures.

Section paths.
Context {path : Type} `{EqDecision path}.

(** The file system as the function probes it.  [None] is a probe that
    raises: [Path.exists()] and [Path.is_dir()] answer [False] for a missing
    path and re-raise any other [OSError], such as [PermissionError];
    [Path.iterdir()] raises for a path that cannot be listed. *)
Record fs : Type := Fs {
  exists_ : path → option bool;
  is_dir : path → option bool;
  iterdir : path → option (list path)
}.

Variable str_path : path → string.
Variable div : path → string → path.
Variable PICS_DIR PICS_DIR_INSTALL : path.
Variable extensions : list string.

(** The file names tried in one directory: [f"{book_id}{ext}"], then
    [f"{book_id}-{i}{ext}"] for [i] in [range(1, 10)]. *)
Definition file_names (book_id : string) : list string :=
  (ext ← extensions; [book_id +:+ ext]) ++
  (i ← seqZ 1 9; ext ← extensions; [book_id +:+ "-" +:+ pretty i +:+ ext]).

(** [if img_path.exists(): images.append(...)] along a list of paths;
    [None] as soon as a probe raises. *)
Fixpoint existing (F : fs) (ps : list path) : option (list path) :=
  match ps with
  | [] => Some []
  | img_path :: ps =>
      b ← exists_ F img_path;
      images ← existing F ps;
      Some (if b : bool then img_path :: images else images)
  end.

Definition found_in (F : fs) (dir : path) (book_id : string) : option (list string) :=
  images ← existing F (div dir <$> file_names book_id);
  Some (str_path <$> (images : list path)).

(** The loop [for subdir in base_dir.iterdir(): if subdir.is_dir(): ...]
    over the entries listed. *)
Fixpoint search_subdirs (F : fs) (entries : list path) (book_id : string)
  : option (list string) :=
  match entries with
  | [] => Some []
  | subdir :: entries =>
      b ← is_dir F subdir;
      images ← (if b : bool then found_in F subdir book_id else Some []);
      rest ← search_subdirs F entries book_id;
      Some (images ++ rest)
  end.

(** The body of the loop over [search_dirs]: the directory, then its
    immediate subdirectories. *)
Definition search (F : fs) (base_dir : path) (book_id : string) : option (list string) :=
  images ← found_in F base_dir book_id;
  entries ← iterdir F base_dir;
  below ← search_subdirs F entries book_id;
  Some (images ++ below).

Fixpoint search_all (F : fs) (search_dirs : list path) (book_id : string)
  : option (list string) :=
  match search_dirs with
  | [] => Some []
  | base_dir :: dirs =>
      images ← search F base_dir book_id;
      rest ← search_all F dirs book_id;
      Some (images ++ rest)
  end.

(** The first component is the list returned, [None] when the call raises:
    the two probes of the search directories stand before the [try], so
    their exception leaves the function; an exception of the search is
    caught and gives the empty list.  The second component is
    [BOOK_IMAGES_CACHE] after the call. *)
Definition find_book_images_fast (F : fs) (book_id : string)
    (BOOK_IMAGES_CACHE : gmap string (list string))
  : option (list string) * gmap string (list string) :=
  match BOOK_IMAGES_CACHE !! book_id with
  | Some images => (Some images, BOOK_IMAGES_CACHE)
  | None =>
      match exists_ F PICS_DIR with
      | None => (None, BOOK_IMAGES_CACHE)
      | Some e =>
          let search_dirs := if e : bool then [PICS_DIR] else [] in
          match exists_ F PICS_DIR_INSTALL with
          | None => (None, BOOK_IMAGES_CACHE)
          | Some e' =>
              let search_dirs :=
                if e' : bool then
                  if decide (PICS_DIR_INSTALL ∈ search_dirs) then search_dirs
                  else search_dirs ++ [PICS_DIR_INSTALL]
                else search_dirs in
              if decide (search_dirs = []) then
                (Some [], <[book_id := []]> BOOK_IMAGES_CACHE)
              else
                match search_all F search_dirs book_id with
                | Some images =>
                    let images := sorted images in
                    (Some images, <[book_id := images]> BOOK_IMAGES_CACHE)
                | None => (Some [], <[book_id := []]> BOOK_IMAGES_CACHE)
                end
          end
      end
  end.

(** The search of a directory meets no error: every probe of a file name
    in it answers, it can be listed, every entry answers whether it is a
    directory, and every probe of a file name in such a directory answers. *)
Definition probes_answer (F : fs) (dir : path) (book_id : string) : Prop :=
  ∀ n, n ∈ file_names book_id → is_Some (exists_ F (div dir n)).

Definition readable (F : fs) (base_dir : path) (book_id : string) : Prop :=
  probes_answer F base_dir book_id ∧
  ∃ entries, iterdir F base_dir = Some entries ∧
    ∀ subdir, subdir ∈ entries →
      ∃ b, is_dir F subdir = Some b ∧ (b = true → probes_answer F subdir book_id).

(** A picture of the book: the text of a path [dir / name] that exists,
    for [name] a file name of the number and [dir] one of the two search
    directories that exists, or an entry of its listing that is a
    directory. *)
Definition picture (F : fs) (book_id : string) (s : string) : Prop :=
  ∃ base_dir dir n,
    base_dir ∈ [PICS_DIR; PICS_DIR_INSTALL] ∧ exists_ F base_dir = Some true ∧
    (dir = base_dir ∨
     ∃ entries, iterdir F base_dir = Some entries ∧ dir ∈ entries ∧
                is_dir F dir = Some true) ∧
    n ∈ file_names book_id ∧ exists_ F (div dir n) = Some true ∧
    s = str_path (div dir n).

End paths.

End Pictures.

(** The six extensions of [find_book_images_fast]. *)
Definition six_extensions : list string :=
  [".jpg"; ".jpeg"; ".png"; ".bmp"; ".gif"; ".webp"].

(** A picture folder with one picture of book 7 and a subdirectory with
    another; the folder of the installation does not exist. *)
Definition pics_fs : Pictures.fs (path := string) :=
  Pictures.Fs
    (λ p, Some (bool_decide (p ∈ ["pics"; "pics/7.png"; "pics/old"; "pics/old/7-2.jpg"])))
    (λ p, Some (bool_decide (p ∈ ["pics"; "pics/old"])))
    (λ p, if decide (p = "pics") then Some ["pics/7.png"; "pics/old"] else None).

(** The same folder when it can no longer be read. *)
Definition locked_fs : Pictures.fs (path := string) :=
  Pictures.Fs (λ _, None) (λ _, None) (λ _, None).

(** ** [build_installer.py]: the class [DataFrameModel]

    The frame of the model has the eight columns of the read query; the
    view has one more column, the picture column, in front. *)
Module TableModel.

(** The item roles that [data] tells apart; [OtherRole] is any other. *)
Inductive role : Set :=
  DisplayRole | EditRole | TextAlignmentRole | ToolTipRole | OtherRole.

#[global] Instance role_eq_dec : EqDecision role.
Proof. solve_decision. Defined.

#[global] Instance role_countable : Countable role.
Proof.
  refine (inj_countable'
    (λ r, match r with
          | DisplayRole => 0 | EditRole => 1 | TextAlignmentRole => 2
          | ToolTipRole => 3 | OtherRole => 4
          end%nat)
    (λ n, match n with
          | 0 => DisplayRole | 1 => EditRole | 2 => TextAlignmentRole
          | 3 => ToolTipRole | _ => OtherRole
          end%nat) _).
  by intros [].
Defined.

(** What [data] returns besides [None]: a [str] or an [int]. *)
Inductive value : Set :=
| VStr (s : string)
| VInt (z : Z).

(** A [QModelIndex]. *)
Record index : Set := Index {
  isValid : bool;
  row : nat;
  column : nat
}.

Section len.
(** [len] of a [str]. *)
Variable len : string → nat.

Record t : Type := Model {
  _df : list drow;
  _data_cache : gmap (nat * nat * role) value
}.

(** [DataFrameModel(df)] *)
Definition __init__ (df : list drow) : t := Model df ∅.

Definition set_dataframe (df : list drow) (m : t) : t := Model df ∅.

(** [len(self._df.columns)] *)
Definition columns : nat := 8.

(** [int(Qt.AlignCenter)] *)
Definition AlignCenter : Z := 132.

(** ["" if pd.isna(val) else str(val)] for [val = self._df.iat[row, df_col]]
    with [df_col < 8]. *)
Definition cell_text (r : drow) (df_col : nat) : string :=
  match df_col with
  | 0 => pretty (c_number r)
  | 1 => c_title r
  | 2 => default "" (c_brand r)
  | 3 => default "" (c_model r)
  | 4 => default "" (c_type r)
  | 5 => default "" (c_language r)
  | 6 => default "" (c_edition r)
  | _ => default "" (c_location r)
  end%nat.

(** The second component is the model after the call. *)
Definition data (idx : index) (rl : role) (m : t) : option value * t :=
  if negb (isValid idx) then (None, m)
  else
    let row := row idx in
    let col := column idx in
    if decide (col = 0%nat) then
      (match rl with
       | DisplayRole => Some (VStr "")
       | TextAlignmentRole => Some (VInt AlignCenter)
       | _ => None
       end, m)
    else
      let cache_key := (row, (col - 1)%nat, rl) in
      match _data_cache m !! cache_key with
      | Some v => (Some v, m)
      | None =>
          match _df m !! row with
          | None => (None, m)
          | Some r =>
              let df_col := (col - 1)%nat in
              if decide (df_col < columns)%nat then
                let result :=
                  match rl with
                  | DisplayRole | EditRole => Some (VStr (cell_text r df_col))
                  | TextAlignmentRole => Some (VInt AlignCenter)
                  | ToolTipRole =>
                      let s := cell_text r df_col in
                      if decide (40 < len s)%nat then Some (VStr s) else None
                  | OtherRole => None
                  end in
                (result,
                 match result with
                 | Some v => Model (_df m) (<[cache_key := v]> (_data_cache m))
                 | None => m
                 end)
              else (None, m)
          end
      end.

(** Every cached value is the one [data] computes from the frame. *)
Definition coherent (m : t) : Prop :=
  ∀ row col rl v,
    _data_cache m !! (row, col, rl) = Some v →
    (data (Index true row (S col)) rl (Model (_df m) ∅)).1 = Some v.

End len.

End TableModel.

(** * Properties *)

(** ** Rowids and the dimension tables *)

Lemma foldr_max_ge (i : Z) (l : list Z) :
  i ≤ foldr Z.max i l ∧ ∀ j, j ∈ l → j ≤ foldr Z.max i l.
Proof.
  induction l as [|k l [IH1 IH2]]; simpl.
  - split; [lia|]. intros j Hj. inversion Hj.
  - split; [lia|]. intros j Hj. apply elem_of_cons in Hj as [->|Hj]; [lia|].
    specialize (IH2 j Hj). lia.
Qed.

Lemma next_rowid_gt (ids : list Z) (j : Z) : j ∈ ids → j < next_rowid ids.
Proof.
  destruct ids as [|i l]; [inversion 1|]. simpl.
  destruct (foldr_max_ge i l) as [H1 H2].
  intros [->|Hj]%elem_of_cons; [lia|]. specialize (H2 j Hj). lia.
Qed.

Lemma next_rowid_fresh (ids : list Z) : next_rowid ids ∉ ids.
Proof. intros H%next_rowid_gt. lia. Qed.

Lemma dim_ok_nil : dim_ok [].
Proof. split; constructor. Qed.

Lemma insert_name_ok (n : string) (rows : list dim_row) :
  dim_ok rows → dim_ok (insert_name n rows).
Proof.
  intros [Hi Hn]. unfold insert_name. case_decide as Hin; [done|].
  split; rewrite fmap_app; apply NoDup_app; simpl.
  - split_and!; [done| |apply NoDup_singleton].
    intros x Hx [->|[]%elem_of_nil]%elem_of_cons. by apply next_rowid_fresh in Hx.
  - split_and!; [done| |apply NoDup_singleton].
    intros x Hx [->|[]%elem_of_nil]%elem_of_cons. done.
Qed.

Lemma insert_name_names (n m : string) (rows : list dim_row) :
  m ∈ dim_name <$> insert_name n rows ↔ m = n ∨ m ∈ dim_name <$> rows.
Proof.
  unfold insert_name. case_decide as Hin.
  - split; [auto|]. intros [->|?]; done.
  - rewrite fmap_app, elem_of_app. simpl. rewrite list_elem_of_singleton. tauto.
Qed.

Lemma insert_name_present (n : string) (rows : list dim_row) :
  n ∈ dim_name <$> rows → insert_name n rows = rows.
Proof. intros H. unfold insert_name. by rewrite decide_True. Qed.

Lemma insert_name_fmap_fresh (n : string) (rows : list dim_row) :
  n ∉ dim_name <$> rows → dim_name <$> insert_name n rows = (dim_name <$> rows) ++ [n].
Proof. intros H. unfold insert_name. rewrite decide_False by done. by rewrite fmap_app. Qed.

Lemma intern_ok (names : list string) (rows : list dim_row) :
  dim_ok rows → dim_ok (intern names rows).
Proof.
  revert rows. induction names as [|n names IH]; intros rows H; simpl; [done|].
  apply IH. by apply insert_name_ok.
Qed.

Lemma intern_names (names : list string) (rows : list dim_row) (m : string) :
  m ∈ dim_name <$> intern names rows ↔ m ∈ names ∨ m ∈ dim_name <$> rows.
Proof.
  revert rows. induction names as [|n names IH]; intros rows; simpl.
  - split; [auto|]. intros [[]%elem_of_nil|?]; done.
  - rewrite IH, insert_name_names, elem_of_cons. tauto.
Qed.

Lemma intern_fmap (names : list string) (rows : list dim_row) :
  NoDup names → (∀ n, n ∈ names → n ∉ dim_name <$> rows) →
  dim_name <$> intern names rows = (dim_name <$> rows) ++ names.
Proof.
  revert rows. induction names as [|n names IH]; intros rows Hnd Hfresh; simpl.
  - by rewrite app_nil_r.
  - apply NoDup_cons in Hnd as [Hn Hnd].
    rewrite IH; [|done|].
    + rewrite insert_name_fmap_fresh by (apply Hfresh; left).
      by rewrite <- app_assoc.
    + intros m Hm [->|Hin]%insert_name_names; [done|].
      by apply (Hfresh m); [right|].
Qed.

Lemma filter_key_NoDup {A} (f : A → Z) (k : Z) (l : list A) :
  NoDup (f <$> l) →
  filter (λ x, f x = k) l = [] ∨ ∃ x, filter (λ x, f x = k) l = [x].
Proof.
  induction l as [|a l IH]; intros Hnd; [by left|].
  simpl in Hnd. apply NoDup_cons in Hnd as [Ha Hnd].
  rewrite filter_cons. case_decide as Hk.
  - right. exists a. f_equal.
    destruct (IH Hnd) as [->|[x Hx]]; [done|]. exfalso. apply Ha.
    assert (x ∈ filter (λ x, f x = k) l) as [Hfx Hin]%list_elem_of_filter
      by (rewrite Hx; left).
    rewrite Hk, <- Hfx. by apply list_elem_of_fmap_2.
  - by apply IH.
Qed.

Lemma set_dim_same (t : table) (d : db) : set_dim t (dim t d) d = d.
Proof. by destruct t, d. Qed.

Lemma set_dim_set_dim (t : table) (r r' : list dim_row) (d : db) :
  set_dim t r (set_dim t r' d) = set_dim t r d.
Proof. by destruct t, d. Qed.

Lemma dim_set_dim (t : table) (r : list dim_row) (d : db) : dim t (set_dim t r d) = r.
Proof. by destruct t. Qed.

Lemma dim_set_books (t : table) (bs : list book_row) (d : db) :
  dim t (set_books bs d) = dim t d.
Proof. by destruct t. Qed.

Lemma insert_or_ignore_present (t : table) (n : string) (d : db) :
  n ∈ dim_name <$> dim t d → insert_or_ignore t n d = d.
Proof.
  intros H. unfold insert_or_ignore. rewrite insert_name_present by done.
  apply set_dim_same.
Qed.

(** The name of a cell of a covered row is in the table of its column. *)
Ltac by_covered Hcov t col :=
  let n := fresh "n" in
  intros n ? ?; apply (Hcov t col n); [set_solver|done..].

(** ** Running the connection monad *)

Lemma bind_run {A B} (m : M A) (f : A → M B) (c : conn) :
  (m ≫= f) c =
  match m c with
  | (c', Ok a) => f a c'
  | (c', Raise e) => (c', Raise e)
  end.
Proof. reflexivity. Qed.

Lemma get_or_create_run (t : table) (n : string) (c : conn) :
  get_or_create t n c =
  (Conn (committed c) (insert_or_ignore t n (working c)) true,
   Ok (select_id t n (insert_or_ignore t n (working c)))).
Proof. reflexivity. Qed.

(** ** The import of [app_one_tab_pro.py] and [kaveh_books1.py] as a function
       of the sheet

    [skip] is the set of names on which the [get_id] of the file returns
    [None] without touching the table. *)
Section import_facts.
Variable get_id : table → option string → M (option Z).
Variable skip : string → bool.
Hypothesis get_id_Some : ∀ t n c,
  get_id t (Some n) c = if skip n then (c, Ok None) else get_or_create t n c.

Lemma intern_loop (t : table) (names : list string) (c : conn) :
  let r := for_ names (λ v, get_id t (Some v) ;; mret tt) c in
  r.2 = Ok tt ∧ committed r.1 = committed c ∧
  working r.1 =
    set_dim t (intern (filter (λ n, skip n = false) names) (dim t (working c)))
      (working c).
Proof.
  revert c. induction names as [|n names IH]; intros c; simpl.
  - split_and!; [done..|]. by rewrite set_dim_same.
  - rewrite !bind_run, get_id_Some. rewrite filter_cons.
    case_decide as Hs.
    + rewrite Hs, get_or_create_run. simpl.
      destruct (IH (Conn (committed c) (insert_or_ignore t n (working c)) true))
        as (H1 & H2 & H3).
      split_and!; [done..|]. rewrite H3. simpl.
      unfold insert_or_ignore. by rewrite dim_set_dim, set_dim_set_dim.
    + apply not_false_is_true in Hs. rewrite Hs. simpl. apply IH.
Qed.

Lemma populate_dimensions_run (df : list row) (c : conn) :
  working c = empty_db →
  let r := populate_dimensions get_id df c in
  r.2 = Ok tt ∧ committed r.1 = committed c ∧ working r.1 = dims_db skip df.
Proof.
  intros Hc. unfold populate_dimensions. simpl for_.
  rewrite bind_run.
  pose proof (intern_loop Brands (sorted (unique (dropna (brand <$> df)))) c) as H.
  simpl in H. destruct (for_ _ _ c) as [c1 r1]. simpl in H.
  destruct H as (-> & Hc1 & Hw1). rewrite bind_run.
  pose proof (intern_loop MachineTypes
                (sorted (unique (dropna (machine_type <$> df)))) c1) as H.
  simpl in H. destruct (for_ _ _ c1) as [c2 r2]. simpl in H.
  destruct H as (-> & Hc2 & Hw2). rewrite bind_run.
  pose proof (intern_loop Models (sorted (unique (dropna (model <$> df)))) c2) as H.
  simpl in H. destruct (for_ _ _ c2) as [c3 r3]. simpl in H.
  destruct H as (-> & Hc3 & Hw3). rewrite bind_run.
  pose proof (intern_loop Languages (sorted (unique (dropna (language <$> df)))) c3) as H.
  simpl in H. destruct (for_ _ _ c3) as [c4 r4]. simpl in H.
  destruct H as (-> & Hc4 & Hw4). simpl.
  split_and!; [done|congruence|].
  rewrite Hw4, Hw3, Hw2, Hw1, Hc. reflexivity.
Qed.

Lemma get_id_covered (t : table) (v : option string) (c : conn) :
  (∀ n, v = Some n → skip n = false → n ∈ dim_name <$> dim t (working c)) →
  ∃ b, (if notna v then get_id t v else mret None) c =
       (Conn (committed c) (working c) b, Ok (resolve skip t (working c) v)).
Proof.
  intros Hcov. destruct v as [n|]; simpl.
  - rewrite get_id_Some. destruct (skip n) eqn:Hs.
    + exists (in_transaction c). by destruct c.
    + exists true. rewrite get_or_create_run.
      by rewrite insert_or_ignore_present by (by apply Hcov).
  - exists (in_transaction c). by destruct c.
Qed.

Lemma populate_book_run (r : row) (c : conn) :
  covered skip (working c) r →
  let res := populate_book get_id r c in
  committed res.1 = committed c ∧
  match put_book skip r (working c) with
  | Ok d' => working res.1 = d' ∧ res.2 = Ok tt
  | Raise e => working res.1 = working c ∧ res.2 = Raise e
  end.
Proof.
  intros Hcov. unfold populate_book.
  destruct (get_id_covered Brands (brand r) c) as [b1 E1].
  { by_covered Hcov Brands brand. }
  rewrite bind_run, E1.
  destruct (get_id_covered MachineTypes (machine_type r)
              (Conn (committed c) (working c) b1)) as [b2 E2].
  { by_covered Hcov MachineTypes machine_type. }
  rewrite bind_run, E2. simpl committed. simpl working.
  destruct (get_id_covered Models (model r)
              (Conn (committed c) (working c) b2)) as [b3 E3].
  { by_covered Hcov Models model. }
  rewrite bind_run, E3. simpl committed. simpl working.
  destruct (get_id_covered Languages (language r)
              (Conn (committed c) (working c) b3)) as [b4 E4].
  { by_covered Hcov Languages language. }
  rewrite bind_run, E4. simpl committed. simpl working.
  rewrite bind_run. unfold put_book, lift.
  destruct (py_int (book_id r)) as [n|e]; simpl; [|done].
  unfold execute. simpl. fold (params_of skip (working c) r n).
  destruct (insert_book (params_of skip (working c) r n) (working c)); simpl; done.
Qed.

Lemma insert_book_dim (p : book_params) (d d' : db) (t : table) :
  insert_book p d = Ok d' → dim t d' = dim t d.
Proof.
  unfold insert_book. case_decide; [|done]. destruct (p_title p); [|done].
  case_decide; [done|]. destruct (fks_ok p d); [|done].
  intros [= <-]. apply dim_set_books.
Qed.

Lemma put_book_dim (r : row) (d d' : db) (t : table) :
  put_book skip r d = Ok d' → dim t d' = dim t d.
Proof.
  unfold put_book. destruct (py_int (book_id r)); [|done]. apply insert_book_dim.
Qed.

Lemma for_populate_book (rs : list row) (c : conn) :
  (∀ r, r ∈ rs → covered skip (working c) r) →
  let res := for_ rs (populate_book get_id) c in
  committed res.1 = committed c ∧ (working res.1, res.2) = put_books skip rs (working c).
Proof.
  revert c. induction rs as [|r rs IH]; intros c Hcov; simpl; [done|].
  rewrite bind_run.
  pose proof (populate_book_run r c (Hcov r ltac:(left))) as H. simpl in H.
  destruct (populate_book get_id r c) as [c1 r1]. simpl in H.
  destruct H as [Hc1 H].
  destruct (put_book skip r (working c)) as [d'|e] eqn:Hput.
  - destruct H as [Hw ->]. subst d'.
    destruct (IH c1) as [H1 H2].
    { intros r' Hr' t col n Hin Hcol Hs.
      rewrite (put_book_dim _ _ _ t Hput).
      apply (Hcov r' ltac:(by right) t col n Hin Hcol Hs). }
    split; [congruence|done].
  - destruct H as [Hw ->]. simpl. by rewrite Hw.
Qed.
End import_facts.

(** ** [unique], [sorted] and [dropna] *)

Lemma elem_of_unique (x : string) (l : list string) : x ∈ unique l ↔ x ∈ l.
Proof.
  induction l as [|a l IH]; simpl; [done|].
  rewrite !elem_of_cons, list_elem_of_filter, IH.
  destruct (decide (x = a)); naive_solver.
Qed.

Lemma NoDup_unique (l : list string) : NoDup (unique l).
Proof.
  induction l as [|a l IH]; simpl; [constructor|].
  apply NoDup_cons. split; [|by apply NoDup_filter].
  rewrite list_elem_of_filter. naive_solver.
Qed.

Lemma elem_of_sorted (x : string) (l : list string) : x ∈ sorted l ↔ x ∈ l.
Proof. unfold sorted. by rewrite merge_sort_Permutation. Qed.

Lemma NoDup_sorted (l : list string) : NoDup l → NoDup (sorted l).
Proof. unfold sorted. by rewrite merge_sort_Permutation. Qed.

Lemma elem_of_dropna (x : string) (l : list (option string)) :
  x ∈ dropna l ↔ Some x ∈ l.
Proof.
  unfold dropna. rewrite list_elem_of_omap. split.
  - intros (o & Ho & Hx). simpl in Hx. by subst.
  - intros H. by exists (Some x).
Qed.

Section import_run.
Variable get_id : table → option string → M (option Z).
Variable skip : string → bool.
Hypothesis get_id_Some : ∀ t n c,
  get_id t (Some n) c = if skip n then (c, Ok None) else get_or_create t n c.

Lemma elem_of_dim_names (col : row → option string) (df : list row) (n : string) :
  n ∈ dim_names skip col df ↔ skip n = false ∧ ∃ r, r ∈ df ∧ col r = Some n.
Proof.
  unfold dim_names.
  rewrite list_elem_of_filter, elem_of_sorted, elem_of_unique, elem_of_dropna,
    list_elem_of_fmap.
  naive_solver.
Qed.

Lemma NoDup_dim_names (col : row → option string) (df : list row) :
  NoDup (dim_names skip col df).
Proof. apply NoDup_filter, NoDup_sorted, NoDup_unique. Qed.

Lemma dims_db_dim (t : table) (df : list row) :
  dim t (dims_db skip df) =
  intern (dim_names skip
            match t with
            | Brands => brand
            | MachineTypes => machine_type
            | Models => model
            | Languages => language
            end df) [].
Proof. by destruct t. Qed.

Lemma dims_db_covered (df : list row) (r : row) :
  r ∈ df → covered skip (dims_db skip df) r.
Proof.
  intros Hr t col n Hin Hcol Hs.
  rewrite dims_db_dim, intern_names. left.
  apply elem_of_dim_names. split; [done|]. exists r. split; [done|].
  set_unfold in Hin.
  destruct Hin as [[= -> ->]|[[= -> ->]|[[= -> ->]|[[= -> ->]|[]]]]]; done.
Qed.

(** The import is the dimension tables of the sheet followed by the
    books, or the dimension tables alone when a book fails. *)
Lemma run_import_eq (df : list row) (store : db) :
  run_import (populate_replace_with get_id) df store =
  match put_books skip df (dims_db skip df) with
  | (d, Ok _) => (d, Ok tt)
  | (_, Raise e) => (dims_db skip df, Raise e)
  end.
Proof.
  unfold run_import, populate_replace_with.
  rewrite bind_run. change (create_schema true (connect store))
    with (Conn empty_db empty_db false, Ok tt).
  cbv beta iota. rewrite bind_run.
  pose proof (populate_dimensions_run get_id skip get_id_Some df
                (Conn empty_db empty_db false) eq_refl) as H.
  simpl in H. destruct (populate_dimensions get_id df _) as [c1 r1]. simpl in H.
  destruct H as (-> & Hc1 & Hw1).
  rewrite bind_run. unfold commit at 1. cbv beta iota. rewrite Hw1. rewrite bind_run.
  pose proof (for_populate_book get_id skip get_id_Some df
                (Conn (dims_db skip df) (dims_db skip df) false)) as H.
  simpl in H. destruct H as [Hc2 Hp].
  { intros r Hr. by apply dims_db_covered. }
  destruct (for_ df (populate_book get_id) _) as [c2 r2]. simpl in Hc2, Hp.
  rewrite <- Hp. destruct r2 as [[]|e]; simpl; [done|]. by rewrite Hc2.
Qed.
End import_run.

(** ** The books inserted by an import *)

Section books_facts.
Variable skip : string → bool.

Lemma select_id_dim (t : table) (n : string) (d d' : db) :
  dim t d' = dim t d → select_id t n d' = select_id t n d.
Proof. unfold select_id. by intros ->. Qed.

Lemma resolve_dim (t : table) (v : option string) (d d' : db) :
  dim t d' = dim t d → resolve skip t d' v = resolve skip t d v.
Proof.
  intros H. destruct v as [n|]; simpl; [|done].
  destruct (skip n); [done|]. by apply select_id_dim.
Qed.

Lemma stores_dim (d d' : db) (r : row) (b : book_row) :
  (∀ t, dim t d' = dim t d) → stores skip d r b → stores skip d' r b.
Proof.
  intros H (H1 & H2 & H3 & H4 & H5 & H6 & H7 & H8).
  unfold stores. rewrite !(resolve_dim _ _ d d') by done. done.
Qed.

Lemma select_id_elem (t : table) (n : string) (d : db) (i : Z) :
  select_id t n d = Some i → DimRow i n ∈ dim t d.
Proof.
  unfold select_id. destruct (filter _ (dim t d)) as [|x l] eqn:Hf; [done|].
  simpl. intros [= <-].
  assert (x ∈ filter (λ r, dim_name r = n) (dim t d)) as [Hn Hin]%list_elem_of_filter
    by (rewrite Hf; left).
  destruct x as [i' n']. simpl in *. by subst.
Qed.

Lemma select_id_present (t : table) (n : string) (d : db) :
  n ∈ dim_name <$> dim t d → is_Some (select_id t n d).
Proof.
  intros (x & -> & Hx)%list_elem_of_fmap. unfold select_id.
  destruct (filter _ (dim t d)) as [|y l] eqn:Hf; [|by eexists].
  exfalso. assert (x ∈ filter (λ r, dim_name r = dim_name x) (dim t d)) as H
    by (by apply list_elem_of_filter).
  rewrite Hf in H. by apply elem_of_nil in H.
Qed.

Lemma resolve_fk_ok (t : table) (d : db) (v : option string) :
  fk_ok (resolve skip t d v) (dim t d) = true.
Proof.
  destruct v as [n|]; simpl; [|done]. destruct (skip n); [done|].
  destruct (select_id t n d) as [i|] eqn:Hs; simpl; [|done].
  apply bool_decide_eq_true. apply select_id_elem in Hs.
  by apply (list_elem_of_fmap_2 dim_id) in Hs.
Qed.

Lemma fks_ok_params (d : db) (r : row) (n : Z) : fks_ok (params_of skip d r n) d = true.
Proof.
  unfold fks_ok, params_of. simpl.
  pose proof (resolve_fk_ok Brands d (brand r)).
  pose proof (resolve_fk_ok Models d (model r)).
  pose proof (resolve_fk_ok MachineTypes d (machine_type r)).
  pose proof (resolve_fk_ok Languages d (language r)).
  simpl in *. by repeat (apply andb_true_intro; split).
Qed.

(** One book: it is appended when its number is an integer, its title is
    present and its number is new. *)
Lemma put_book_Ok (r : row) (d d' : db) :
  put_book skip r d = Ok d' →
  ∃ b, d' = set_books (books d ++ [b]) d ∧ stores skip d r b ∧
       bk_book_id b ∉ bk_book_id <$> books d.
Proof.
  unfold put_book. destruct (book_id r) as [n| |] eqn:Hn; simpl; [|done..].
  unfold insert_book. case_decide as H64; [|done]. simpl.
  destruct (title r) as [t|] eqn:Ht; [|done].
  case_decide as Hin; [done|]. rewrite fks_ok_params. intros [= <-].
  eexists. split; [reflexivity|]. split; [|done].
  unfold stores, new_book, params_of. simpl. by rewrite Hn, Ht.
Qed.

Lemma put_book_success (r : row) (d : db) (n : Z) (t : string) :
  book_id r = Numeric n → int64 n → title r = Some t → n ∉ bk_book_id <$> books d →
  ∃ d', put_book skip r d = Ok d'.
Proof.
  intros Hn H64 Ht Hin. unfold put_book. rewrite Hn. simpl.
  unfold insert_book. rewrite decide_True by done. simpl. rewrite Ht.
  rewrite decide_False by done.
  rewrite fks_ok_params. by eexists.
Qed.

Lemma put_books_Ok (rs : list row) (d d' : db) :
  put_books skip rs d = (d', Ok tt) →
  ∃ bs, d' = set_books (books d ++ bs) d ∧ Forall2 (stores skip d) rs bs ∧
        (NoDup (bk_book_id <$> books d) → NoDup (bk_book_id <$> books d')).
Proof.
  revert d. induction rs as [|r rs IH]; intros d; simpl.
  - intros [= <-]. exists []. rewrite app_nil_r. destruct d; simpl.
    split_and!; [done|constructor|done].
  - destruct (put_book skip r d) as [d1|e] eqn:Hput; [|done].
    apply put_book_Ok in Hput as (b & -> & Hb & Hfresh).
    intros (bs & -> & Hbs & Hnd)%IH. exists (b :: bs). simpl.
    split_and!.
    + by rewrite <- app_assoc.
    + constructor; [done|].
      eapply Forall2_impl; [exact Hbs|]. intros r' b'. apply stores_dim.
      intros t. by rewrite dim_set_books.
    + intros H. apply Hnd. simpl. rewrite fmap_app. apply NoDup_app.
      split_and!; [done| |apply NoDup_singleton].
      intros x Hx [->|[]%elem_of_nil]%elem_of_cons. done.
Qed.

Lemma put_books_success (rs : list row) (d : db) :
  (∀ r, r ∈ rs → ∃ n t, book_id r = Numeric n ∧ title r = Some t) →
  NoDup (numbers rs) → (∀ n, n ∈ numbers rs → n ∉ bk_book_id <$> books d) →
  (∀ n, n ∈ numbers rs → int64 n) →
  ∃ d', put_books skip rs d = (d', Ok tt).
Proof.
  revert d. induction rs as [|r rs IH]; intros d Hwf Hnd Hfresh H64; simpl.
  - by eexists.
  - destruct (Hwf r ltac:(left)) as (n & t & Hn & Ht).
    unfold numbers in Hnd, Hfresh, H64. simpl in Hnd, Hfresh, H64.
    rewrite Hn in Hnd, Hfresh, H64.
    simpl in Hnd, Hfresh, H64. apply NoDup_cons in Hnd as [Hn' Hnd].
    destruct (put_book_success r d n t Hn) as [d1 Hput]; [|done|..].
    { apply H64. left. }
    { apply Hfresh. left. }
    rewrite Hput. apply put_book_Ok in Hput as (b & -> & Hb & _).
    apply IH; [|done| |].
    + intros r' Hr'. apply Hwf. by right.
    + intros m Hm. simpl. rewrite fmap_app, not_elem_of_app. split.
      * apply Hfresh. by right.
      * simpl. destruct Hb as [Hb _]. rewrite Hn in Hb. injection Hb as <-.
        intros [->|[]%elem_of_nil]%elem_of_cons. done.
    + intros m Hm. apply H64. by right.
Qed.

Lemma put_book_Ok_int64 (r : row) (d d' : db) :
  put_book skip r d = Ok d' → ∃ n, book_id r = Numeric n ∧ int64 n.
Proof.
  unfold put_book. destruct (book_id r) as [n| |]; simpl; [|done..].
  unfold insert_book. case_decide as H64; [|done]. intros _. by exists n.
Qed.

Lemma put_books_Ok_int64 (rs : list row) (d d' : db) :
  put_books skip rs d = (d', Ok tt) → ∀ n, n ∈ numbers rs → int64 n.
Proof.
  revert d. induction rs as [|r rs IH]; intros d; simpl.
  - intros _ n []%elem_of_nil.
  - destruct (put_book skip r d) as [d1|e] eqn:Hput; [|done].
    intros Hrun n. apply put_book_Ok_int64 in Hput as (m & Hm & H64).
    unfold numbers. simpl. rewrite Hm. simpl.
    intros [->|Hn]%elem_of_cons; [done|]. by apply (IH d1 Hrun).
Qed.

(** A sheet with two rows of the same number, or with a row that has no
    number or no title, is not imported. *)
Lemma put_books_Ok_numbers (rs : list row) (d d' : db) :
  put_books skip rs d = (d', Ok tt) →
  bk_book_id <$> books d' = (bk_book_id <$> books d) ++ numbers rs ∧
  length (numbers rs) = length rs.
Proof.
  intros (bs & -> & Hbs & _)%put_books_Ok.
  assert (bk_book_id <$> bs = numbers rs ∧ length (numbers rs) = length rs) as [E ?].
  { clear -Hbs. induction Hbs as [|r b rs bs Hrb _ [IH1 IH2]]; [done|].
    destruct Hrb as [Hrb _].
    change (bk_book_id <$> b :: bs) with (bk_book_id b :: (bk_book_id <$> bs)).
    change (numbers (r :: rs))
      with (match match book_id r with Numeric n => Some n | _ => None end
            with Some n => n :: numbers rs | None => numbers rs end).
    rewrite Hrb, IH1. simpl. by rewrite IH2. }
  simpl. by rewrite fmap_app, E.
Qed.
End books_facts.

(** ** The joins of the read query *)

Lemma filter_none {A} (P : A → Prop) `{∀ x, Decision (P x)} (l : list A) :
  (∀ x, ¬ P x) → filter P l = [].
Proof.
  intros HP. induction l as [|a l IH]; [done|].
  by rewrite filter_cons_False by apply HP.
Qed.

Lemma left_join_fk {A} (f : A → option Z) (l : list A) (r : list dim_row) :
  NoDup (dim_id <$> r) →
  left_join (λ a b, fk_eq (f a) (dim_id b)) l r = (λ a, (a, row_of r (f a))) <$> l.
Proof.
  intros Hnd. unfold left_join. induction l as [|a l IH]; [done|].
  rewrite bind_cons, IH, fmap_cons. clear IH.
  change (?x :: ?l) with ([x] ++ l) at 2. f_equal.
  destruct (f a) as [i|] eqn:Hfa; simpl.
  - rewrite (list_filter_iff _ (λ b, dim_id b = i)).
    + destruct (filter_key_NoDup dim_id i r Hnd) as [->|[x ->]]; done.
    + intros x. rewrite bool_decide_spec. naive_solver.
  - rewrite filter_none; [done|]. intros x. simpl. tauto.
Qed.

Lemma from_joins_eq (d : db) :
  pk_unique d → from_joins d = merge_sort by_book_id (join_book d <$> books d).
Proof.
  intros Hpk. unfold from_joins.
  rewrite (left_join_fk bk_brand_id) by apply (Hpk Brands).
  rewrite (left_join_fk (λ j, bk_model_id j.1)) by apply (Hpk Models).
  rewrite (left_join_fk (λ j, bk_machine_type_id j.1.1)) by apply (Hpk MachineTypes).
  rewrite (left_join_fk (λ j, bk_language_id j.1.1.1)) by apply (Hpk Languages).
  by rewrite <- !list_fmap_compose.
Qed.

#[global] Instance by_book_id_total : Total by_book_id.
Proof. intros x y. unfold by_book_id. lia. Qed.

#[global] Instance by_book_id_trans : Transitive by_book_id.
Proof. intros x y z. unfold by_book_id. lia. Qed.

Lemma Sorted_numbers (f : joined → drow) (l : list joined) :
  (∀ j, c_number (f j) = bk_book_id (joined_book j)) →
  Sorted Z.le (c_number <$> (f <$> merge_sort by_book_id l)).
Proof.
  intros Hf. rewrite <- list_fmap_compose.
  apply (Sorted_fmap (c_number ∘ f) by_book_id Z.le).
  - intros x y Hxy. simpl. rewrite !Hf. exact Hxy.
  - apply Sorted_merge_sort. apply _.
Qed.

(** The read query on a store that satisfies its primary keys: the rows of
    the books, each with the names its keys stand for, in a sorted
    permutation. *)
Lemma read_names (d : db) :
  pk_unique d →
  select_names <$> from_joins d ≡ₚ denormalized d <$> books d ∧
  Sorted Z.le (c_number <$> (select_names <$> from_joins d)).
Proof.
  intros Hpk. rewrite from_joins_eq by done. split.
  - rewrite merge_sort_Permutation, <- list_fmap_compose. done.
  - apply Sorted_numbers. by intros [[[[b ?] ?] ?] ?].
Qed.

Lemma read_coalesce (d : db) :
  pk_unique d →
  select_coalesce <$> from_joins d ≡ₚ denormalized_coalesce d <$> books d ∧
  Sorted Z.le (c_number <$> (select_coalesce <$> from_joins d)).
Proof.
  intros Hpk. rewrite from_joins_eq by done. split.
  - rewrite merge_sort_Permutation, <- list_fmap_compose. done.
  - apply Sorted_numbers. by intros [[[[b ?] ?] ?] ?].
Qed.

Lemma row_of_elem (rows : list dim_row) (i : Z) (n : string) :
  NoDup (dim_id <$> rows) → DimRow i n ∈ rows → row_of rows (Some i) = Some (DimRow i n).
Proof.
  intros Hnd Hin. simpl.
  assert (DimRow i n ∈ filter (λ r, dim_id r = i) rows) as Hf
    by (by apply list_elem_of_filter).
  destruct (filter_key_NoDup dim_id i rows Hnd) as [E|[x E]]; rewrite E in Hf |- *.
  - by apply elem_of_nil in Hf.
  - apply list_elem_of_singleton in Hf. by subst.
Qed.

Section read_back_facts.
Variable skip : string → bool.

Lemma name_of_resolve (t : table) (d : db) (v : option string) :
  NoDup (dim_id <$> dim t d) →
  (∀ n, v = Some n → skip n = false → n ∈ dim_name <$> dim t d) →
  name_of (dim t d) (resolve skip t d v) = kept skip v.
Proof.
  intros Hnd Hcov. destruct v as [n|]; simpl; [|done].
  destruct (skip n) eqn:Hs; [done|].
  destruct (select_id_present t n d (Hcov n eq_refl Hs)) as [i Hi].
  rewrite Hi. unfold name_of.
  by rewrite (row_of_elem _ i n Hnd (select_id_elem t n d i Hi)).
Qed.

Lemma denormalized_stores (D d : db) (r : row) (b : book_row) :
  (∀ t, dim t d = dim t D) → pk_unique D → covered skip D r → stores skip D r b →
  Some (denormalized d b) = read_back_with skip r.
Proof.
  intros Hd Hpk Hcov (H1 & H2 & H3 & H4 & H5 & H6 & H7 & H8).
  unfold read_back_with, denormalized. rewrite H1, H2, H3, H4, H5, H6, H7, H8.
  change (brands d) with (dim Brands d). change (models d) with (dim Models d).
  change (machine_types d) with (dim MachineTypes d).
  change (languages d) with (dim Languages d).
  rewrite !Hd.
  rewrite !name_of_resolve; [done|apply Hpk|..|apply Hpk| |apply Hpk| |apply Hpk|].
  - by_covered Hcov Languages language.
  - by_covered Hcov MachineTypes machine_type.
  - by_covered Hcov Models model.
  - by_covered Hcov Brands brand.
Qed.

Lemma dims_db_ok (df : list row) (t : table) : dim_ok (dim t (dims_db skip df)).
Proof. rewrite dims_db_dim. apply intern_ok, dim_ok_nil. Qed.

Lemma dims_db_pk (df : list row) : pk_unique (dims_db skip df).
Proof. intros t. apply dims_db_ok. Qed.

Lemma dims_db_names (df : list row) (t : table) :
  dim_name <$> dim t (dims_db skip df) =
  dim_names skip
    match t with
    | Brands => brand
    | MachineTypes => machine_type
    | Models => model
    | Languages => language
    end df.
Proof.
  rewrite dims_db_dim, intern_fmap; [done|apply NoDup_dim_names|].
  intros n _ []%elem_of_nil.
Qed.

Lemma read_back_map (D d : db) (rs : list row) (bs : list book_row) :
  (∀ t, dim t d = dim t D) → pk_unique D → (∀ r, r ∈ rs → covered skip D r) →
  Forall2 (stores skip D) rs bs →
  Some <$> (denormalized d <$> bs) = read_back_with skip <$> rs.
Proof.
  intros Hd Hpk Hcov Hbs. induction Hbs as [|r b rs bs Hrb _ IH]; [done|].
  rewrite !fmap_cons. f_equal.
  - eapply denormalized_stores; [exact Hd|exact Hpk| |exact Hrb].
    apply Hcov. left.
  - apply IH. intros r' Hr'. apply Hcov. by right.
Qed.

(** A successful import: the store holds the dimension tables of the
    sheet and one book per row, and reading it back gives the rows. *)
Lemma put_books_read_back (df : list row) (d' : db) :
  put_books skip df (dims_db skip df) = (d', Ok tt) →
  (∀ t, dim t d' = dim t (dims_db skip df)) ∧ meta d' = [] ∧
  Forall2 (stores skip (dims_db skip df)) df (books d') ∧
  NoDup (bk_book_id <$> books d') ∧
  Some <$> (denormalized d' <$> books d') = read_back_with skip <$> df.
Proof.
  intros H. destruct (put_books_Ok skip df _ _ H) as (bs & -> & Hbs & Hnd).
  simpl books in *. simpl app in *.
  assert (∀ t, dim t (set_books bs (dims_db skip df)) = dim t (dims_db skip df)) as Hd
    by (intros t; apply dim_set_books).
  split_and!; [done|done|done|apply Hnd; constructor|].
  assert (∀ r, r ∈ df → covered skip (dims_db skip df) r) as Hcov
    by (intros r; apply dims_db_covered).
  eapply read_back_map; [exact Hd|apply dims_db_pk|exact Hcov|exact Hbs].
Qed.
End read_back_facts.

(** ** The two [get_id] *)

Lemma App_get_id_Some (t : table) (n : string) (c : conn) :
  App.get_id t (Some n) c = if no_skip n then (c, Ok None) else get_or_create t n c.
Proof. reflexivity. Qed.

Lemma Kaveh_get_id_Some (t : table) (n : string) (c : conn) :
  Kaveh.get_id t (Some n) c = if skip_empty n then (c, Ok None) else get_or_create t n c.
Proof.
  unfold Kaveh.get_id, skip_empty. case_decide.
  - by rewrite bool_decide_eq_true_2.
  - by rewrite bool_decide_eq_false_2.
Qed.

(** The handlers leave the store that the import leaves. *)
Lemma App_update_archive_store (xl : list raw_row) (store : db) :
  (App.update_archive xl store).1
  = (run_import App.populate_replace (load_excel_to_df xl) store).1.
Proof. unfold App.update_archive. by destruct (run_import _ _ _) as [d [[]|e]]. Qed.

Lemma Kaveh_action_rebuild_store (xl : list raw_row) (store : db) :
  (Kaveh.action_rebuild_from_excel xl store).1
  = (run_import Kaveh.populate_replace (load_excel_to_df xl) store).1.
Proof.
  unfold Kaveh.action_rebuild_from_excel. by destruct (run_import _ _ _) as [d [[]|e]].
Qed.

Lemma kept_no_skip (v : option string) : kept no_skip v = v.
Proof. by destruct v. Qed.

Lemma filter_no_skip (l : list string) : filter (λ n, no_skip n = false) l = l.
Proof.
  induction l as [|a l IH]; [done|]. rewrite filter_cons_True by done. by rewrite IH.
Qed.

Lemma App_run_import (df : list row) (store : db) :
  run_import App.populate_replace df store =
  match put_books no_skip df (dims_db no_skip df) with
  | (d, Ok _) => (d, Ok tt)
  | (_, Raise e) => (dims_db no_skip df, Raise e)
  end.
Proof. apply run_import_eq, App_get_id_Some. Qed.

(** ** Sheets *)

Lemma read_back_no_skip (r : row) : read_back_with no_skip r = read_back r.
Proof. unfold read_back_with, read_back. by rewrite !kept_no_skip. Qed.

Lemma numbers_load (xl : list raw_row) :
  (∀ x, x ∈ xl → ∃ n, x_book_id x = Numeric n) →
  Numeric <$> numbers (load_excel_to_df xl) = x_book_id <$> xl.
Proof.
  induction xl as [|x xl IH]; intros H; [done|].
  destruct (H x ltac:(left)) as [n Hn].
  unfold numbers, load_excel_to_df. rewrite !fmap_cons. simpl. rewrite Hn. simpl.
  f_equal. apply IH. intros y Hy. apply H. by right.
Qed.

Lemma well_formed_rows (xl : list raw_row) :
  well_formed xl →
  (∀ r, r ∈ load_excel_to_df xl → ∃ n t, book_id r = Numeric n ∧ title r = Some t) ∧
  NoDup (numbers (load_excel_to_df xl)).
Proof.
  intros (Hnum & Hnd & Htitle). split.
  - intros r (x & -> & Hx)%list_elem_of_fmap. simpl.
    destruct (Hnum x Hx) as [n Hn]. specialize (Htitle x Hx).
    destruct (clean (x_title x)) as [t|]; [|done]. by exists n, t.
  - apply (NoDup_fmap_1 Numeric). by rewrite numbers_load.
Qed.

Lemma elem_of_numbers_inv (rs : list row) (n : Z) :
  n ∈ numbers rs → ∃ r, r ∈ rs ∧ book_id r = Numeric n.
Proof.
  unfold numbers. intros (r & Hr & Hn)%list_elem_of_omap. exists r. split; [done|].
  destruct (book_id r); by simplify_eq.
Qed.

Lemma in_range_numbers (xl : list raw_row) :
  in_range xl → ∀ n, n ∈ numbers (load_excel_to_df xl) → int64 n.
Proof.
  intros H64 n (r & (x & -> & Hx)%list_elem_of_fmap & Hn)%elem_of_numbers_inv.
  by apply (H64 x n Hx).
Qed.

Lemma App_import_success (xl : list raw_row) (store : db) :
  well_formed xl → in_range xl →
  ∃ d, run_import App.populate_replace (load_excel_to_df xl) store = (d, Ok tt) ∧
       put_books no_skip (load_excel_to_df xl) (dims_db no_skip (load_excel_to_df xl))
       = (d, Ok tt).
Proof.
  intros [Hrows Hnd]%well_formed_rows H64.
  pose proof (in_range_numbers xl H64) as Hnums.
  destruct (put_books_success no_skip (load_excel_to_df xl)
              (dims_db no_skip (load_excel_to_df xl)) Hrows Hnd) as [d Hd]; [|done|].
  { intros n _ []%elem_of_nil. }
  exists d. by rewrite App_run_import, Hd.
Qed.

Lemma App_import_Ok (df : list row) (store d : db) :
  run_import App.populate_replace df store = (d, Ok tt) →
  put_books no_skip df (dims_db no_skip df) = (d, Ok tt).
Proof.
  rewrite App_run_import.
  destruct (put_books no_skip df (dims_db no_skip df)) as [d' [[]|e]]; [|done].
  by intros [= ->].
Qed.

(** ** C5: round trip *)

(** The cleaning of [load_excel_to_df] is that of the specification on
    every cell but a text of white space only. *)
Lemma clean_spec_cleaned (c : cell) :
  (∀ s, c = Text s → strip s ≠ "") → clean c = spec_cleaned c.
Proof.
  intros Hc. destruct c as [s|]; [|done]. unfold clean, spec_cleaned, replace_nan. simpl.
  specialize (Hc s eq_refl). repeat case_decide; naive_solver.
Qed.

Lemma spec_cleaned_clean (c : cell) (t : string) :
  spec_cleaned c = Some t → clean c = Some t.
Proof.
  destruct c as [s|]; [|done]. unfold clean, spec_cleaned, replace_nan. simpl.
  repeat case_decide; naive_solver.
Qed.

Lemma spec_well_formed_code (xl : list raw_row) : spec_well_formed xl → well_formed xl.
Proof.
  intros (Hnum & Hnd & Htitle). split_and!; [done..|].
  intros x Hx. specialize (Htitle x Hx).
  destruct (spec_cleaned (x_title x)) as [t|] eqn:Ht; [|done].
  by rewrite (spec_cleaned_clean _ t Ht).
Qed.

Lemma read_back_spec_row (xl : list raw_row) (x : raw_row) :
  spec_well_formed xl → no_blank_name xl → x ∈ xl →
  shown <$> read_back (clean_row x) = spec_row x.
Proof.
  intros (Hnum & _ & Htitle) Hblank Hx.
  destruct (Hnum x Hx) as [n Hn]. specialize (Htitle x Hx).
  destruct (spec_cleaned (x_title x)) as [t|] eqn:Ht; [|done].
  unfold read_back, spec_row. simpl. rewrite Hn, Ht, (spec_cleaned_clean _ t Ht). simpl.
  unfold shown. simpl.
  assert (∀ c, c ∈ [x_brand x; x_model x; x_machine_type x; x_language x] →
               clean c = spec_cleaned c) as Hc.
  { intros c Hin. apply clean_spec_cleaned. intros s. by apply (Hblank x c s). }
  rewrite (Hc (x_brand x)), (Hc (x_model x)), (Hc (x_machine_type x)),
    (Hc (x_language x)) by set_solver.
  by destruct (spec_cleaned (x_language x)).
Qed.

(** C5 fails as stated on [app_one_tab_pro.py].  A well-formed sheet whose
    catalog number is 2^63 is not imported: the number does not fit the
    INTEGER column and binding it raises.  And the cell of three spaces of
    [sheet_blank] reads back as the empty text, where the cleaned value of
    the specification is null. *)
Lemma C5_counterexample :
  spec_well_formed sheet_big ∧
  (App.update_archive sheet_big empty_db).2 = Raise OverflowError ∧
  spec_well_formed sheet_blank ∧
  Some <$> (shown <$> App.load_db_to_df (App.update_archive sheet_blank empty_db).1)
  = [Some (1, "Engine Manual", Some "", None, None, Some "Unknown")] ∧
  spec_row <$> sheet_blank
  = [Some (1, "Engine Manual", None, None, None, Some "Unknown")].
Proof.
  assert (∀ x0 : raw_row, x_book_id x0 = Numeric 1 ∨ x_book_id x0 = Numeric 9223372036854775808 →
            ∃ n, x_book_id x0 = Numeric n) as Hnum by (intros x0 [->| ->]; by eexists).
  split_and!.
  - split_and!.
    + intros x Hx. set_unfold in Hx. destruct Hx as [->|[]]. by eexists.
    + vm_compute. repeat constructor; set_solver.
    + intros x Hx. set_unfold in Hx. destruct Hx as [->|[]]. by vm_compute.
  - by vm_compute.
  - split_and!.
    + intros x Hx. set_unfold in Hx. destruct Hx as [->|[]]. by eexists.
    + vm_compute. repeat constructor; set_solver.
    + intros x Hx. set_unfold in Hx. destruct Hx as [->|[]]. by vm_compute.
  - by vm_compute.
  - by vm_compute.
Qed.

(** C5, amended.  Importing a sheet of N well-formed rows (integer catalog
    numbers within the signed 64-bit range, no two alike, a title in every
    row) in which no dimension cell is a text of white space only, with
    [app_one_tab_pro.py], succeeds from any prior store, and reading the
    store back gives exactly N rows, in ascending order of the catalog
    number, whose number, title and four dimension names are the cleaned
    values of the specification for the sheet rows: the trimmed text, null
    for a blank cell or the text "nan", "Unknown" for such a language. *)
Theorem C5_round_trip (xl : list raw_row) (store : db) :
  spec_well_formed xl → in_range xl → no_blank_name xl →
  ∃ store',
    App.update_archive xl store = (store', Ok (App.load_db_to_df store')) ∧
    length (App.load_db_to_df store') = length xl ∧
    Some <$> (shown <$> App.load_db_to_df store') ≡ₚ spec_row <$> xl ∧
    Sorted Z.le (c_number <$> App.load_db_to_df store').
Proof.
  intros Hspec H64 Hblank. pose proof (spec_well_formed_code xl Hspec) as Hwf.
  destruct (App_import_success xl store Hwf H64) as (d & Hrun & Hput).
  exists d. unfold App.update_archive. rewrite Hrun.
  destruct (put_books_read_back no_skip _ _ Hput) as (Hd & _ & _ & _ & Hrb).
  assert (pk_unique d) as Hpk.
  { intros t. rewrite Hd. apply dims_db_pk. }
  destruct (read_names d Hpk) as [Hperm Hsorted]. unfold App.load_db_to_df.
  assert (Some <$> (select_names <$> from_joins d)
          ≡ₚ read_back <$> load_excel_to_df xl) as Hall.
  { rewrite Hperm, Hrb.
    rewrite (list_fmap_ext (read_back_with no_skip) read_back); [done|].
    intros i r _. apply read_back_no_skip. }
  split_and!; [done| | |done].
  - apply Permutation_length in Hall. rewrite !length_fmap in Hall.
    rewrite length_fmap, Hall. unfold load_excel_to_df. by rewrite length_fmap.
  - assert (Some <$> (shown <$> (select_names <$> from_joins d))
            = fmap shown <$> (Some <$> (select_names <$> from_joins d))) as ->.
    { rewrite <- !list_fmap_compose. by apply list_fmap_ext. }
    rewrite Hall. unfold load_excel_to_df. rewrite <- !list_fmap_compose.
    rewrite (list_fmap_ext _ spec_row); [done|]. intros i x Hx. simpl.
    apply (read_back_spec_row xl); [done..|]. by eapply list_elem_of_lookup_2.
Qed.

Lemma sheet_two_well_formed : well_formed sheet_two.
Proof.
  split_and!.
  - intros x Hx. set_unfold in Hx. destruct Hx as [->|[->|[]]]; by eexists.
  - vm_compute. repeat constructor; set_solver.
  - intros x Hx. set_unfold in Hx. destruct Hx as [->|[->|[]]]; by vm_compute.
Defined.

Lemma sheet_two_in_range : in_range sheet_two.
Proof.
  intros x n Hx Hn. set_unfold in Hx.
  destruct Hx as [->|[->|[]]]; injection Hn as <-; by vm_compute.
Defined.

Lemma sheet_two_spec_well_formed : spec_well_formed sheet_two.
Proof.
  split_and!.
  - intros x Hx. set_unfold in Hx. destruct Hx as [->|[->|[]]]; by eexists.
  - vm_compute. repeat constructor; set_solver.
  - intros x Hx. set_unfold in Hx. destruct Hx as [->|[->|[]]]; by vm_compute.
Defined.

Lemma sheet_two_no_blank_name : no_blank_name sheet_two.
Proof.
  intros x c s Hx Hc Hs. set_unfold in Hx.
  destruct Hx as [->|[->|[]]]; set_unfold in Hc; simpl in Hc;
    destruct Hc as [Hc|[Hc|[Hc|[Hc|[]]]]]; rewrite Hc in Hs; simplify_eq; by vm_compute.
Defined.

Lemma C5_round_trip_witness :
  spec_well_formed sheet_two ∧ in_range sheet_two ∧ no_blank_name sheet_two ∧
  ∃ store',
    App.update_archive sheet_two empty_db = (store', Ok (App.load_db_to_df store')) ∧
    length (App.load_db_to_df store') = length sheet_two ∧
    Some <$> (shown <$> App.load_db_to_df store') ≡ₚ spec_row <$> sheet_two ∧
    Sorted Z.le (c_number <$> App.load_db_to_df store').
Proof.
  split; [apply sheet_two_spec_well_formed|].
  split; [apply sheet_two_in_range|]. split; [apply sheet_two_no_blank_name|].
  apply (C5_round_trip sheet_two empty_db).
  - apply sheet_two_spec_well_formed.
  - apply sheet_two_in_range.
  - apply sheet_two_no_blank_name.
Defined.

(** ** C10: the default language *)

Lemma elem_of_numbers (rs : list row) (r : row) (n : Z) :
  r ∈ rs → book_id r = Numeric n → n ∈ numbers rs.
Proof.
  intros Hr Hn. unfold numbers. apply list_elem_of_omap. exists r.
  by rewrite Hn.
Qed.

Lemma numbers_inj (rs : list row) (r r0 : row) (n : Z) :
  NoDup (numbers rs) → r ∈ rs → r0 ∈ rs →
  book_id r = Numeric n → book_id r0 = Numeric n → r = r0.
Proof.
  induction rs as [|a rs IH]; intros Hnd Hr Hr0 Hn Hn0; [by apply elem_of_nil in Hr|].
  apply elem_of_cons in Hr as [->|Hr]; apply elem_of_cons in Hr0 as [->|Hr0]; [done|..].
  - exfalso. unfold numbers in Hnd. simpl in Hnd. rewrite Hn in Hnd. simpl in Hnd.
    apply NoDup_cons in Hnd as [Hnd _]. apply Hnd. by apply (elem_of_numbers rs r0).
  - exfalso. unfold numbers in Hnd. simpl in Hnd. rewrite Hn0 in Hnd. simpl in Hnd.
    apply NoDup_cons in Hnd as [Hnd _]. apply Hnd. by apply (elem_of_numbers rs r).
  - apply IH; [|done..]. unfold numbers in Hnd. simpl in Hnd.
    destruct (book_id a); simpl in Hnd; [|done..]. by apply NoDup_cons in Hnd as [_ ?].
Qed.

Lemma Forall2_elem_l {A B} (P : A → B → Prop) (l : list A) (k : list B) (x : A) :
  Forall2 P l k → x ∈ l → ∃ y, y ∈ k ∧ P x y.
Proof.
  induction 1 as [|a b l k Hab _ IH]; intros Hx; [by apply elem_of_nil in Hx|].
  apply elem_of_cons in Hx as [->|Hx].
  - exists b. split; [left|done].
  - destruct (IH Hx) as (y & Hy & HP). exists y. split; [by right|done].
Qed.

Lemma absent_clean (c : cell) : absent c → clean c = None.
Proof.
  unfold clean. intros [->|(s & -> & Hs)]; simpl; [done|]. by rewrite Hs.
Qed.

Lemma App_update_archive_Ok (xl : list raw_row) (store store' : db) (df' : list drow) :
  App.update_archive xl store = (store', Ok df') →
  run_import App.populate_replace (load_excel_to_df xl) store = (store', Ok tt) ∧
  df' = App.load_db_to_df store'.
Proof.
  unfold App.update_archive.
  destruct (run_import _ _ _) as [d [[]|e]]; [|done]. by intros [= -> <-].
Qed.

(** C10. In [app_one_tab_pro.py], when the import of a sheet succeeds, a row
    whose language cell is absent is cleaned to the language "Unknown"; its
    book points, through its language key, to a row of the table
    [languages] named "Unknown"; and the row read back for its catalog
    number has the language "Unknown". *)
Theorem C10_language_default (xl : list raw_row) (store store' : db)
    (df' : list drow) (x : raw_row) (n : Z) :
  App.update_archive xl store = (store', Ok df') →
  x ∈ xl → x_book_id x = Numeric n → absent (x_language x) →
  (∃ r, r ∈ load_excel_to_df xl ∧ book_id r = Numeric n ∧ language r = Some "Unknown") ∧
  (∃ b i, b ∈ books store' ∧ bk_book_id b = n ∧ bk_language_id b = Some i ∧
          DimRow i "Unknown" ∈ languages store') ∧
  (∃ r, r ∈ df' ∧ c_number r = n) ∧
  (∀ r, r ∈ df' → c_number r = n → c_language r = Some "Unknown").
Proof.
  intros [Hrun ->]%App_update_archive_Ok Hx Hn Habs.
  apply App_import_Ok in Hrun as Hput.
  destruct (put_books_read_back no_skip _ _ Hput) as (Hd & _ & Hst & Hnd & Hrb).
  set (df := load_excel_to_df xl) in *.
  set (r := clean_row x).
  assert (r ∈ df) as Hr by (by apply (list_elem_of_fmap_2 clean_row xl x)).
  assert (language r = Some "Unknown") as Hlang
    by (simpl; by rewrite absent_clean).
  assert (book_id r = Numeric n) as Hrn by done.
  destruct (Forall2_elem_l _ _ _ r Hst Hr) as (b & Hb & Hrb').
  assert (pk_unique store') as Hpk by (intros t; rewrite Hd; apply dims_db_pk).
  destruct (read_names store' Hpk) as [Hperm _].
  assert (Some <$> App.load_db_to_df store' ≡ₚ read_back <$> df) as Hall.
  { unfold App.load_db_to_df. rewrite Hperm, Hrb.
    rewrite (list_fmap_ext (read_back_with no_skip) read_back); [done|].
    intros i r' _. apply read_back_no_skip. }
  assert (NoDup (numbers df)) as Hnum.
  { destruct (put_books_Ok_numbers no_skip _ _ _ Hput) as [E _].
    simpl in E. by rewrite <- E. }
  destruct Hrb' as (Hb1 & Hb2 & _ & _ & _ & _ & _ & Hb8).
  split_and!.
  - by exists r.
  - rewrite Hlang in Hb8. simpl in Hb8.
    destruct (select_id_present Languages "Unknown" (dims_db no_skip df)) as [i Hi].
    { apply (dims_db_covered no_skip df r Hr Languages language); [set_solver|done..]. }
    exists b, i. rewrite Hrn in Hb1. injection Hb1 as Hb1.
    split_and!; [done|done|congruence|].
    apply select_id_elem in Hi. rewrite <- Hd in Hi. exact Hi.
  - assert (read_back r ∈ read_back <$> df) as Hin by (by apply list_elem_of_fmap_2).
    unfold read_back in Hin at 1. rewrite Hrn, Hb2 in Hin.
    rewrite <- Hall in Hin. apply list_elem_of_fmap in Hin as (r' & [= Hr'] & Hin).
    exists r'. split; [done|]. by rewrite <- Hr'.
  - intros r' Hr' Hnum'.
    assert (Some r' ∈ Some <$> App.load_db_to_df store') as Hin
      by (by apply list_elem_of_fmap_2).
    rewrite Hall in Hin. apply list_elem_of_fmap in Hin as (r0 & Hr0 & Hin).
    unfold read_back in Hr0.
    destruct (book_id r0) as [n0| |] eqn:Hn0; [|done..].
    destruct (title r0) as [t0|]; [|done]. injection Hr0 as ->. simpl in Hnum'. subst n0.
    simpl. by rewrite <- (numbers_inj df r r0 n Hnum Hr Hin Hrn Hn0).
Qed.

Lemma C10_language_default_witness :
  App.update_archive sheet_two empty_db
  = ((App.update_archive sheet_two empty_db).1,
     Ok (App.load_db_to_df (App.update_archive sheet_two empty_db).1)) ∧
  (∃ r, r ∈ load_excel_to_df sheet_two ∧ book_id r = Numeric 1 ∧
        language r = Some "Unknown") ∧
  (∃ b i, b ∈ books (App.update_archive sheet_two empty_db).1 ∧ bk_book_id b = 1 ∧
          bk_language_id b = Some i ∧
          DimRow i "Unknown" ∈ languages (App.update_archive sheet_two empty_db).1) ∧
  (∃ r, r ∈ App.load_db_to_df (App.update_archive sheet_two empty_db).1 ∧
        c_number r = 1) ∧
  (∀ r, r ∈ App.load_db_to_df (App.update_archive sheet_two empty_db).1 →
        c_number r = 1 → c_language r = Some "Unknown").
Proof.
  split; [by vm_compute|].
  apply (C10_language_default sheet_two empty_db _ _
           (RawRow (Numeric 1) (Text "ABC") NaN NaN (Text "Engine Manual") NaN NaN NaN) 1).
  - by vm_compute.
  - left.
  - reflexivity.
  - by left.
Defined.

(** ** The import of [build_installer.py] as a function of the sheet *)

Lemma executemany_run {A} (stmt : A → db → result db) (rows : list A) (c : conn) :
  let res := Installer.executemany stmt rows c in
  committed res.1 = committed c ∧ (working res.1, res.2) = exec_all stmt rows (working c).
Proof.
  unfold Installer.executemany. revert c.
  induction rows as [|x rows IH]; intros c; simpl; [done|].
  rewrite bind_run. destruct (execute (stmt x) c) as [c1 r1] eqn:E.
  unfold execute in E.
  destruct (stmt x (working c)) as [d'|e]; injection E as <- <-; [|done].
  apply (IH (Conn (committed c) d' true)).
Qed.

Lemma exec_all_insert_or_ignore (t : table) (names : list string) (d : db) :
  exec_all (λ n d, Ok (insert_or_ignore t n d)) names d =
  (set_dim t (intern names (dim t d)) d, Ok tt).
Proof.
  revert d. induction names as [|n names IH]; intros d; simpl.
  - by rewrite set_dim_same.
  - rewrite IH. unfold insert_or_ignore. by rewrite dim_set_dim, set_dim_set_dim.
Qed.

Lemma insert_names_run (t : table) (col : row → option string) (df : list row)
    (c : conn) :
  let res := Installer.insert_names t col df c in
  res.2 = Ok tt ∧ committed res.1 = committed c ∧
  working res.1 = set_dim t (intern (unique (dropna (col <$> df))) (dim t (working c)))
                    (working c).
Proof.
  unfold Installer.insert_names. case_decide as Hne.
  - pose proof (executemany_run (λ n d, Ok (insert_or_ignore t n d))
                  (unique (dropna (col <$> df))) c) as H.
    simpl in H. destruct H as [H1 H2].
    rewrite exec_all_insert_or_ignore in H2. injection H2 as H2 H3. done.
  - rewrite Hne. simpl. by rewrite set_dim_same.
Qed.

Lemma Installer_run_import (df : list row) (store : db) :
  run_import Installer.populate_replace df store =
  match installer_data df with
  | Raise e => (empty_db, Raise e)
  | Ok data =>
      match exec_all insert_or_replace_book data (installer_dims df) with
      | (d, Ok _) => (d, Ok tt)
      | (_, Raise e) => (empty_db, Raise e)
      end
  end.
Proof.
  unfold run_import, Installer.populate_replace.
  rewrite bind_run.
  change (Installer.create_schema true (connect store))
    with (Conn empty_db empty_db false, Ok tt).
  cbv beta iota. rewrite bind_run. unfold begin_transaction at 1. cbv beta iota.
  simpl committed. simpl working. unfold try_except.
  rewrite bind_run.
  pose proof (insert_names_run Brands brand df (Conn empty_db empty_db true)) as H.
  simpl in H. destruct (Installer.insert_names Brands brand df _) as [c1 r1].
  simpl in H. destruct H as (-> & Hc1 & Hw1). rewrite bind_run.
  pose proof (insert_names_run MachineTypes machine_type df c1) as H.
  simpl in H. destruct (Installer.insert_names MachineTypes machine_type df _) as [c2 r2].
  simpl in H. destruct H as (-> & Hc2 & Hw2). rewrite bind_run.
  pose proof (insert_names_run Models model df c2) as H.
  simpl in H. destruct (Installer.insert_names Models model df _) as [c3 r3].
  simpl in H. destruct H as (-> & Hc3 & Hw3). rewrite bind_run.
  pose proof (insert_names_run Languages language df c3) as H.
  simpl in H. destruct (Installer.insert_names Languages language df _) as [c4 r4].
  simpl in H. destruct H as (-> & Hc4 & Hw4).
  assert (working c4 = installer_dims df) as Hw.
  { rewrite Hw4, Hw3, Hw2, Hw1. reflexivity. }
  assert (committed c4 = empty_db) as Hc by congruence.
  rewrite !bind_run. unfold fetch at 1. cbv beta iota.
  rewrite !bind_run. unfold fetch at 1. cbv beta iota.
  rewrite !bind_run. unfold fetch at 1. cbv beta iota.
  rewrite !bind_run. unfold fetch at 1. cbv beta iota.
  rewrite !bind_run. unfold lift at 1. rewrite Hw. fold (installer_data df).
  destruct (installer_data df) as [data|e]; cbv beta iota;
    [|simpl; by rewrite Hc].
  rewrite bind_run.
  pose proof (executemany_run insert_or_replace_book data c4) as H.
  simpl in H. destruct H as [H1 H2].
  destruct (Installer.executemany insert_or_replace_book data c4) as [c5 r5].
  simpl in H1, H2. rewrite Hw in H2. rewrite <- H2.
  destruct r5 as [[]|e]; simpl; [done|]. by rewrite H1, Hc.
Qed.

Lemma NoDup_fmap_filter {A B} (f : A → B) (P : A → Prop) `{∀ x, Decision (P x)}
    (l : list A) :
  NoDup (f <$> l) → NoDup (f <$> filter P l).
Proof.
  induction l as [|a l IH]; [done|]. rewrite fmap_cons, NoDup_cons. intros [Ha Hnd].
  rewrite filter_cons. case_decide; [|by apply IH].
  rewrite fmap_cons, NoDup_cons. split; [|by apply IH].
  intros (y & Hy & [_ Hin]%list_elem_of_filter)%list_elem_of_fmap.
  apply Ha. rewrite Hy. by apply list_elem_of_fmap_2.
Qed.

Lemma insert_or_replace_book_Ok (p : book_params) (d d' : db) :
  insert_or_replace_book p d = Ok d' →
  bk_book_id <$> books d' =
    (bk_book_id <$> filter (λ b, bk_book_id b ≠ p_book_id p) (books d)) ++ [p_book_id p].
Proof.
  unfold insert_or_replace_book. case_decide; [|done]. destruct (p_title p); [|done].
  destruct (fks_ok p d); [|done]. intros [= <-]. simpl. by rewrite fmap_app.
Qed.

Lemma exec_all_replace (data : list book_params) (d d' : db) :
  exec_all insert_or_replace_book data d = (d', Ok tt) →
  NoDup (bk_book_id <$> books d) →
  NoDup (bk_book_id <$> books d') ∧
  (∀ n, n ∈ bk_book_id <$> books d → n ∈ bk_book_id <$> books d') ∧
  (∀ n, n ∈ p_book_id <$> data → n ∈ bk_book_id <$> books d').
Proof.
  revert d. induction data as [|p data IH]; intros d; simpl.
  - intros [= <-] Hnd. split_and!; [done|done|]. intros n []%elem_of_nil.
  - destruct (insert_or_replace_book p d) as [d1|e] eqn:Hp; [|done].
    apply insert_or_replace_book_Ok in Hp. intros Hrun Hnd.
    destruct (IH d1 Hrun) as (H1 & H2 & H3).
    { rewrite Hp. apply NoDup_app. split_and!.
      - by apply NoDup_fmap_filter.
      - intros x (b & -> & [Hb _]%list_elem_of_filter)%list_elem_of_fmap
          [E|[]%elem_of_nil]%elem_of_cons. done.
      - apply NoDup_singleton. }
    split_and!; [done| |].
    + intros n Hn. apply H2. rewrite Hp, elem_of_app.
      destruct (decide (n = p_book_id p)) as [->|Hne]; [right; left|left].
      apply list_elem_of_fmap in Hn as (b & -> & Hb).
      apply list_elem_of_fmap_2. by apply list_elem_of_filter.
    + intros n [->|Hn]%elem_of_cons; [|by apply H3].
      apply H2. rewrite Hp, elem_of_app. right. left.
Qed.

Lemma books_data_numbers (b mt m l : gmap string Z) (df : list row)
    (data : list book_params) :
  Installer.books_data b mt m l df = Ok data → p_book_id <$> data = numbers df.
Proof.
  revert data. induction df as [|r df IH]; intros data; simpl.
  - by intros [= <-].
  - unfold numbers. simpl. destruct (book_id r) as [n| |]; simpl; [|done..].
    destruct (Installer.books_data b mt m l df) as [rest|e]; [|done].
    intros [= <-]. simpl. f_equal. by apply IH.
Qed.

(** ** C4: one book per catalog number *)

Lemma copies_one (n : Z) (d : db) :
  NoDup (bk_book_id <$> books d) → n ∈ bk_book_id <$> books d → copies n d = 1%nat.
Proof.
  intros Hnd (b & -> & Hb)%list_elem_of_fmap. unfold copies.
  destruct (filter_key_NoDup bk_book_id (bk_book_id b) (books d) Hnd) as [E|[x E]].
  - exfalso. assert (b ∈ filter (λ b', bk_book_id b' = bk_book_id b) (books d)) as H
      by (by apply list_elem_of_filter).
    rewrite E in H. by apply elem_of_nil in H.
  - by rewrite E.
Qed.

Lemma numbers_lookup_inj (rs : list row) (i j : nat) (r r0 : row) (n : Z) :
  NoDup (numbers rs) → rs !! i = Some r → rs !! j = Some r0 →
  book_id r = Numeric n → book_id r0 = Numeric n → i = j.
Proof.
  revert i j. induction rs as [|a rs IH]; intros i j Hnd Hi Hj Hn Hn0; [done|].
  assert (∀ k r', rs !! k = Some r' → book_id r' = Numeric n → book_id a = Numeric n →
                  False) as Hno.
  { intros k r' Hk Hr' Ha. unfold numbers in Hnd. simpl in Hnd. rewrite Ha in Hnd.
    simpl in Hnd. apply NoDup_cons in Hnd as [Hnd _]. apply Hnd.
    apply (elem_of_numbers rs r'); [|done]. by apply list_elem_of_lookup_2 in Hk. }
  destruct i as [|i], j as [|j]; simpl in Hi, Hj; [done|..].
  - injection Hi as ->. by destruct (Hno j r0).
  - injection Hj as ->. by destruct (Hno i r).
  - f_equal. apply IH; [|done..]. unfold numbers in Hnd. simpl in Hnd.
    destruct (book_id a); simpl in Hnd; [|done..]. by apply NoDup_cons in Hnd as [_ ?].
Qed.

Lemma twice_not_NoDup (n : Z) (xl : list raw_row) :
  twice n xl → ¬ NoDup (numbers (load_excel_to_df xl)).
Proof.
  intros (i & j & x & y & Hij & Hi & Hj & Hx & Hy) Hnd. apply Hij.
  apply (numbers_lookup_inj (load_excel_to_df xl) i j (clean_row x) (clean_row y) n);
    [done| | |done..].
  - unfold load_excel_to_df. by rewrite list_lookup_fmap, Hi.
  - unfold load_excel_to_df. by rewrite list_lookup_fmap, Hj.
Qed.

Lemma twice_elem (n : Z) (xl : list raw_row) :
  twice n xl → n ∈ numbers (load_excel_to_df xl).
Proof.
  intros (i & j & x & y & Hij & Hi & Hj & Hx & Hy).
  apply (elem_of_numbers _ (clean_row x)); [|done].
  apply list_elem_of_fmap_2. by apply list_elem_of_lookup_2 in Hi.
Qed.

Lemma numbers_fmap (f : raw_row → row) (xl : list raw_row) :
  (∀ x, book_id (f x) = x_book_id x) →
  numbers (f <$> xl) = numbers (load_excel_to_df xl).
Proof.
  intros Hf. induction xl as [|x xl IH]; [done|].
  unfold numbers, load_excel_to_df in *. rewrite !fmap_cons. simpl.
  rewrite Hf. destruct (x_book_id x); [f_equal|..]; exact IH.
Qed.

Lemma App_books_unique (xl : list raw_row) (store : db) (n : Z) :
  let a := App.update_archive xl store in
  NoDup (bk_book_id <$> books a.1) ∧
  (twice n xl → (∃ e, a.2 = Raise e) ∧ books a.1 = []).
Proof.
  simpl. unfold App.update_archive. rewrite App_run_import.
  destruct (put_books no_skip (load_excel_to_df xl) _) as [d [[]|e]] eqn:Hput; simpl.
  - destruct (put_books_read_back no_skip _ _ Hput) as (_ & _ & _ & Hnd & _).
    destruct (put_books_Ok_numbers no_skip _ _ _ Hput) as [E _]. simpl in E.
    split; [done|].
    intros Htw. exfalso. apply (twice_not_NoDup n xl Htw). by rewrite <- E.
  - split; [constructor|]. intros _. split; [by exists e|done].
Qed.

Lemma Installer_books_unique (xl : list raw_row) (store : db) (db_path : string)
    (k : Installer.cache) (n : Z) :
  let b := Installer.action_rebuild_from_excel xl db_path store k in
  NoDup (bk_book_id <$> books b.1.1) ∧
  (twice n xl →
   match b.2 with
   | Raise _ => books b.1.1 = []
   | Ok _ => copies n b.1.1 = 1%nat
   end).
Proof.
  simpl. unfold Installer.action_rebuild_from_excel. rewrite Installer_run_import.
  destruct (installer_data _) as [data|e] eqn:Hdata; simpl;
    [|split; [constructor|done]].
  destruct (exec_all insert_or_replace_book data _) as [d [[]|e]] eqn:Hexec; simpl;
    [|split; [constructor|done]].
  destruct (exec_all_replace _ _ _ Hexec) as (Hnd & _ & Hin); [constructor|].
  destruct (Installer.load_db_to_df db_path d k) as [df k']. simpl.
  split; [done|]. intros Htw. apply copies_one; [done|]. apply Hin.
  unfold installer_data in Hdata. rewrite (books_data_numbers _ _ _ _ _ _ Hdata).
  unfold Installer.load_excel_to_df. rewrite numbers_fmap by done.
  by apply twice_elem.
Qed.

(** C4. Whatever the sheet and the prior store, after an import no two book
    rows of the store share a catalog number, in [app_one_tab_pro.py]
    (plain INSERT) as in [build_installer.py] (INSERT OR REPLACE).  When two
    rows of the sheet carry the same catalog number, the import of
    [app_one_tab_pro.py] raises and leaves no book row at all, and the
    import of [build_installer.py] either raises and leaves no book row or
    ends with exactly one book row of that number. *)
Theorem C4_book_id_unique (xl : list raw_row) (store : db) (db_path : string)
    (k : Installer.cache) (n : Z) :
  let a := App.update_archive xl store in
  let b := Installer.action_rebuild_from_excel xl db_path store k in
  NoDup (bk_book_id <$> books a.1) ∧
  NoDup (bk_book_id <$> books b.1.1) ∧
  (twice n xl →
   ((∃ e, a.2 = Raise e) ∧ books a.1 = []) ∧
   match b.2 with
   | Raise _ => books b.1.1 = []
   | Ok _ => copies n b.1.1 = 1%nat
   end).
Proof.
  intros a b.
  destruct (App_books_unique xl store n) as [Ha1 Ha2].
  destruct (Installer_books_unique xl store db_path k n) as [Hb1 Hb2].
  split_and!; [done|done|]. intros Htw. split; [by apply Ha2|by apply Hb2].
Qed.

Lemma C4_book_id_unique_witness :
  twice 7 sheet_twice ∧
  let a := App.update_archive sheet_twice empty_db in
  let b := Installer.action_rebuild_from_excel sheet_twice "books_archive.db" empty_db [] in
  NoDup (bk_book_id <$> books a.1) ∧
  NoDup (bk_book_id <$> books b.1.1) ∧
  ((∃ e, a.2 = Raise e) ∧ books a.1 = []) ∧
  match b.2 with
  | Raise _ => books b.1.1 = []
  | Ok _ => copies 7 b.1.1 = 1%nat
  end.
Proof.
  assert (twice 7 sheet_twice) as Htw.
  { exists 0%nat, 1%nat. do 2 eexists. split_and!; [lia|reflexivity..]. }
  destruct (C4_book_id_unique sheet_twice empty_db "books_archive.db" [] 7)
    as (H1 & H2 & H3).
  split; [exact Htw|]. split; [exact H1|]. split; [exact H2|]. exact (H3 Htw).
Defined.

(** ** C1: a failed import *)

Example store_two_imported : (App.update_archive sheet_two empty_db).1 = store_two.
Proof. by vm_compute. Qed.

(** C1, as stated, fails.  In [app_one_tab_pro.py] the import of a sheet
    with a non-numeric catalog number, or with a repeated one, raises after
    the tables were dropped and the dimension rows committed: the store is
    neither its prior state nor the new sheet, it holds dimension rows and
    no book. *)
Lemma C1_counterexample :
  App.update_archive sheet_bad store_two
  = (Db [DimRow 1 "Acme"; DimRow 2 "Bolt"] [] [] [DimRow 1 "Unknown"] [] [],
     Raise ValueError) ∧
  App.update_archive sheet_twice store_two
  = (Db [DimRow 1 "ABC"; DimRow 2 "XYZ"] [] []
        [DimRow 1 "English"; DimRow 2 "Unknown"] [] [],
     Raise IntegrityError) ∧
  (App.update_archive sheet_bad store_two).1 ≠ store_two ∧
  (App.update_archive sheet_twice store_two).1 ≠ store_two.
Proof. by vm_compute. Qed.

(** In [build_installer.py] the [rollback] of the handler goes back to the
    schema as [create_schema(conn, drop=True)] committed it. *)
Lemma Installer_failed_import (xl : list raw_row) (db_path : string) (store : db)
    (k : Installer.cache) :
  let b := Installer.action_rebuild_from_excel xl db_path store k in
  match b.2 with
  | Raise _ => b.1.1 = empty_db
  | Ok df => df = (Installer.load_db_to_df db_path b.1.1 k).1
  end.
Proof.
  simpl. unfold Installer.action_rebuild_from_excel. rewrite Installer_run_import.
  destruct (installer_data _) as [data|e]; simpl; [|reflexivity].
  destruct (exec_all insert_or_replace_book data _) as [d [[]|e]]; simpl;
    [|reflexivity].
  destruct (Installer.load_db_to_df db_path d k) as [df k'] eqn:E. simpl.
  by rewrite E.
Qed.

Example Installer_failed_import_ex :
  Installer.action_rebuild_from_excel sheet_bad "books_archive.db" store_two []
  = (empty_db, [], Raise ValueError).
Proof. by vm_compute. Qed.

(** C1, amended.  In [app_one_tab_pro.py] an import that raises leaves,
    whatever the prior store, the rebuilt schema with no book, no [meta]
    row and, in each dimension table, the sorted distinct values of the
    cleaned column; an import that does not raise leaves a store that reads
    back as the entire sheet. *)
Theorem C1_import_outcome (xl : list raw_row) (store : db) :
  let a := App.update_archive xl store in
  meta a.1 = [] ∧
  (∀ t, dim_name <$> dim t a.1
        = sorted (unique (dropna (column t <$> load_excel_to_df xl)))) ∧
  match a.2 with
  | Raise _ => books a.1 = []
  | Ok df =>
      df = App.load_db_to_df a.1 ∧
      Some <$> df ≡ₚ read_back <$> load_excel_to_df xl
  end.
Proof.
  simpl. unfold App.update_archive. rewrite App_run_import.
  assert (∀ t, dim_name <$> dim t (dims_db no_skip (load_excel_to_df xl))
               = sorted (unique (dropna (column t <$> load_excel_to_df xl)))) as Hnames.
  { intros t. rewrite dims_db_names. unfold dim_names. rewrite filter_no_skip.
    by destruct t. }
  destruct (put_books no_skip (load_excel_to_df xl) _) as [d [[]|e]] eqn:Hput; simpl.
  - destruct (put_books_read_back no_skip _ _ Hput) as (Hd & Hmeta & _ & _ & Hrb).
    split_and!; [done| |done|].
    + intros t. by rewrite Hd.
    + assert (pk_unique d) as Hpk by (intros t; rewrite Hd; apply dims_db_pk).
      destruct (read_names d Hpk) as [Hperm _].
      unfold App.load_db_to_df. rewrite Hperm, Hrb.
      rewrite (list_fmap_ext (read_back_with no_skip) read_back); [done|].
      intros i r _. apply read_back_no_skip.
  - done.
Qed.

(** ** C2: the filter block *)

Lemma select_eq_pass (col : drow → option string) (sel : string) (l : list drow) :
  (if decide (sel ≠ ALL) then select_eq col sel l else l)
  = filter (λ r, dim_pass sel (col r)) l.
Proof.
  unfold select_eq, dim_pass. case_decide as H.
  - apply list_filter_iff. naive_solver.
  - induction l as [|a l IH]; [done|].
    rewrite filter_cons_True by done. by rewrite <- IH.
Qed.

Lemma select_eq_pass_current (col : drow → option string) (sel : string)
    (l : list drow) :
  (if decide (sel ≠ "" ∧ sel ≠ ALL) then select_eq col sel l else l)
  = filter (λ r, dim_pass (current sel) (col r)) l.
Proof.
  rewrite <- select_eq_pass. unfold current.
  destruct (decide (sel = "")) as [->|Hne].
  - by rewrite decide_False by tauto.
  - destruct (decide (sel ≠ ALL)).
    + by rewrite decide_True.
    + rewrite decide_False; [done|]. tauto.
Qed.

Lemma four_filters (fb ft fm fl : string) (l : list drow) :
  filter (λ r, dim_pass fl (c_language r))
    (filter (λ r, dim_pass fm (c_model r))
       (filter (λ r, dim_pass ft (c_type r))
          (filter (λ r, dim_pass fb (c_brand r)) l)))
  = filter (dims_pass fb ft fm fl) l.
Proof.
  rewrite !list_filter_filter. apply list_filter_iff. unfold dims_pass. tauto.
Qed.

Lemma App_filter_block_spec (dfb : list drow) (fb ft fm fl q : string) :
  App.filter_block dfb fb ft fm fl q = spec_filter dfb fb ft fm fl q.
Proof.
  unfold App.filter_block, spec_filter.
  rewrite !select_eq_pass, four_filters.
  destruct (decide (q = "")) as [->|Hq].
  - done.
  - rewrite decide_True by done. unfold select_contains.
    destruct (re_compile q) as [[re|e]|]; [|done..].
    rewrite list_filter_filter. do 2 f_equal. apply list_filter_iff. tauto.
Qed.

Lemma Kaveh_apply_filters_spec (dfb : list drow) (fb ft fm fl search : string) :
  Kaveh.apply_filters dfb fb ft fm fl search
  = if decide (dfb = []) then Some (Ok [])
    else spec_filter dfb (current fb) (current ft) (current fm) (current fl)
           (strip search).
Proof.
  unfold Kaveh.apply_filters, spec_filter.
  destruct (decide (dfb = [])) as [->|Hne].
  - done.
  - rewrite decide_True by done.
    rewrite !select_eq_pass_current. rewrite four_filters.
    destruct (decide (strip search = "")) as [->|Hq].
    + done.
    + rewrite decide_True by done. unfold select_contains.
      destruct (re_compile (strip search)) as [[re|e]|]; [|done..].
      rewrite list_filter_filter. do 2 f_equal. apply list_filter_iff. tauto.
Qed.


Example rows_two_read : App.load_db_to_df store_two = rows_two.
Proof. by vm_compute. Qed.


(** The concrete scenario of the specification. *)
Example scenario_filters :
  App.filter_block rows_two "ABC" ALL ALL ALL ""
  = Some (Ok [DRow 1 "Engine Manual" (Some "ABC") None None (Some "Unknown") None None]) ∧
  App.filter_block rows_two ALL ALL ALL ALL "guide"
  = Some (Ok [DRow 2 "Pump Guide" (Some "XYZ") None None (Some "English") None None]) ∧
  App.filter_block rows_two "XYZ" ALL ALL ALL "engine" = Some (Ok []).
Proof. by vm_compute. Qed.

(** ** C3: the query is a regular expression *)

(** C3 fails on the code: the three applications pass the query to
    [str.contains] as a regular expression.  The query "." keeps both
    titles although neither contains a full stop, and the query "(" raises
    [re.error]. *)
Lemma C3_query_is_a_pattern :
  filter (λ r, contains_ci "." (c_title r) = true) rows_two = [] ∧
  App.filter_block rows_two ALL ALL ALL ALL "." = Some (Ok rows_two) ∧
  Kaveh.apply_filters rows_two ALL ALL ALL ALL "." = Some (Ok rows_two) ∧
  Installer._apply_filters_async rows_two ALL ALL ALL ALL "." = Some (Ok rows_two) ∧
  App.filter_block rows_two ALL ALL ALL ALL "(" = Some (Raise ReError) ∧
  Kaveh.apply_filters rows_two ALL ALL ALL ALL "(" = Some (Raise ReError) ∧
  Installer._apply_filters_async rows_two ALL ALL ALL ALL "(" = Some (Raise ReError).
Proof. by vm_compute. Qed.

(** ** Queries without special characters *)

Lemma parse_plain (q : string) (al : option regex) (its : list item) :
  plain q = true →
  parse (Frame al its) [] q = Pattern (frame_regex (Frame al (push_all q its))).
Proof.
  revert its. induction q as [|a q IH]; intros its; simpl; [done|].
  intros [Ha Hq]%andb_true_iff. apply negb_true_iff in Ha.
  unfold is_meta in Ha. apply bool_decide_eq_false in Ha.
  rewrite !decide_False by tauto. unfold push. simpl. by apply IH.
Qed.

Lemma foldl_push_all (q : string) (acc : regex) (its : list item) :
  foldl (λ acc it, Cat (fst it) acc) acc (push_all q its)
  = foldl (λ acc it, Cat (fst it) acc) (literal q acc) its.
Proof.
  revert acc its. induction q as [|a q IH]; intros acc its; simpl; [done|].
  by rewrite IH.
Qed.

Lemma re_compile_plain (q : string) :
  plain q = true → re_compile q = Some (Ok (literal q Eps)).
Proof.
  intros Hq. unfold re_compile. rewrite parse_plain by done.
  unfold frame_regex, seq_regex. simpl. by rewrite foldl_push_all.
Qed.

Lemma re_match_Cat_Void (r : regex) (s : string) : re_match (Cat Void r) s = false.
Proof. induction s as [|c s IH]; simpl; [done|exact IH]. Qed.

Lemma re_match_Alt (r1 r2 : regex) (s : string) :
  re_match (Alt r1 r2) s = re_match r1 s || re_match r2 s.
Proof.
  revert r1 r2. induction s as [|c s IH]; intros r1 r2; simpl.
  - by rewrite !orb_false_r.
  - rewrite IH. destruct (nullable r1), (nullable r2); simpl; try done.
    by rewrite orb_true_r.
Qed.

Lemma re_match_Cat_Eps (r : regex) (s : string) : re_match (Cat Eps r) s = re_match r s.
Proof.
  destruct s as [|c s]; simpl; [done|].
  by rewrite re_match_Alt, re_match_Cat_Void.
Qed.

Lemma re_match_literal (q s : string) : re_match (literal q Eps) s = prefix_ci q s.
Proof.
  revert s. induction q as [|a q IH]; intros s; simpl literal.
  - by destruct s.
  - destruct s as [|b s]; simpl; [done|].
    case_decide as Hab.
    + rewrite re_match_Cat_Eps, IH. by rewrite bool_decide_eq_true_2.
    + rewrite re_match_Cat_Void. by rewrite bool_decide_eq_false_2.
Qed.

Lemma re_search_literal (q s : string) : re_search (literal q Eps) s = contains_ci q s.
Proof.
  induction s as [|b s IH].
  - change (re_search (literal q Eps) "")
      with (re_match (literal q Eps) "" || false).
    by rewrite re_match_literal.
  - change (re_search (literal q Eps) (String b s))
      with (re_match (literal q Eps) (String b s) || re_search (literal q Eps) s).
    by rewrite re_match_literal, IH.
Qed.

(** A query without special characters is a literal substring test,
    letters compared without case. *)
Lemma plain_query_is_substring (dfb : list drow) (q : string) :
  plain q = true → q ≠ "" →
  App.filter_block dfb ALL ALL ALL ALL q
  = Some (Ok (filter (λ r, contains_ci q (c_title r) = true) dfb)).
Proof.
  intros Hq Hne. rewrite App_filter_block_spec. unfold spec_filter.
  rewrite decide_False by done. rewrite re_compile_plain by done.
  do 2 f_equal. apply list_filter_iff. intros r.
  rewrite re_search_literal. unfold dims_pass, dim_pass. tauto.
Qed.

(** ** C8: a query of spaces *)

Lemma lstrip_whitespace_only (s : string) : whitespace_only s = true → lstrip s = "".
Proof.
  induction s as [|a s IH]; simpl; [done|].
  intros [Ha Hs]%andb_true_iff. rewrite Ha. by apply IH.
Qed.

Lemma strip_whitespace_only (s : string) : whitespace_only s = true → strip s = "".
Proof. intros H. unfold strip. by rewrite lstrip_whitespace_only. Qed.

(** C8 fails on [app_one_tab_pro.py]: the query is not trimmed, so a query
    of one space keeps the titles that contain a space and drops the
    others. *)
Lemma C8_space_query_filters :
  App.filter_block rows_three ALL ALL ALL ALL "" = Some (Ok rows_three) ∧
  App.filter_block rows_three ALL ALL ALL ALL " " = Some (Ok rows_two) ∧
  rows_two ≠ rows_three.
Proof. by vm_compute. Qed.

(** [kaveh_books1.py] and [build_installer.py] trim the search text: there
    a blank query is no query. *)
Lemma trimmed_blank_query (dfb : list drow) (fb ft fm fl q : string) :
  whitespace_only q = true →
  Kaveh.apply_filters dfb fb ft fm fl q = Kaveh.apply_filters dfb fb ft fm fl "" ∧
  Installer._apply_filters_async dfb fb ft fm fl q
  = Installer._apply_filters_async dfb fb ft fm fl "".
Proof.
  intros Hq. unfold Kaveh.apply_filters, Installer._apply_filters_async.
  by rewrite (strip_whitespace_only q Hq).
Qed.

(** ** C6 and C7: the names of the dimension tables *)

Section dimension_names.
Variable get_id : table → option string → M (option Z).
Variable skip : string → bool.
Hypothesis get_id_Some : ∀ t n c,
  get_id t (Some n) c = if skip n then (c, Ok None) else get_or_create t n c.

Lemma run_import_dims (df : list row) (store : db) (t : table) :
  dim t (run_import (populate_replace_with get_id) df store).1
  = dim t (dims_db skip df).
Proof.
  rewrite (run_import_eq get_id skip get_id_Some).
  destruct (put_books skip df (dims_db skip df)) as [d [[]|e]] eqn:Hput; [|done].
  destruct (put_books_Ok skip _ _ _ Hput) as (bs & -> & _). simpl.
  apply dim_set_books.
Qed.

(** Every name of a dimension table after an import is a value of the
    cleaned column that [get_id] does not skip, and no name is repeated. *)
Lemma run_import_names (df : list row) (store : db) (t : table) :
  NoDup (dim_name <$> dim t (run_import (populate_replace_with get_id) df store).1) ∧
  ∀ n, n ∈ dim_name <$> dim t (run_import (populate_replace_with get_id) df store).1 ↔
       skip n = false ∧ ∃ r, r ∈ df ∧ column t r = Some n.
Proof.
  rewrite run_import_dims, dims_db_names. split.
  - apply NoDup_dim_names.
  - intros n. rewrite elem_of_dim_names. by destruct t.
Qed.
End dimension_names.

Lemma lstrip_head (s : string) :
  lstrip s = "" ∨ ∃ a t, lstrip s = String a t ∧ is_space a = false.
Proof.
  induction s as [|a s IH]; simpl; [by left|].
  destruct (is_space a) eqn:Ha; [done|]. right. by exists a, s.
Qed.

Lemma rstrip_head (a : ascii) (t : string) :
  is_space a = false → ∃ t', rstrip (String a t) = String a t'.
Proof.
  intros Ha. simpl. destruct (rstrip t); rewrite ?Ha; by eexists.
Qed.

(** A trimmed text is empty or is not blank. *)
Lemma strip_not_blank (s : string) : strip s ≠ "" → whitespace_only (strip s) = false.
Proof.
  unfold strip. destruct (lstrip_head s) as [->|(a & t & -> & Ha)]; [done|].
  destruct (rstrip_head a t Ha) as [t' ->]. intros _. simpl. by rewrite Ha.
Qed.

Lemma clean_not_nan (c : cell) (n : string) : clean c = Some n → n ≠ "nan".
Proof.
  unfold clean, replace_nan. case_decide; [done|]. by intros [= <-].
Qed.

Lemma clean_stripped (c : cell) (n : string) : clean c = Some n → n = strip (astype_str c).
Proof.
  unfold clean, replace_nan. case_decide; [done|]. by intros [= <-].
Qed.

(** A value of a cleaned text column is never the text "nan", and it is
    empty or not blank. *)
Lemma column_clean (t : table) (x : raw_row) (n : string) :
  column t (clean_row x) = Some n →
  n ≠ "nan" ∧ (n ≠ "" → whitespace_only n = false).
Proof.
  assert (∀ c, clean c = Some n → n ≠ "nan" ∧ (n ≠ "" → whitespace_only n = false)) as H.
  { intros c Hc. split; [by apply (clean_not_nan c)|].
    apply clean_stripped in Hc as ->. apply strip_not_blank. }
  destruct t; simpl; try apply H.
  destruct (clean (x_language x)) as [s|] eqn:Hc; simpl.
  - intros [= <-]. by apply (H (x_language x)).
  - intros [= <-]. by vm_compute.
Qed.

(** C6 fails on [app_one_tab_pro.py]: a brand cell of spaces is trimmed to
    the empty string, [get_id] only tests [name is None], and the import
    creates a brand whose name is empty and points the book to it.  (The
    [get_id] of [kaveh_books1.py] tests [not name]: no brand is created and
    the key of the book is null.) *)
Lemma C6_blank_name_interned :
  brands (App.update_archive sheet_blank empty_db).1 = [DimRow 1 ""] ∧
  bk_brand_id <$> books (App.update_archive sheet_blank empty_db).1 = [Some 1] ∧
  (App.update_archive sheet_blank empty_db).2
  = Ok [DRow 1 "Engine Manual" (Some "") None None (Some "Unknown") None None] ∧
  brands (Kaveh.action_rebuild_from_excel sheet_blank empty_db).1 = [] ∧
  bk_brand_id <$> books (Kaveh.action_rebuild_from_excel sheet_blank empty_db).1
  = [None].
Proof. by vm_compute. Qed.

(** In [kaveh_books1.py] no dimension table ever holds a repeated name or a
    blank name, and the book of a row with a blank cell has a null key. *)
Lemma Kaveh_dimensions_not_blank (xl : list raw_row) (store : db) (t : table) :
  let store' := (Kaveh.action_rebuild_from_excel xl store).1 in
  NoDup (dim_name <$> dim t store') ∧
  (∀ n, n ∈ dim_name <$> dim t store' → whitespace_only n = false) ∧
  (∀ v, whitespace_only v = true → resolve skip_empty t store' (clean (Text v)) = None).
Proof.
  simpl.
  rewrite Kaveh_action_rebuild_store.
  destruct (run_import_names Kaveh.get_id skip_empty Kaveh_get_id_Some
              (load_excel_to_df xl) store t) as [Hnd Hin].
  split_and!; [exact Hnd| |].
  - intros n [Hs (r & (x & -> & Hx)%list_elem_of_fmap & Hcol)]%Hin.
    apply column_clean in Hcol as [_ Hcol]. apply Hcol.
    unfold skip_empty in Hs. by apply bool_decide_eq_false in Hs.
  - intros v Hv. unfold clean. simpl. rewrite (strip_whitespace_only v Hv). done.
Qed.

(** In [app_one_tab_pro.py] no dimension table holds a repeated name. *)
Lemma App_dimensions_unique (xl : list raw_row) (store : db) (t : table) :
  NoDup (dim_name <$> dim t (App.update_archive xl store).1).
Proof.
  rewrite App_update_archive_store.
  apply (run_import_names App.get_id no_skip App_get_id_Some).
Qed.

(** C7, as stated, fails on [build_installer.py]: its [load_excel_to_df]
    has no [replace({'nan': pd.NA})], so a cell whose text is "nan" once
    trimmed becomes a brand named "nan" that the book points to. *)
Lemma C7_counterexample :
  strip (astype_str (x_brand (RawRow (Numeric 1) (Text " nan ") NaN NaN
                                (Text "Engine Manual") NaN NaN NaN))) = "nan" ∧
  brands (Installer.action_rebuild_from_excel sheet_nan "books_archive.db" empty_db []).1.1
  = [DimRow 1 "nan"] ∧
  bk_brand_id <$>
    books (Installer.action_rebuild_from_excel sheet_nan "books_archive.db" empty_db []).1.1
  = [Some 1] ∧
  (Installer.action_rebuild_from_excel sheet_nan "books_archive.db" empty_db []).2
  = Ok [DRow 1 "Engine Manual" (Some "nan") (Some "") (Some "") (Some "Unknown")
          (Some "") (Some "")].
Proof. by vm_compute. Qed.

Lemma import_no_nan (get_id : table → option string → M (option Z))
    (skip : string → bool) (xl : list raw_row) (store : db) (t : table) (r : dim_row) :
  (∀ t n c, get_id t (Some n) c = if skip n then (c, Ok None) else get_or_create t n c) →
  r ∈ dim t (run_import (populate_replace_with get_id) (load_excel_to_df xl) store).1 →
  dim_name r ≠ "nan".
Proof.
  intros Hget Hr. apply (list_elem_of_fmap_2 dim_name) in Hr.
  apply (run_import_names get_id skip Hget) in Hr
    as [_ (r' & (x & -> & Hx)%list_elem_of_fmap & Hcol)].
  by apply column_clean in Hcol as [? _].
Qed.

(** C7, amended.  In [app_one_tab_pro.py] and [kaveh_books1.py] a cell of a
    text column whose stringified, trimmed value is "nan" is cleaned to
    null (to "Unknown" in the language column), and after an import no row
    of a dimension table is named "nan", so no book points to one.  In
    [build_installer.py] a blank cell stays null without passing through
    the text "nan", and a cell whose own text is "nan" once trimmed keeps
    that text. *)
Theorem C7_nan_is_absent (xl : list raw_row) (store : db) (t : table) (c : cell) :
  (strip (astype_str c) = "nan" →
   clean c = None ∧ fillna "Unknown" (clean c) = Some "Unknown") ∧
  (∀ r, r ∈ dim t (App.update_archive xl store).1 → dim_name r ≠ "nan") ∧
  (∀ r, r ∈ dim t (Kaveh.action_rebuild_from_excel xl store).1 → dim_name r ≠ "nan") ∧
  Installer.clean NaN = None ∧
  (∀ s, strip s = "nan" → Installer.clean (Text s) = Some "nan").
Proof.
  split_and!.
  - intros H. unfold clean. rewrite H. done.
  - intros r.
    rewrite App_update_archive_store.
    apply (import_no_nan App.get_id no_skip), App_get_id_Some.
  - intros r.
    rewrite Kaveh_action_rebuild_store.
    apply (import_no_nan Kaveh.get_id skip_empty), Kaveh_get_id_Some.
  - done.
  - intros s H. unfold Installer.clean. simpl. by rewrite H.
Qed.

Lemma C7_nan_is_absent_witness :
  strip (astype_str NaN) = "nan" ∧
  (clean NaN = None ∧ fillna "Unknown" (clean NaN) = Some "Unknown") ∧
  (∀ r, r ∈ dim Brands (App.update_archive sheet_nan empty_db).1 → dim_name r ≠ "nan") ∧
  (∀ r, r ∈ dim Brands (Kaveh.action_rebuild_from_excel sheet_nan empty_db).1 →
        dim_name r ≠ "nan") ∧
  Installer.clean NaN = None ∧
  (strip " nan " = "nan" → Installer.clean (Text " nan ") = Some "nan").
Proof.
  destruct (C7_nan_is_absent sheet_nan empty_db Brands NaN) as (H1 & H2 & H3 & H4 & H5).
  split; [reflexivity|]. split; [apply H1; reflexivity|].
  split; [exact H2|]. split; [exact H3|]. split; [exact H4|]. exact (H5 " nan ").
Defined.

(** ** C9: the read query *)

(** C9, as stated, fails on [build_installer.py]: its query wraps the names
    in [COALESCE(..., '')]; the two books of [store_two] have a null model
    key and are read back with the empty string as model. *)
Lemma C9_counterexample :
  bk_model_id <$> books store_two = [None; None] ∧
  c_model <$> Installer.read_query store_two = [Some ""; Some ""] ∧
  c_model <$> (Installer.load_db_to_df "books_archive.db" store_two []).1
  = [Some ""; Some ""] ∧
  c_model <$> App.load_db_to_df store_two = [None; None].
Proof. by vm_compute. Qed.

Lemma Permutation_length_eq {A} (l k : list A) : l ≡ₚ k → length l = length k.
Proof. apply Permutation_length. Qed.

(** C9, amended.  On a store that satisfies the primary keys of its
    dimension tables, the read query of [app_one_tab_pro.py] and
    [kaveh_books1.py] returns one row per book, each with the names its
    four keys stand for and null for a null key, in ascending order of the
    catalog number.  The query of [build_installer.py] returns the same rows
    with the empty string in place of every null, and its [load_db_to_df]
    runs the query when the path is not in its cache. *)
Theorem C9_read_query (store : db) (db_path : string) (k : Installer.cache) :
  pk_unique store →
  (App.load_db_to_df store ≡ₚ denormalized store <$> books store ∧
   length (App.load_db_to_df store) = length (books store) ∧
   Sorted Z.le (c_number <$> App.load_db_to_df store)) ∧
  Kaveh.load_db_to_df store = App.load_db_to_df store ∧
  (Installer.read_query store ≡ₚ denormalized_coalesce store <$> books store ∧
   length (Installer.read_query store) = length (books store) ∧
   Sorted Z.le (c_number <$> Installer.read_query store)) ∧
  (Installer.cache_get db_path k = None →
   (Installer.load_db_to_df db_path store k).1 = Installer.read_query store) ∧
  (∀ b,
     (bk_brand_id b = None →
      c_brand (denormalized store b) = None ∧
      c_brand (denormalized_coalesce store b) = Some "") ∧
     (bk_model_id b = None →
      c_model (denormalized store b) = None ∧
      c_model (denormalized_coalesce store b) = Some "") ∧
     (bk_machine_type_id b = None →
      c_type (denormalized store b) = None ∧
      c_type (denormalized_coalesce store b) = Some "") ∧
     (bk_language_id b = None →
      c_language (denormalized store b) = None ∧
      c_language (denormalized_coalesce store b) = Some "")).
Proof.
  intros Hpk.
  destruct (read_names store Hpk) as [Hp1 Hs1].
  destruct (read_coalesce store Hpk) as [Hp2 Hs2].
  split_and!; [done| |done|done|done| |done| |].
  - apply Permutation_length_eq in Hp1. rewrite !length_fmap in Hp1.
    unfold App.load_db_to_df. by rewrite length_fmap.
  - apply Permutation_length_eq in Hp2. rewrite !length_fmap in Hp2.
    unfold Installer.read_query. by rewrite length_fmap.
  - intros Hk. unfold Installer.load_db_to_df. by rewrite Hk.
  - intros b. simpl. split_and!; by intros ->.
Qed.

Lemma store_two_pk : pk_unique store_two.
Proof. intros []; vm_compute; repeat constructor; set_solver. Defined.

Lemma C9_read_query_witness :
  pk_unique store_two ∧
  (App.load_db_to_df store_two ≡ₚ denormalized store_two <$> books store_two ∧
   length (App.load_db_to_df store_two) = length (books store_two) ∧
   Sorted Z.le (c_number <$> App.load_db_to_df store_two)) ∧
  Kaveh.load_db_to_df store_two = App.load_db_to_df store_two ∧
  (Installer.read_query store_two ≡ₚ denormalized_coalesce store_two <$> books store_two ∧
   length (Installer.read_query store_two) = length (books store_two) ∧
   Sorted Z.le (c_number <$> Installer.read_query store_two)) ∧
  (Installer.load_db_to_df "books_archive.db" store_two []).1
  = Installer.read_query store_two.
Proof.
  destruct (C9_read_query store_two "books_archive.db" [] store_two_pk)
    as (H1 & H2 & H3 & H4 & _).
  split; [exact store_two_pk|]. split; [exact H1|]. split; [exact H2|].
  split; [exact H3|]. apply H4. reflexivity.
Defined.

(** * Further properties *)

(** ** The import does not read the prior store *)

Lemma Kaveh_run_import (df : list row) (store : db) :
  run_import Kaveh.populate_replace df store =
  match put_books skip_empty df (dims_db skip_empty df) with
  | (d, Ok _) => (d, Ok tt)
  | (_, Raise e) => (dims_db skip_empty df, Raise e)
  end.
Proof. apply run_import_eq, Kaveh_get_id_Some. Qed.

(** X1. An import is a full rebuild: its outcome, store and frame, is the
    same from any two prior stores, in the three applications; with
    [app_one_tab_pro.py], importing a sheet again over its own result gives
    the same outcome. *)
Theorem import_ignores_prior_store (xl : list raw_row) (s1 s2 : db)
    (db_path : string) (k : Installer.cache) :
  App.update_archive xl s1 = App.update_archive xl s2 ∧
  Kaveh.action_rebuild_from_excel xl s1 = Kaveh.action_rebuild_from_excel xl s2 ∧
  Installer.action_rebuild_from_excel xl db_path s1 k
  = Installer.action_rebuild_from_excel xl db_path s2 k ∧
  App.update_archive xl (App.update_archive xl s1).1 = App.update_archive xl s1.
Proof.
  assert (∀ s s', App.update_archive xl s = App.update_archive xl s') as HA.
  { intros s s'. unfold App.update_archive. by rewrite !App_run_import. }
  split_and!; [apply HA| | |apply HA].
  - unfold Kaveh.action_rebuild_from_excel. by rewrite !Kaveh_run_import.
  - unfold Installer.action_rebuild_from_excel. by rewrite !Installer_run_import.
Qed.

(** ** When the import of [app_one_tab_pro.py] raises *)

Lemma put_books_Ok_rows (skip : string → bool) (rs : list row) (d d' : db) :
  put_books skip rs d = (d', Ok tt) →
  ∀ r, r ∈ rs → ∃ n t, book_id r = Numeric n ∧ title r = Some t.
Proof.
  intros (bs & _ & Hbs & _)%put_books_Ok r Hr.
  destruct (Forall2_elem_l _ _ _ r Hbs Hr) as (b & _ & H1 & H2 & _).
  by exists (bk_book_id b), (bk_title b).
Qed.

Lemma put_books_Ok_in_range (skip : string → bool) (xl : list raw_row) (d d' : db) :
  put_books skip (load_excel_to_df xl) d = (d', Ok tt) → in_range xl.
Proof.
  intros Hrun x n Hx Hn. apply (put_books_Ok_int64 skip _ _ _ Hrun).
  apply (elem_of_numbers _ (clean_row x)); [|done]. by apply list_elem_of_fmap_2.
Qed.

(** X2. The import of [app_one_tab_pro.py] raises exactly on the sheets
    that are not well formed or hold a number outside the INTEGER range: it
    succeeds if and only if every catalog number converts with [int()] to a
    signed 64-bit value, no two rows share a number and every row has a
    title. *)
Theorem App_import_succeeds_iff (xl : list raw_row) (store : db) :
  (∃ df', (App.update_archive xl store).2 = Ok df') ↔ well_formed xl ∧ in_range xl.
Proof.
  split.
  - intros [df' Hok]. unfold App.update_archive in Hok.
    destruct (run_import _ _ _) as [d [[]|e]] eqn:Hrun; [|done].
    apply App_import_Ok in Hrun.
    pose proof (put_books_Ok_rows _ _ _ _ Hrun) as Hrows.
    destruct (put_books_read_back no_skip _ _ Hrun) as (_ & _ & _ & Hnd & _).
    destruct (put_books_Ok_numbers no_skip _ _ _ Hrun) as [E _]. simpl in E.
    assert (∀ x, x ∈ xl → ∃ n, x_book_id x = Numeric n) as Hnum.
    { intros x Hx.
      destruct (Hrows (clean_row x)) as (n & t & Hn & _);
        [by apply list_elem_of_fmap_2|]. by exists n. }
    split; [split_and!; [done| |]|].
    + rewrite <- (numbers_load xl Hnum). apply NoDup_fmap_2; [|by rewrite <- E].
      by intros ?? [=].
    + intros x Hx.
      destruct (Hrows (clean_row x)) as (n & t & _ & Ht);
        [by apply list_elem_of_fmap_2|]. simpl in Ht. by rewrite Ht.
    + by eapply put_books_Ok_in_range.
  - intros [Hwf H64]. destruct (App_import_success xl store Hwf H64) as (d & Hd & _).
    exists (App.load_db_to_df d). unfold App.update_archive. by rewrite Hd.
Qed.

Lemma App_import_succeeds_iff_witness :
  (well_formed sheet_two ∧ in_range sheet_two) ∧
  ∃ df', (App.update_archive sheet_two empty_db).2 = Ok df'.
Proof.
  split; [split; [apply sheet_two_well_formed|apply sheet_two_in_range]|].
  apply (App_import_succeeds_iff sheet_two empty_db).
  split; [apply sheet_two_well_formed|apply sheet_two_in_range].
Defined.

(** ** Referential integrity *)

Lemma fk_integrity_set_books (d : db) (bs : list book_row) :
  (∀ b, b ∈ bs →
     fk_ok (bk_brand_id b) (brands d) = true ∧
     fk_ok (bk_model_id b) (models d) = true ∧
     fk_ok (bk_machine_type_id b) (machine_types d) = true ∧
     fk_ok (bk_language_id b) (languages d) = true) →
  fk_integrity (set_books bs d).
Proof. intros H b Hb. by apply H. Qed.

Lemma fks_ok_new_book (p : book_params) (t : string) (bs : list book_row) (d : db) :
  fks_ok p d = true →
  fk_ok (bk_brand_id (new_book p t bs)) (brands d) = true ∧
  fk_ok (bk_model_id (new_book p t bs)) (models d) = true ∧
  fk_ok (bk_machine_type_id (new_book p t bs)) (machine_types d) = true ∧
  fk_ok (bk_language_id (new_book p t bs)) (languages d) = true.
Proof.
  unfold fks_ok. simpl.
  intros [[[H1 H2]%andb_true_iff H3]%andb_true_iff H4]%andb_true_iff. done.
Qed.

(** The two INSERT statements keep the foreign keys valid: this is the
    check SQLite makes under [PRAGMA foreign_keys = ON]. *)
Lemma insert_book_integrity (p : book_params) (d d' : db) :
  insert_book p d = Ok d' → fk_integrity d → fk_integrity d'.
Proof.
  unfold insert_book. case_decide; [|done]. destruct (p_title p) as [t|]; [|done].
  case_decide; [done|]. destruct (fks_ok p d) eqn:Hfk; [|done].
  intros [= <-] Hd. apply fk_integrity_set_books.
  intros b [Hb| ->%list_elem_of_singleton]%elem_of_app; [by apply Hd|].
  by apply fks_ok_new_book.
Qed.

Lemma insert_or_replace_book_integrity (p : book_params) (d d' : db) :
  insert_or_replace_book p d = Ok d' → fk_integrity d → fk_integrity d'.
Proof.
  unfold insert_or_replace_book. case_decide; [|done]. destruct (p_title p) as [t|]; [|done].
  destruct (fks_ok p d) eqn:Hfk; [|done].
  intros [= <-] Hd. apply fk_integrity_set_books.
  intros b [[_ Hb]%list_elem_of_filter| ->%list_elem_of_singleton]%elem_of_app;
    [by apply Hd|].
  by apply fks_ok_new_book.
Qed.

Lemma put_books_integrity (skip : string → bool) (rs : list row) (d d' : db) :
  put_books skip rs d = (d', Ok tt) → fk_integrity d → fk_integrity d'.
Proof.
  revert d. induction rs as [|r rs IH]; intros d; simpl; [by intros [= <-]|].
  destruct (put_book skip r d) as [d1|e] eqn:Hput; [|done].
  intros Hrun Hd. apply (IH d1 Hrun). unfold put_book in Hput.
  destruct (py_int (book_id r)); [|done]. by eapply insert_book_integrity.
Qed.

Lemma exec_all_replace_integrity (data : list book_params) (d d' : db) :
  exec_all insert_or_replace_book data d = (d', Ok tt) →
  fk_integrity d → fk_integrity d'.
Proof.
  revert d. induction data as [|p data IH]; intros d; simpl; [by intros [= <-]|].
  destruct (insert_or_replace_book p d) as [d1|e] eqn:Hp; [|done].
  intros Hrun Hd. apply (IH d1 Hrun). by eapply insert_or_replace_book_integrity.
Qed.

Lemma fk_integrity_no_books (d : db) : books d = [] → fk_integrity d.
Proof. intros H b Hb. rewrite H in Hb. by apply elem_of_nil in Hb. Qed.

(** X3. After an import, successful or not, every foreign key of every book
    of the store is null or the id of a row of its dimension table, in the
    three applications. *)
Theorem import_keeps_foreign_keys (xl : list raw_row) (store : db)
    (db_path : string) (k : Installer.cache) :
  fk_integrity (App.update_archive xl store).1 ∧
  fk_integrity (Kaveh.action_rebuild_from_excel xl store).1 ∧
  fk_integrity (Installer.action_rebuild_from_excel xl db_path store k).1.1.
Proof.
  split_and!.
  - rewrite App_update_archive_store, App_run_import.
    destruct (put_books no_skip _ _) as [d [[]|e]] eqn:Hput; simpl.
    + by apply (put_books_integrity _ _ _ _ Hput), fk_integrity_no_books.
    + by apply fk_integrity_no_books.
  - rewrite Kaveh_action_rebuild_store, Kaveh_run_import.
    destruct (put_books skip_empty _ _) as [d [[]|e]] eqn:Hput; simpl.
    + by apply (put_books_integrity _ _ _ _ Hput), fk_integrity_no_books.
    + by apply fk_integrity_no_books.
  - unfold Installer.action_rebuild_from_excel. rewrite Installer_run_import.
    destruct (installer_data _) as [data|e]; simpl;
      [|by apply fk_integrity_no_books].
    destruct (exec_all insert_or_replace_book data _) as [d [[]|e]] eqn:Hexec; simpl;
      [|by apply fk_integrity_no_books].
    destruct (Installer.load_db_to_df db_path d k). simpl.
    by apply (exec_all_replace_integrity _ _ _ Hexec), fk_integrity_no_books.
Qed.

(** ** The row at which an import stops *)

Lemma put_books_Raise (skip : string → bool) (rs : list row) (d d' : db) (e : exn) :
  put_books skip rs d = (d', Raise e) →
  ∃ i r, rs !! i = Some r ∧ put_books skip (take i rs) d = (d', Ok tt) ∧
         put_book skip r d' = Raise e.
Proof.
  revert d. induction rs as [|r rs IH]; intros d; simpl; [done|].
  destruct (put_book skip r d) as [d1|e1] eqn:Hput.
  - intros (i & r' & Hi & Htake & Hr')%IH. exists (S i), r'. simpl. by rewrite Hput.
  - intros [= <- <-]. by exists 0%nat, r.
Qed.

Lemma put_book_Raise (skip : string → bool) (r : row) (d : db) (e : exn) :
  put_book skip r d = Raise e →
  (e = ValueError ∧ book_id r = NonNumeric) ∨
  (e = TypeError ∧ book_id r = Dated) ∨
  ∃ n, book_id r = Numeric n ∧
       ((e = OverflowError ∧ ¬ int64 n) ∨
        (e = InterfaceError ∧ int64 n ∧ title r = None) ∨
        (e = IntegrityError ∧ int64 n ∧ title r ≠ None ∧ n ∈ bk_book_id <$> books d)).
Proof.
  unfold put_book. destruct (book_id r) as [n| |]; simpl;
    [|intros [= <-]; by left|intros [= <-]; right; by left].
  intros Hins. right. right. exists n. split; [done|]. unfold insert_book in Hins.
  simpl in Hins. case_decide as H64; [|injection Hins as <-; by left]. right.
  destruct (title r) as [t|]; [|injection Hins as <-; by left].
  right. case_decide as Hn.
  - injection Hins as <-. by split_and!.
  - by rewrite (fks_ok_params skip d r n) in Hins.
Qed.

Lemma put_books_Ok_sheet (skip : string → bool) (xl : list raw_row) (d d' : db) :
  put_books skip (load_excel_to_df xl) d = (d', Ok tt) → books d = [] →
  well_formed xl ∧ Numeric <$> (bk_book_id <$> books d') = x_book_id <$> xl.
Proof.
  intros Hrun Hd.
  pose proof (put_books_Ok_rows _ _ _ _ Hrun) as Hrows.
  destruct (put_books_Ok skip _ _ _ Hrun) as (_ & _ & _ & Hnd).
  rewrite Hd in Hnd. specialize (Hnd (NoDup_nil_2)).
  destruct (put_books_Ok_numbers skip _ _ _ Hrun) as [E _]. rewrite Hd in E. simpl in E.
  assert (∀ x, x ∈ xl → ∃ n, x_book_id x = Numeric n) as Hnum.
  { intros x Hx.
    destruct (Hrows (clean_row x)) as (n & t & Hn & _);
      [by apply list_elem_of_fmap_2|]. by exists n. }
  split; [split_and!; [done| |]|].
  - rewrite <- (numbers_load xl Hnum). apply NoDup_fmap_2; [|by rewrite <- E].
    by intros ?? [=].
  - intros x Hx.
    destruct (Hrows (clean_row x)) as (n & t & _ & Ht);
      [by apply list_elem_of_fmap_2|]. simpl in Ht. by rewrite Ht.
  - by rewrite E, numbers_load.
Qed.

Lemma import_stops_at (skip : string → bool) (xl : list raw_row) (e : exn) (d' : db) :
  put_books skip (load_excel_to_df xl) (dims_db skip (load_excel_to_df xl))
  = (d', Raise e) →
  ∃ i x, xl !! i = Some x ∧ well_formed (take i xl) ∧ in_range (take i xl) ∧
    ((e = ValueError ∧ x_book_id x = NonNumeric) ∨
     (e = TypeError ∧ x_book_id x = Dated) ∨
     ∃ n, x_book_id x = Numeric n ∧
       ((e = OverflowError ∧ ¬ int64 n) ∨
        (e = InterfaceError ∧ int64 n ∧ clean (x_title x) = None) ∨
        (e = IntegrityError ∧ int64 n ∧ clean (x_title x) ≠ None ∧
         x_book_id x ∈ x_book_id <$> take i xl))).
Proof.
  intros (i & r & Hi & Htake & Hr)%put_books_Raise.
  unfold load_excel_to_df in Hi, Htake. rewrite list_lookup_fmap in Hi.
  destruct (xl !! i) as [x|] eqn:Hx; [|done]. injection Hi as <-.
  rewrite <- fmap_take in Htake.
  destruct (put_books_Ok_sheet skip _ _ _ Htake eq_refl) as [Hwf Hnums].
  pose proof (put_books_Ok_in_range skip _ _ _ Htake) as H64.
  exists i, x. split_and!; [done..|].
  destruct (put_book_Raise _ _ _ _ Hr)
    as [[-> Hn]|[[-> Hn]|(n & Hn & [[-> Hbig]|[(-> & Hfit & Ht)|(-> & Hfit & Ht & Hdup)]])]];
    simpl in *.
  - by left.
  - right. by left.
  - right. right. exists n. split; [done|]. by left.
  - right. right. exists n. split; [done|]. right. by left.
  - right. right. exists n. split; [done|]. right. right. split_and!; [done..|].
    rewrite Hn, <- Hnums. by apply list_elem_of_fmap_2.
Qed.

(** X4. An import of [app_one_tab_pro.py] or [kaveh_books1.py] that raises
    stops at the first row of the sheet that cannot be inserted: the rows
    before it are well formed, with numbers in the INTEGER range, and the
    exception tells what is wrong with that row.  [ValueError]: [int()]
    rejects the value of its catalog number; [TypeError]: [int()] rejects
    its type; [OverflowError]: its number is outside the signed 64-bit
    range; the binding error of sqlite3 for a value of unsupported type
    ([InterfaceError]): its title is absent; [IntegrityError]: its number
    is that of an earlier row.  The checks apply in this order, and no
    foreign key makes an import raise. *)
Theorem import_stops_at_first_bad_row (xl : list raw_row) (store : db) (e : exn) :
  (App.update_archive xl store).2 = Raise e ∨
  (Kaveh.action_rebuild_from_excel xl store).2 = Raise e →
  ∃ i x, xl !! i = Some x ∧ well_formed (take i xl) ∧ in_range (take i xl) ∧
    ((e = ValueError ∧ x_book_id x = NonNumeric) ∨
     (e = TypeError ∧ x_book_id x = Dated) ∨
     ∃ n, x_book_id x = Numeric n ∧
       ((e = OverflowError ∧ ¬ int64 n) ∨
        (e = InterfaceError ∧ int64 n ∧ clean (x_title x) = None) ∨
        (e = IntegrityError ∧ int64 n ∧ clean (x_title x) ≠ None ∧
         x_book_id x ∈ x_book_id <$> take i xl))).
Proof.
  intros [H|H].
  - unfold App.update_archive in H. rewrite App_run_import in H.
    destruct (put_books no_skip _ _) as [d [[]|e']] eqn:Hput; [done|].
    simpl in H. injection H as ->. by eapply import_stops_at.
  - unfold Kaveh.action_rebuild_from_excel in H. rewrite Kaveh_run_import in H.
    destruct (put_books skip_empty _ _) as [d [[]|e']] eqn:Hput; [done|].
    simpl in H. injection H as ->. by eapply import_stops_at.
Qed.

Lemma import_stops_at_first_bad_row_witness :
  (App.update_archive sheet_big empty_db).2 = Raise OverflowError ∧
  ∃ i x, sheet_big !! i = Some x ∧ well_formed (take i sheet_big) ∧
    in_range (take i sheet_big) ∧
    ((OverflowError = ValueError ∧ x_book_id x = NonNumeric) ∨
     (OverflowError = TypeError ∧ x_book_id x = Dated) ∨
     ∃ n, x_book_id x = Numeric n ∧
       ((OverflowError = OverflowError ∧ ¬ int64 n) ∨
        (OverflowError = InterfaceError ∧ int64 n ∧ clean (x_title x) = None) ∨
        (OverflowError = IntegrityError ∧ int64 n ∧ clean (x_title x) ≠ None ∧
         x_book_id x ∈ x_book_id <$> take i sheet_big))).
Proof.
  assert ((App.update_archive sheet_big empty_db).2 = Raise OverflowError) as H.
  { vm_compute. reflexivity. }
  split; [exact H|].
  apply (import_stops_at_first_bad_row sheet_big empty_db OverflowError).
  left. exact H.
Defined.

(** ** The import of [build_installer.py] *)

Lemma name_ids_acc (rows : list dim_row) (m : gmap string Z) (s : string) (i : Z) :
  foldl (λ m r, <[dim_name r := dim_id r]> m) m rows !! s = Some i →
  m !! s = Some i ∨ i ∈ dim_id <$> rows.
Proof.
  revert m. induction rows as [|r rows IH]; intros m; simpl; [by left|].
  intros [H|H]%IH.
  - destruct (decide (dim_name r = s)) as [<-|Hne].
    + rewrite lookup_insert_eq in H. injection H as <-. right. by left.
    + rewrite lookup_insert_ne in H by done. by left.
  - right. by right.
Qed.

Lemma lookup_id_fk_ok (t : table) (d : db) (v : option string) :
  fk_ok (Installer.lookup_id (Installer.name_ids t d) v) (dim t d) = true.
Proof.
  destruct v as [s|]; simpl; [|done].
  destruct (Installer.name_ids t d !! s) as [i|] eqn:E; simpl; [|done].
  apply bool_decide_eq_true. unfold Installer.name_ids in E.
  by destruct (name_ids_acc _ _ _ _ E) as [H|H].
Qed.

Lemma fks_ok_dims (p : book_params) (d d' : db) :
  (∀ t, dim t d' = dim t d) → fks_ok p d' = fks_ok p d.
Proof.
  intros H. unfold fks_ok.
  pose proof (H Brands) as H1. pose proof (H Models) as H2.
  pose proof (H MachineTypes) as H3. pose proof (H Languages) as H4.
  simpl in H1, H2, H3, H4. by rewrite H1, H2, H3, H4.
Qed.

Lemma insert_or_replace_book_dim (p : book_params) (d d' : db) (t : table) :
  insert_or_replace_book p d = Ok d' → dim t d' = dim t d.
Proof.
  unfold insert_or_replace_book. case_decide; [|done]. destruct (p_title p); [|done].
  destruct (fks_ok p d); [|done]. intros [= <-]. apply dim_set_books.
Qed.

Lemma exec_all_replace_total (data : list book_params) (W d : db) :
  (∀ p, p ∈ data → is_Some (p_title p) ∧ fks_ok p W = true) →
  (∀ p, p ∈ data → int64 (p_book_id p)) →
  (∀ t, dim t d = dim t W) →
  ∃ d', exec_all insert_or_replace_book data d = (d', Ok tt).
Proof.
  revert d. induction data as [|p data IH]; intros d Hdata H64 Hd; simpl; [by eexists|].
  destruct (Hdata p ltac:(left)) as [[t Ht] Hfk].
  destruct (insert_or_replace_book p d) as [d1|e] eqn:Hp.
  - apply IH; [intros q Hq; apply Hdata; by right|intros q Hq; apply H64; by right|].
    intros t'. rewrite <- Hd. by eapply insert_or_replace_book_dim.
  - unfold insert_or_replace_book in Hp. rewrite decide_True in Hp by (apply H64; by left).
    rewrite Ht in Hp. by rewrite (fks_ok_dims p W d Hd), Hfk in Hp.
Qed.

Lemma exec_all_replace_Raise (data : list book_params) (W d d' : db) (e : exn) :
  (∀ p, p ∈ data → is_Some (p_title p) ∧ fks_ok p W = true) →
  (∀ t, dim t d = dim t W) →
  exec_all insert_or_replace_book data d = (d', Raise e) →
  e = OverflowError ∧ ∃ p, p ∈ data ∧ ¬ int64 (p_book_id p).
Proof.
  revert d. induction data as [|p data IH]; intros d Hdata Hd; simpl; [done|].
  destruct (Hdata p ltac:(left)) as [[t Ht] Hfk].
  destruct (insert_or_replace_book p d) as [d1|e1] eqn:Hp.
  - intros Hrun. destruct (IH d1) as [-> (q & Hq & Hbig)]; [| |done|].
    + intros q Hq. apply Hdata. by right.
    + intros t'. rewrite <- Hd. by eapply insert_or_replace_book_dim.
    + split; [done|]. exists q. split; [by right|done].
  - intros [= <- <-]. unfold insert_or_replace_book in Hp.
    case_decide as H64.
    + rewrite Ht in Hp. by rewrite (fks_ok_dims p W d Hd), Hfk in Hp.
    + injection Hp as <-. split; [done|]. exists p. split; [by left|done].
Qed.

Lemma exec_all_replace_Ok_int64 (data : list book_params) (d d' : db) :
  exec_all insert_or_replace_book data d = (d', Ok tt) →
  ∀ p, p ∈ data → int64 (p_book_id p).
Proof.
  revert d. induction data as [|p data IH]; intros d; simpl.
  - intros _ q []%elem_of_nil.
  - destruct (insert_or_replace_book p d) as [d1|e] eqn:Hp; [|done].
    intros Hexec q [->|Hq]%elem_of_cons; [|by apply (IH d1)].
    unfold insert_or_replace_book in Hp. by case_decide.
Qed.

Lemma books_data_Ok (W : db) (df : list row) (data : list book_params) :
  Installer.books_data (Installer.name_ids Brands W) (Installer.name_ids MachineTypes W)
    (Installer.name_ids Models W) (Installer.name_ids Languages W) df = Ok data →
  (∀ r, r ∈ df → ∃ n, book_id r = Numeric n) ∧
  (∀ p, p ∈ data → is_Some (p_title p) ∧ fks_ok p W = true).
Proof.
  revert data. induction df as [|r df IH]; intros data; simpl.
  - intros [= <-]. split; intros ? []%elem_of_nil.
  - destruct (book_id r) as [n| |] eqn:Hn; simpl; [|done..].
    destruct (Installer.books_data _ _ _ _ df) as [rest|e]; [|done].
    intros [= <-]. destruct (IH rest eq_refl) as [Hnum Hrest]. split.
    + intros r' [->|Hr']%elem_of_cons; [by exists n|by apply Hnum].
    + intros p [->|Hp]%elem_of_cons; [|by apply Hrest].
      split; [by eexists|]. unfold fks_ok. simpl.
      rewrite (lookup_id_fk_ok Brands), (lookup_id_fk_ok Models),
        (lookup_id_fk_ok MachineTypes). simpl. apply (lookup_id_fk_ok Languages).
Qed.

Lemma books_data_Raise (b mt m l : gmap string Z) (df : list row) (e : exn) :
  Installer.books_data b mt m l df = Raise e →
  (e = ValueError ∧ ∃ r, r ∈ df ∧ book_id r = NonNumeric) ∨
  (e = TypeError ∧ ∃ r, r ∈ df ∧ book_id r = Dated).
Proof.
  induction df as [|r df IH]; simpl; [done|].
  destruct (book_id r) as [n| |] eqn:Hn; simpl.
  - destruct (Installer.books_data _ _ _ _ df) as [rest|e']; [done|].
    intros [= <-].
    destruct (IH eq_refl) as [[-> (r' & Hr' & Hbad)]|[-> (r' & Hr' & Hbad)]].
    + left. split; [done|]. exists r'. split; [by right|done].
    + right. split; [done|]. exists r'. split; [by right|done].
  - intros [= <-]. left. split; [done|]. exists r. split; [by left|done].
  - intros [= <-]. right. split; [done|]. exists r. split; [by left|done].
Qed.

(** The three ways an import of [build_installer.py] ends. *)
Lemma Installer_run_import_cases (df : list row) (store : db) :
  (∃ d data, run_import Installer.populate_replace df store = (d, Ok tt) ∧
             installer_data df = Ok data ∧
             exec_all insert_or_replace_book data (installer_dims df) = (d, Ok tt) ∧
             ∀ r, r ∈ df → ∃ n, book_id r = Numeric n ∧ int64 n) ∨
  (∃ e, run_import Installer.populate_replace df store = (empty_db, Raise e) ∧
        ((e = ValueError ∧ ∃ r, r ∈ df ∧ book_id r = NonNumeric) ∨
         (e = TypeError ∧ ∃ r, r ∈ df ∧ book_id r = Dated) ∨
         (e = OverflowError ∧ (∀ r, r ∈ df → ∃ n, book_id r = Numeric n) ∧
          ∃ r n, r ∈ df ∧ book_id r = Numeric n ∧ ¬ int64 n))).
Proof.
  rewrite Installer_run_import.
  destruct (installer_data df) as [data|e] eqn:Hdata.
  - destruct (books_data_Ok _ _ _ Hdata) as [Hnum Hps].
    pose proof (books_data_numbers _ _ _ _ _ _ Hdata) as Hnums.
    destruct (exec_all insert_or_replace_book data (installer_dims df))
      as [d [[]|e]] eqn:Hexec.
    + left. exists d, data. split_and!; [done..|].
      intros r Hr. destruct (Hnum r Hr) as [n Hn]. exists n. split; [done|].
      assert (n ∈ p_book_id <$> data) as (q & -> & Hq)%list_elem_of_fmap.
      { rewrite Hnums. by apply (elem_of_numbers _ r). }
      by apply (exec_all_replace_Ok_int64 _ _ _ Hexec).
    + right. exists e.
      destruct (exec_all_replace_Raise data (installer_dims df) (installer_dims df) d e Hps)
        as [-> (q & Hq & Hbig)]; [done..|].
      split; [done|]. right. right. split_and!; [done..|].
      assert (p_book_id q ∈ numbers df) as (r & Hr & Hn)%elem_of_numbers_inv.
      { rewrite <- Hnums. by apply list_elem_of_fmap_2. }
      by exists r, (p_book_id q).
  - right. exists e. split; [done|].
    destruct (books_data_Raise _ _ _ _ _ _ Hdata) as [H|H]; [by left|right; by left].
Qed.

(** X5. The import of [build_installer.py] succeeds if and only if every
    catalog number of the sheet converts with [int()] to a signed 64-bit
    value: neither a repeated number nor a blank title stops it.  When it
    raises, the six tables are left empty, and the exception is the
    [ValueError] or the [TypeError] of [int()] on a cell of the sheet, or,
    when every cell converts, the [OverflowError] of a number outside the
    INTEGER range. *)
Theorem Installer_import_succeeds_iff (xl : list raw_row) (db_path : string)
    (store : db) (k : Installer.cache) :
  let b := Installer.action_rebuild_from_excel xl db_path store k in
  ((∃ df, b.2 = Ok df) ↔ ∀ x, x ∈ xl → ∃ n, x_book_id x = Numeric n ∧ int64 n) ∧
  (∀ e, b.2 = Raise e →
     b.1.1 = empty_db ∧
     ((e = ValueError ∧ ∃ x, x ∈ xl ∧ x_book_id x = NonNumeric) ∨
      (e = TypeError ∧ ∃ x, x ∈ xl ∧ x_book_id x = Dated) ∨
      (e = OverflowError ∧ (∀ x, x ∈ xl → ∃ n, x_book_id x = Numeric n) ∧
       ∃ x n, x ∈ xl ∧ x_book_id x = Numeric n ∧ ¬ int64 n))).
Proof.
  simpl. unfold Installer.action_rebuild_from_excel.
  assert (∀ P : id_cell → Prop,
            (∃ r, r ∈ Installer.load_excel_to_df xl ∧ P (book_id r)) →
            ∃ x, x ∈ xl ∧ P (x_book_id x)) as Hback.
  { intros P (r & (x & -> & Hx)%list_elem_of_fmap & HP). by exists x. }
  destruct (Installer_run_import_cases (Installer.load_excel_to_df xl) store)
    as [(d & data & -> & _ & _ & Hnum)|(e0 & -> & Hcases)].
  - destruct (Installer.load_db_to_df db_path d k) as [df k']. simpl.
    split; [|done]. split; [|by eexists].
    intros _ x Hx. apply (Hnum (Installer.clean_row x)). by apply list_elem_of_fmap_2.
  - simpl. split.
    + split; [by intros [? ?]|]. intros Hall. exfalso.
      destruct Hcases as [[_ Hbad]|[[_ Hbad]|(_ & _ & r & n & Hr & Hn & Hbig)]].
      * apply (Hback (λ c, c = NonNumeric)) in Hbad as (x & Hx & Hc).
        destruct (Hall x Hx) as (n & Hn & _). congruence.
      * apply (Hback (λ c, c = Dated)) in Hbad as (x & Hx & Hc).
        destruct (Hall x Hx) as (n & Hn & _). congruence.
      * apply list_elem_of_fmap in Hr as (x & -> & Hx). simpl in Hn.
        destruct (Hall x Hx) as (m & Hm & H64). congruence.
    + intros e [= <-]. split; [done|].
      destruct Hcases as [[-> Hbad]|[[-> Hbad]|(-> & Hall & r & n & Hr & Hn & Hbig)]].
      * left. split; [done|]. by apply (Hback (λ c, c = NonNumeric)).
      * right. left. split; [done|]. by apply (Hback (λ c, c = Dated)).
      * right. right. split_and!; [done| |].
        -- intros x Hx. apply (Hall (Installer.clean_row x)). by apply list_elem_of_fmap_2.
        -- apply list_elem_of_fmap in Hr as (x & -> & Hx). by exists x, n.
Qed.

Lemma Installer_import_succeeds_iff_witness :
  (∀ x, x ∈ sheet_twice → ∃ n, x_book_id x = Numeric n ∧ int64 n) ∧
  ∃ df, (Installer.action_rebuild_from_excel sheet_twice "books_archive.db"
           empty_db []).2 = Ok df.
Proof.
  assert (∀ x, x ∈ sheet_twice → ∃ n, x_book_id x = Numeric n ∧ int64 n) as H.
  { intros x Hx. set_unfold in Hx.
    destruct Hx as [->|[->|[]]]; exists 7; split; [done|by vm_compute|done|by vm_compute]. }
  split; [exact H|].
  apply (Installer_import_succeeds_iff sheet_twice "books_archive.db" empty_db []), H.
Defined.

(** ** [INSERT OR REPLACE]: the last row of a catalog number stays *)

Lemma exec_all_replace_dim (data : list book_params) (d d' : db) (t : table) :
  exec_all insert_or_replace_book data d = (d', Ok tt) → dim t d' = dim t d.
Proof.
  revert d. induction data as [|p data IH]; intros d; simpl; [by intros [= <-]|].
  destruct (insert_or_replace_book p d) as [d1|e] eqn:Hp; [|done].
  intros ->%IH. by eapply insert_or_replace_book_dim.
Qed.

Lemma insert_or_replace_book_keeps (p : book_params) (d d' : db) (b : book_row) :
  insert_or_replace_book p d = Ok d' → b ∈ books d → p_book_id p ≠ bk_book_id b →
  b ∈ books d'.
Proof.
  unfold insert_or_replace_book. case_decide; [|done]. destruct (p_title p); [|done].
  destruct (fks_ok p d); [|done]. intros [= <-] Hb Hne. simpl.
  apply elem_of_app. left. apply list_elem_of_filter. split; [congruence|done].
Qed.

Lemma insert_or_replace_book_new (p : book_params) (d d' : db) :
  insert_or_replace_book p d = Ok d' → ∃ b, b ∈ books d' ∧ recorded p b.
Proof.
  unfold insert_or_replace_book. case_decide; [|done]. destruct (p_title p) as [t|] eqn:Ht; [|done].
  destruct (fks_ok p d); [|done]. intros [= <-]. eexists. split.
  - simpl. apply elem_of_app. right. by left.
  - unfold recorded. destruct p. simpl in *. by rewrite Ht.
Qed.

Lemma exec_all_replace_keeps (data : list book_params) (d d' : db) (b : book_row) :
  exec_all insert_or_replace_book data d = (d', Ok tt) → b ∈ books d →
  (∀ q, q ∈ data → p_book_id q ≠ bk_book_id b) → b ∈ books d'.
Proof.
  revert d. induction data as [|p data IH]; intros d; simpl; [by intros [= <-]|].
  destruct (insert_or_replace_book p d) as [d1|e] eqn:Hp; [|done].
  intros Hrun Hb Hne. apply (IH d1 Hrun).
  - eapply insert_or_replace_book_keeps; [done..|]. apply Hne. by left.
  - intros q Hq. apply Hne. by right.
Qed.

Lemma exec_all_replace_last (data : list book_params) (d d' : db) (i : nat)
    (p : book_params) :
  exec_all insert_or_replace_book data d = (d', Ok tt) → data !! i = Some p →
  (∀ j q, (i < j)%nat → data !! j = Some q → p_book_id q ≠ p_book_id p) →
  ∃ b, b ∈ books d' ∧ recorded p b.
Proof.
  revert d i. induction data as [|p0 data IH]; intros d i; simpl; [done|].
  destruct (insert_or_replace_book p0 d) as [d1|e] eqn:Hp; [|done].
  intros Hrun Hi Hlast. destruct i as [|i]; simpl in Hi.
  - injection Hi as ->.
    destruct (insert_or_replace_book_new _ _ _ Hp) as (b & Hb & Hrec).
    exists b. split; [|done]. apply (exec_all_replace_keeps _ _ _ _ Hrun Hb).
    intros q [j Hj]%list_elem_of_lookup.
    assert (p_book_id p = bk_book_id b) as <- by (by rewrite Hrec).
    apply (Hlast (S j)); [lia|done].
  - apply (IH d1 i Hrun Hi). intros j q Hj Hq. apply (Hlast (S j)); [lia|done].
Qed.

Lemma books_data_lookup (b mt m l : gmap string Z) (df : list row)
    (data : list book_params) (i : nat) (r : row) :
  Installer.books_data b mt m l df = Ok data → df !! i = Some r →
  ∃ n, book_id r = Numeric n ∧
       data !! i = Some (BookParams n (Some (Installer.py_str (title r)))
                           (str_or_none (edition_year r)) (str_or_none (location r))
                           (Installer.lookup_id b (brand r)) (Installer.lookup_id m (model r))
                           (Installer.lookup_id mt (machine_type r))
                           (Installer.lookup_id l (language r))).
Proof.
  revert data i. induction df as [|r0 df IH]; intros data i; simpl; [done|].
  destruct (book_id r0) as [n| |] eqn:Hn; simpl; [|done..].
  destruct (Installer.books_data _ _ _ _ df) as [rest|e]; [|done].
  intros [= <-] Hi. destruct i as [|i]; simpl in *.
  - injection Hi as <-. by exists n.
  - by apply IH.
Qed.

Lemma books_data_length (b mt m l : gmap string Z) (df : list row)
    (data : list book_params) :
  Installer.books_data b mt m l df = Ok data → length data = length df.
Proof.
  revert data. induction df as [|r df IH]; intros data; simpl; [by intros [= <-]|].
  destruct (book_id r); simpl; [|done..].
  destruct (Installer.books_data _ _ _ _ df) as [rest|e]; [|done].
  intros [= <-]. simpl. f_equal. by apply IH.
Qed.

Lemma name_ids_notin (rows : list dim_row) (m : gmap string Z) (s : string) :
  s ∉ dim_name <$> rows →
  foldl (λ m r, <[dim_name r := dim_id r]> m) m rows !! s = m !! s.
Proof.
  revert m. induction rows as [|r rows IH]; intros m; simpl; [done|].
  intros [Hne Hs]%not_elem_of_cons. rewrite IH by done. by rewrite lookup_insert_ne.
Qed.

Lemma name_ids_lookup (rows : list dim_row) (m : gmap string Z) (i : Z) (s : string) :
  NoDup (dim_name <$> rows) → DimRow i s ∈ rows →
  foldl (λ m r, <[dim_name r := dim_id r]> m) m rows !! s = Some i.
Proof.
  revert m. induction rows as [|r rows IH]; intros m; simpl; [by intros _ []%elem_of_nil|].
  intros [Hr Hnd]%NoDup_cons [<-|Hin]%elem_of_cons.
  - simpl in *. rewrite name_ids_notin by done. by rewrite lookup_insert_eq.
  - by apply IH.
Qed.

Lemma installer_dims_ok (df : list row) (t : table) : dim_ok (dim t (installer_dims df)).
Proof. destruct t; apply intern_ok, dim_ok_nil. Qed.

Lemma installer_dims_names (df : list row) (t : table) (s : string) :
  Some s ∈ column t <$> df → s ∈ dim_name <$> dim t (installer_dims df).
Proof.
  intros Hs.
  assert (s ∈ dim_name <$> intern (unique (dropna (column t <$> df))) []) as H.
  { apply intern_names. left. by apply elem_of_unique, elem_of_dropna. }
  by destruct t.
Qed.

Lemma installer_name_of (df : list row) (d : db) (t : table) (v : option string) :
  (∀ t, dim t d = dim t (installer_dims df)) → v ∈ column t <$> df →
  name_of (dim t d) (Installer.lookup_id (Installer.name_ids t (installer_dims df)) v) = v.
Proof.
  intros Hd Hv. rewrite Hd. destruct v as [s|]; [|done]. simpl.
  destruct (installer_dims_ok df t) as [Hids Hnames].
  apply installer_dims_names, list_elem_of_fmap in Hv as ([i s'] & -> & Hrow).
  unfold Installer.name_ids. rewrite (name_ids_lookup _ _ i s') by done.
  unfold name_of. by rewrite (row_of_elem _ i s').
Qed.

Lemma Installer_import_Ok (xl : list raw_row) (db_path : string) (store : db)
    (k : Installer.cache) (out : list drow) :
  (Installer.action_rebuild_from_excel xl db_path store k).2 = Ok out →
  ∃ data,
    installer_data (Installer.load_excel_to_df xl) = Ok data ∧
    exec_all insert_or_replace_book data (installer_dims (Installer.load_excel_to_df xl))
    = ((Installer.action_rebuild_from_excel xl db_path store k).1.1, Ok tt).
Proof.
  unfold Installer.action_rebuild_from_excel.
  destruct (Installer_run_import_cases (Installer.load_excel_to_df xl) store)
    as [(d & data & -> & Hdata & Hexec & _)|(e0 & -> & _)]; [|done].
  destruct (Installer.load_db_to_df db_path d k). simpl. intros _. by exists data.
Qed.

(** X6. In [build_installer.py] the last row of a catalog number wins: after
    a successful import, the read query shows, for a number [n], exactly the
    row of the last sheet row that carries [n], with its cleaned title, its
    four names and its two free columns (nulls shown as the empty text); the
    earlier rows of that number leave no trace. *)
Theorem Installer_last_row_wins (xl : list raw_row) (db_path : string) (store : db)
    (k : Installer.cache) (out : list drow) (i : nat) (x : raw_row) (n : Z) :
  let b := Installer.action_rebuild_from_excel xl db_path store k in
  b.2 = Ok out →
  xl !! i = Some x → x_book_id x = Numeric n →
  (∀ j y, (i < j)%nat → xl !! j = Some y → x_book_id y ≠ Numeric n) →
  installer_read_back n (Installer.clean_row x) ∈ Installer.read_query b.1.1 ∧
  ∀ r, r ∈ Installer.read_query b.1.1 → c_number r = n →
       r = installer_read_back n (Installer.clean_row x).
Proof.
  simpl. intros (data & Hdata & Hexec)%Installer_import_Ok Hi Hn Hlast.
  set (d := (Installer.action_rebuild_from_excel xl db_path store k).1.1) in *.
  set (df := Installer.load_excel_to_df xl) in *.
  assert (∀ t, dim t d = dim t (installer_dims df)) as Hd.
  { intros t. by eapply exec_all_replace_dim. }
  assert (pk_unique d) as Hpk.
  { intros t. rewrite Hd. apply installer_dims_ok. }
  assert (NoDup (bk_book_id <$> books d)) as Hnd.
  { by apply (exec_all_replace data (installer_dims df) d Hexec), NoDup_nil_2. }
  assert (df !! i = Some (Installer.clean_row x)) as Hr.
  { unfold df, Installer.load_excel_to_df. by rewrite list_lookup_fmap, Hi. }
  destruct (books_data_lookup _ _ _ _ _ _ _ _ Hdata Hr) as (n' & Hn' & Hp).
  simpl in Hn'. rewrite Hn in Hn'. injection Hn' as <-.
  destruct (exec_all_replace_last _ _ _ _ _ Hexec Hp) as (b & Hb & Hrec).
  { intros j q Hj Hq. simpl. intros Heq.
    assert (numbers df !! j = Some n) as Hnum.
    { rewrite <- (books_data_numbers _ _ _ _ _ _ Hdata), list_lookup_fmap, Hq.
      simpl. by rewrite Heq. }
    assert (∃ y, xl !! j = Some y) as [y Hy].
    { apply lookup_lt_is_Some. apply lookup_lt_Some in Hq.
      pose proof (books_data_length _ _ _ _ _ _ Hdata) as E.
      unfold df, Installer.load_excel_to_df in E. rewrite length_fmap in E. lia. }
    assert (df !! j = Some (Installer.clean_row y)) as Hrj.
    { unfold df, Installer.load_excel_to_df. by rewrite list_lookup_fmap, Hy. }
    destruct (books_data_lookup _ _ _ _ _ _ _ _ Hdata Hrj) as (m & Hm & Hq').
    rewrite Hq in Hq'. injection Hq' as ->. simpl in Heq. subst m.
    by apply (Hlast j y Hj Hy). }
  unfold recorded in Hrec. injection Hrec as Hb1 Hb2 Hb3 Hb4 Hb5 Hb6 Hb7 Hb8.
  assert (denormalized_coalesce d b = installer_read_back n (Installer.clean_row x))
    as Hrow.
  { unfold denormalized_coalesce, installer_read_back.
    assert (∀ t, column t (Installer.clean_row x) ∈ column t <$> df) as Hcol.
    { intros t. apply list_elem_of_fmap_2. by eapply list_elem_of_lookup_2. }
    rewrite <- Hb1, <- Hb2, <- Hb3, <- Hb4, <- Hb5, <- Hb6, <- Hb7, <- Hb8.
    pose proof (installer_name_of df d Brands _ Hd (Hcol Brands)) as E1.
    pose proof (installer_name_of df d Models _ Hd (Hcol Models)) as E2.
    pose proof (installer_name_of df d MachineTypes _ Hd (Hcol MachineTypes)) as E3.
    pose proof (installer_name_of df d Languages _ Hd (Hcol Languages)) as E4.
    simpl in E1, E2, E3, E4. by rewrite E1, E2, E3, E4. }
  destruct (read_coalesce d Hpk) as [Hperm _]. unfold Installer.read_query. split.
  - rewrite Hperm, <- Hrow. by apply list_elem_of_fmap_2.
  - intros r Hr' Hnum. rewrite Hperm in Hr'.
    apply list_elem_of_fmap in Hr' as (b' & -> & Hb'). simpl in Hnum.
    assert (b' = b) as ->; [|done].
    apply list_elem_of_lookup in Hb' as [j' Hj']. apply list_elem_of_lookup in Hb as [j Hj].
    assert (j' = j) as ->; [|congruence].
    apply (NoDup_lookup _ _ _ n Hnd); rewrite list_lookup_fmap.
    + rewrite Hj'. simpl. by rewrite Hnum.
    + rewrite Hj. simpl. by rewrite Hb1.
Qed.

Lemma Installer_last_row_wins_witness :
  let b := Installer.action_rebuild_from_excel sheet_twice "books_archive.db" empty_db [] in
  installer_read_back 7 (Installer.clean_row
    (RawRow (Numeric 7) (Text "XYZ") NaN NaN (Text "Pump Guide") (Text "English") NaN NaN))
  ∈ Installer.read_query b.1.1 ∧
  ∀ r, r ∈ Installer.read_query b.1.1 → c_number r = 7 →
       r = installer_read_back 7 (Installer.clean_row
         (RawRow (Numeric 7) (Text "XYZ") NaN NaN (Text "Pump Guide") (Text "English")
            NaN NaN)).
Proof.
  apply (Installer_last_row_wins sheet_twice "books_archive.db" empty_db []
           (Installer.read_query
              (Installer.action_rebuild_from_excel sheet_twice "books_archive.db"
                 empty_db []).1.1) 1%nat _ 7).
  - vm_compute. reflexivity.
  - reflexivity.
  - reflexivity.
  - intros j y Hj Hy. destruct j as [|[|j]]; [lia|lia|]. simpl in Hy. done.
Defined.

(** ** The cache of [load_db_to_df] in [build_installer.py] *)

Lemma cache_get_load (db_path : string) (store : db) (k : Installer.cache) :
  Installer.cache_get db_path (Installer.load_db_to_df db_path store k).2
  = Some (Installer.load_db_to_df db_path store k).1.
Proof.
  unfold Installer.load_db_to_df.
  destruct (Installer.cache_get db_path k) as [df|] eqn:E; cbn [fst snd].
  - unfold Installer.cache_get.
    by rewrite (filter_cons_True (λ e : string * list drow, e.1 = db_path)).
  - unfold Installer.cache_get.
    change (take 128 ((db_path, Installer.read_query store) :: k))
      with ((db_path, Installer.read_query store) :: take 127 k).
    by rewrite (filter_cons_True (λ e : string * list drow, e.1 = db_path)).
Qed.

Lemma load_db_to_df_hit (db_path : string) (store : db) (k : Installer.cache)
    (df0 : list drow) :
  Installer.cache_get db_path k = Some df0 →
  (Installer.load_db_to_df db_path store k).1 = df0.
Proof. unfold Installer.load_db_to_df. by intros ->. Qed.

(** X7. [load_db_to_df] of [build_installer.py] is memoized on the path of
    the database file and the rebuild does not clear the memo: once a frame
    was loaded for a path, every later rebuild of that path that succeeds
    returns that same frame, whatever the sheet, and the entry stays.  In
    particular a successful rebuild that follows the load at start-up shows
    the frame of the store as it was before. *)
Theorem Installer_rebuild_returns_cached_frame (xl : list raw_row) (db_path : string)
    (store : db) (k : Installer.cache) (df0 out : list drow) :
  let b := Installer.action_rebuild_from_excel xl db_path store k in
  Installer.cache_get db_path k = Some df0 →
  b.2 = Ok out →
  out = df0 ∧ Installer.cache_get db_path b.1.2 = Some df0 ∧
  ∀ store0 k0 out',
    (Installer.action_rebuild_from_excel xl db_path store
       (Installer.load_db_to_df db_path store0 k0).2).2 = Ok out' →
    out' = (Installer.load_db_to_df db_path store0 k0).1.
Proof.
  simpl. intros Hk Hok.
  assert (∀ k1 df1 out1, Installer.cache_get db_path k1 = Some df1 →
            (Installer.action_rebuild_from_excel xl db_path store k1).2 = Ok out1 →
            out1 = df1 ∧
            Installer.cache_get db_path
              (Installer.action_rebuild_from_excel xl db_path store k1).1.2 = Some df1)
    as Hhit.
  { intros k1 df1 out1 Hk1. unfold Installer.action_rebuild_from_excel.
    destruct (Installer_run_import_cases (Installer.load_excel_to_df xl) store)
      as [(d & data & -> & _)|(e0 & -> & _)]; [|done].
    pose proof (load_db_to_df_hit db_path d k1 df1 Hk1) as E1.
    pose proof (cache_get_load db_path d k1) as E2.
    destruct (Installer.load_db_to_df db_path d k1) as [df k']. simpl in *.
    intros [= <-]. by subst df. }
  destruct (Hhit k df0 out Hk Hok) as [H1 H2]. split_and!; [done..|].
  intros store0 k0 out' Hok'.
  by apply (Hhit _ _ out' (cache_get_load db_path store0 k0)).
Qed.

Lemma Installer_rebuild_returns_cached_frame_witness :
  Installer.cache_get "books_archive.db" [("books_archive.db", [])] = Some [] ∧
  (Installer.action_rebuild_from_excel sheet_two "books_archive.db" empty_db
     [("books_archive.db", [])]).2 = Ok [] ∧
  length (books (Installer.action_rebuild_from_excel sheet_two "books_archive.db"
                   empty_db [("books_archive.db", [])]).1.1) = 2%nat ∧
  Installer.cache_get "books_archive.db"
    (Installer.action_rebuild_from_excel sheet_two "books_archive.db" empty_db
       [("books_archive.db", [])]).1.2 = Some [].
Proof.
  assert ((Installer.action_rebuild_from_excel sheet_two "books_archive.db" empty_db
             [("books_archive.db", [])]).2 = Ok []) as Hok.
  { vm_compute. reflexivity. }
  split; [reflexivity|]. split; [exact Hok|]. split; [vm_compute; reflexivity|].
  exact (proj1 (proj2 (Installer_rebuild_returns_cached_frame sheet_two "books_archive.db"
                         empty_db [("books_archive.db", [])] [] [] eq_refl Hok))).
Defined.

(** ** The filter of [build_installer.py] *)

Lemma select_mask_fmap (f : drow → bool) (df : list drow) :
  Installer.select_mask df (f <$> df) = filter (λ r, f r = true) df.
Proof.
  unfold Installer.select_mask. induction df as [|r df IH]; [done|].
  rewrite fmap_cons. cbn [zip zip_with]. rewrite !filter_cons. cbn [snd].
  destruct (f r) eqn:E.
  - rewrite !decide_True by done. rewrite fmap_cons. simpl. by rewrite IH.
  - by rewrite !decide_False by done.
Qed.

Lemma zip_with_andb_fmap (f g : drow → bool) (df : list drow) :
  zip_with andb (f <$> df) (g <$> df) = (λ r, f r && g r) <$> df.
Proof.
  induction df as [|r df IH]; [done|]. rewrite !fmap_cons. cbn [zip_with].
  by rewrite IH.
Qed.

Lemma replicate_true (df : list drow) :
  replicate (length df) true = (λ _, true) <$> df.
Proof.
  induction df as [|r df IH]; [done|]. rewrite fmap_cons. cbn [length replicate].
  by rewrite IH.
Qed.

Lemma and_eq_current (col : drow → option string) (sel : string) (f : drow → bool)
    (df : list drow) :
  (if decide (sel ≠ "" ∧ sel ≠ ALL) then Installer.and_eq col sel df (f <$> df)
   else f <$> df)
  = (λ r, f r && bool_decide (dim_pass (current sel) (col r))) <$> df.
Proof.
  unfold Installer.and_eq. rewrite zip_with_andb_fmap.
  case_decide as H; apply list_fmap_ext; intros i r _; f_equal.
  - apply bool_decide_ext. unfold dim_pass, current.
    destruct H as [H1 H2]. rewrite decide_False by done. tauto.
  - rewrite andb_comm. symmetry. rewrite bool_decide_eq_true_2; [by destruct (f r)|].
    unfold dim_pass, current. case_decide as H1; [done|].
    intros H2. destruct H. by split.
Qed.

Lemma Installer_filter_spec (df : list drow) (fb ft fm fl search : string) :
  Installer._apply_filters_async df fb ft fm fl search
  = spec_filter df (current fb) (current ft) (current fm) (current fl) (strip search).
Proof.
  unfold Installer._apply_filters_async, spec_filter.
  rewrite replicate_true, !and_eq_current.
  destruct (decide (strip search = "")) as [->|Hq].
  - rewrite decide_False by (by intros []). rewrite select_mask_fmap.
    do 2 f_equal. apply list_filter_iff. intros r. unfold dims_pass. simpl.
    rewrite !andb_true_iff, !bool_decide_eq_true. tauto.
  - rewrite decide_True by done. unfold Installer.str_contains.
    destruct (re_compile (strip search)) as [[re|e]|]; [|done..].
    rewrite zip_with_andb_fmap, select_mask_fmap.
    do 2 f_equal. apply list_filter_iff. intros r. unfold dims_pass. simpl.
    rewrite !andb_true_iff, !bool_decide_eq_true. tauto.
Qed.

(** X8. The mask arithmetic of [_apply_filters_async] computes the filter
    of the specification: the rows that pass the four selections (an empty
    combo text standing for the entry "all") and whose title the trimmed
    query finds, in the order of the frame; on a frame that is not empty it
    is the result of [apply_filters] of [kaveh_books1.py]. *)
Theorem Installer_filter_is_spec_filter (df : list drow) (fb ft fm fl search : string) :
  Installer._apply_filters_async df fb ft fm fl search
  = spec_filter df (current fb) (current ft) (current fm) (current fl) (strip search) ∧
  (df ≠ [] →
   Installer._apply_filters_async df fb ft fm fl search
   = Kaveh.apply_filters df fb ft fm fl search).
Proof.
  split; [apply Installer_filter_spec|].
  intros Hne. rewrite Installer_filter_spec, Kaveh_apply_filters_spec.
  by rewrite decide_False.
Qed.

Lemma Installer_filter_is_spec_filter_witness :
  rows_two ≠ [] ∧
  Installer._apply_filters_async rows_two "ABC" "" ALL "" " guide "
  = Kaveh.apply_filters rows_two "ABC" "" ALL "" " guide ".
Proof.
  split; [done|].
  apply (Installer_filter_is_spec_filter rows_two "ABC" "" ALL "" " guide "). done.
Defined.

(** ** What every filter keeps *)

Lemma spec_filter_sublist (l out : list drow) (fb ft fm fl q : string) :
  spec_filter l fb ft fm fl q = Some (Ok out) →
  out `sublist_of` l ∧ spec_filter out fb ft fm fl q = Some (Ok out).
Proof.
  unfold spec_filter. destruct (decide (q = "")) as [->|Hq].
  - intros [= <-]. split; [apply sublist_filter|].
    rewrite list_filter_filter. do 2 f_equal. apply list_filter_iff. tauto.
  - destruct (re_compile q) as [[re|e]|]; [|done..].
    intros [= <-]. split; [apply sublist_filter|].
    rewrite list_filter_filter. do 2 f_equal. apply list_filter_iff. tauto.
Qed.

(** X9. A filter only removes rows: in the three applications the frame
    shown is a sublist of the full frame (no row is invented, repeated or
    moved, and the count shown is at most the number of books), and
    filtering the frame shown again with the same selections and query
    changes nothing. *)
Theorem filter_keeps_a_sublist (dfb out : list drow) (fb ft fm fl q : string) :
  (App.filter_block dfb fb ft fm fl q = Some (Ok out) →
   out `sublist_of` dfb ∧ (length out ≤ length dfb)%nat ∧
   App.filter_block out fb ft fm fl q = Some (Ok out)) ∧
  (Kaveh.apply_filters dfb fb ft fm fl q = Some (Ok out) →
   out `sublist_of` dfb ∧ (length out ≤ length dfb)%nat ∧
   Kaveh.apply_filters out fb ft fm fl q = Some (Ok out)) ∧
  (Installer._apply_filters_async dfb fb ft fm fl q = Some (Ok out) →
   out `sublist_of` dfb ∧ (length out ≤ length dfb)%nat ∧
   Installer._apply_filters_async out fb ft fm fl q = Some (Ok out)).
Proof.
  split_and!.
  - rewrite !App_filter_block_spec. intros [H1 H2]%spec_filter_sublist.
    split_and!; [done|by apply sublist_length|done].
  - rewrite !Kaveh_apply_filters_spec. destruct (decide (dfb = [])) as [->|Hne].
    + intros [= <-]. by rewrite decide_True.
    + intros [H1 H2]%spec_filter_sublist.
      split_and!; [done|by apply sublist_length|]. by case_decide; [subst|].
  - rewrite !Installer_filter_spec. intros [H1 H2]%spec_filter_sublist.
    split_and!; [done|by apply sublist_length|done].
Qed.

Lemma filter_keeps_a_sublist_witness :
  App.filter_block rows_two "ABC" ALL ALL ALL "" = Some (Ok (take 1 rows_two)) ∧
  take 1 rows_two `sublist_of` rows_two ∧
  App.filter_block (take 1 rows_two) "ABC" ALL ALL ALL "" = Some (Ok (take 1 rows_two)).
Proof.
  split; [reflexivity|].
  destruct (filter_keeps_a_sublist rows_two (take 1 rows_two) "ABC" ALL ALL ALL "")
    as [H _].
  destruct (H eq_refl) as (H1 & _ & H2). by split.
Defined.

(** X10. In [kaveh_books1.py] and [build_installer.py] a search text whose
    trimmed form has no special character is a literal substring test on
    the title, letters compared without case, with the trimmed text. *)
Theorem trimmed_plain_query_is_substring (dfb : list drow) (search : string) :
  plain (strip search) = true → strip search ≠ "" →
  Kaveh.apply_filters dfb ALL ALL ALL ALL search
  = Some (Ok (filter (λ r, contains_ci (strip search) (c_title r) = true) dfb)) ∧
  Installer._apply_filters_async dfb ALL ALL ALL ALL search
  = Some (Ok (filter (λ r, contains_ci (strip search) (c_title r) = true) dfb)).
Proof.
  intros Hq Hne.
  assert (spec_filter dfb ALL ALL ALL ALL (strip search)
          = Some (Ok (filter (λ r, contains_ci (strip search) (c_title r) = true) dfb)))
    as Hspec.
  { unfold spec_filter. rewrite decide_False by done. rewrite re_compile_plain by done.
    do 2 f_equal. apply list_filter_iff. intros r.
    rewrite re_search_literal. unfold dims_pass, dim_pass. tauto. }
  split.
  - rewrite Kaveh_apply_filters_spec. case_decide as Hnil; [by subst|].
    by rewrite <- Hspec.
  - rewrite Installer_filter_spec. by rewrite <- Hspec.
Qed.

Lemma trimmed_plain_query_is_substring_witness :
  plain (strip " guide ") = true ∧ strip " guide " ≠ "" ∧
  Kaveh.apply_filters rows_two ALL ALL ALL ALL " guide " = Some (Ok (drop 1 rows_two)) ∧
  Installer._apply_filters_async rows_two ALL ALL ALL ALL " guide "
  = Some (Ok (drop 1 rows_two)).
Proof.
  split; [reflexivity|]. split; [done|].
  apply (trimmed_plain_query_is_substring rows_two " guide "); [reflexivity|done].
Defined.

(** ** The entries of the combo boxes *)

Lemma insert_by_perm (key : string → string) (x : string) (l : list string) :
  insert_by key x l ≡ₚ x :: l.
Proof.
  induction l as [|y l IH]; simpl; [done|].
  case_decide; [done|]. rewrite IH. apply Permutation_swap.
Qed.

Lemma sort_by_perm (key : string → string) (l : list string) : sort_by key l ≡ₚ l.
Proof.
  induction l as [|x l IH]; simpl; [done|]. by rewrite insert_by_perm, IH.
Qed.

Lemma elem_of_values (series : list (option string)) (o : string) :
  o ∈ unique (dropna series) ↔ Some o ∈ series.
Proof. by rewrite elem_of_unique, elem_of_dropna. Qed.

Lemma dims_pass_only (t : table) (o : string) (r : drow) :
  dcol t r = Some o →
  dims_pass (only t o Brands) (only t o MachineTypes) (only t o Models)
    (only t o Languages) r.
Proof.
  intros Hr. unfold dims_pass, dim_pass, only.
  destruct t; simpl in Hr; repeat case_decide; try done; by split_and!.
Qed.

Lemma dims_pass_current_only (t : table) (o : string) (r : drow) :
  dcol t r = Some o →
  dims_pass (current (only t o Brands)) (current (only t o MachineTypes))
    (current (only t o Models)) (current (only t o Languages)) r.
Proof.
  intros Hr. unfold dims_pass, dim_pass, only, current.
  destruct t; simpl in Hr; repeat case_decide; try done; by split_and!.
Qed.

Lemma dims_pass_ALL (t : table) (r : drow) :
  dims_pass (only t ALL Brands) (only t ALL MachineTypes) (only t ALL Models)
    (only t ALL Languages) r ∧
  dims_pass (current (only t ALL Brands)) (current (only t ALL MachineTypes))
    (current (only t ALL Models)) (current (only t ALL Languages)) r.
Proof.
  unfold dims_pass, dim_pass, only, current.
  split; repeat case_decide; try done; by split_and!.
Qed.

Lemma filter_with (P : drow → Prop) `{∀ r, Decision (P r)} (l : list drow) (r : drow) :
  r ∈ l → P r → filter P l ≠ [].
Proof.
  intros Hr HP Hnil. assert (r ∈ filter P l) as Hin by (by apply list_elem_of_filter).
  rewrite Hnil in Hin. by apply elem_of_nil in Hin.
Qed.

Lemma option_selects (t : table) (o : string) (dfb : list drow) :
  dfb ≠ [] → o = ALL ∨ Some o ∈ dcol t <$> dfb →
  filter (dims_pass (only t o Brands) (only t o MachineTypes) (only t o Models)
            (only t o Languages)) dfb ≠ [] ∧
  filter (dims_pass (current (only t o Brands)) (current (only t o MachineTypes))
            (current (only t o Models)) (current (only t o Languages))) dfb ≠ [].
Proof.
  intros Hne [->|(r & Hr & Hin)%list_elem_of_fmap].
  - destruct dfb as [|r dfb]; [done|].
    split; apply (filter_with _ _ r); try (by left); apply dims_pass_ALL.
  - split; apply (filter_with _ _ r); try done.
    + by apply dims_pass_only.
    + by apply dims_pass_current_only.
Qed.

(** X11. The entries offered by the combo boxes are usable: in the three
    applications the first entry is "all", the other entries are the
    distinct non-null values of the column, each exactly once, and moving
    one combo box to any offered entry (the others on "all", no query)
    never gives an empty table on a frame that has rows. *)
Theorem offered_entries_select_rows (dfb : list drow) (t : table) (o : string) :
  dfb ≠ [] →
  (∀ opts, opts = AppView.options (dcol t <$> dfb) ∨
           opts = KavehView._update_filters dfb t ∨
           opts = InstallerView._update_filters dfb t →
     head opts = Some ALL ∧ NoDup (tail opts) ∧
     (∀ n, n ∈ tail opts ↔ Some n ∈ dcol t <$> dfb)) ∧
  (o ∈ AppView.options (dcol t <$> dfb) →
   ∃ out, App.filter_block dfb (only t o Brands) (only t o MachineTypes)
            (only t o Models) (only t o Languages) "" = Some (Ok out) ∧ out ≠ []) ∧
  (o ∈ KavehView._update_filters dfb t →
   ∃ out, Kaveh.apply_filters dfb (only t o Brands) (only t o MachineTypes)
            (only t o Models) (only t o Languages) "" = Some (Ok out) ∧ out ≠ []) ∧
  (o ∈ InstallerView._update_filters dfb t →
   ∃ out, Installer._apply_filters_async dfb (only t o Brands) (only t o MachineTypes)
            (only t o Models) (only t o Languages) "" = Some (Ok out) ∧ out ≠ []).
Proof.
  intros Hne.
  assert (KavehView._update_filters dfb t = AppView.options (dcol t <$> dfb)) as EK.
  { unfold KavehView._update_filters. by rewrite decide_True. }
  assert (InstallerView._update_filters dfb t
          = ALL :: sort_by strip (unique (dropna (dcol t <$> dfb)))) as EI.
  { unfold InstallerView._update_filters. by rewrite decide_False. }
  assert (∀ o, o ∈ AppView.options (dcol t <$> dfb) →
               o = ALL ∨ Some o ∈ dcol t <$> dfb) as HA.
  { intros o' [->|Ho]%elem_of_cons; [by left|]. right.
    by apply elem_of_values, elem_of_sorted. }
  assert (∀ o, o ∈ InstallerView._update_filters dfb t →
               o = ALL ∨ Some o ∈ dcol t <$> dfb) as HI.
  { intros o'. rewrite EI. intros [->|Ho]%elem_of_cons; [by left|]. right.
    apply elem_of_values. by rewrite <- (sort_by_perm strip). }
  split_and!.
  - intros opts [->|[->| ->]]; rewrite ?EK, ?EI; simpl.
    + split_and!; [done| |].
      * apply NoDup_sorted, NoDup_unique.
      * intros n. by rewrite elem_of_sorted, elem_of_values.
    + split_and!; [done| |].
      * apply NoDup_sorted, NoDup_unique.
      * intros n. by rewrite elem_of_sorted, elem_of_values.
    + split_and!; [done| |].
      * rewrite (sort_by_perm strip). apply NoDup_unique.
      * intros n. by rewrite (sort_by_perm strip), elem_of_values.
  - intros Ho%HA. rewrite App_filter_block_spec. unfold spec_filter.
    rewrite decide_True by done. eexists. split; [done|].
    by apply option_selects.
  - rewrite EK. intros Ho%HA. rewrite Kaveh_apply_filters_spec.
    rewrite decide_False by done. change (strip "") with "". unfold spec_filter.
    rewrite decide_True by done. eexists. split; [done|].
    by apply option_selects.
  - intros Ho%HI. rewrite Installer_filter_spec.
    change (strip "") with "". unfold spec_filter.
    rewrite decide_True by done. eexists. split; [done|].
    by apply option_selects.
Qed.

Lemma offered_entries_select_rows_witness :
  rows_two ≠ [] ∧ AppView.options (dcol Brands <$> rows_two) = [ALL; "ABC"; "XYZ"] ∧
  ∃ out, App.filter_block rows_two "XYZ" ALL ALL ALL "" = Some (Ok out) ∧ out ≠ [].
Proof.
  split; [done|]. split; [vm_compute; reflexivity|].
  destruct (offered_entries_select_rows rows_two Brands "XYZ") as (_ & H & _); [done|].
  apply H. vm_compute. set_solver.
Defined.

(** ** The ids given by the import *)

Lemma foldr_max_elem (i : Z) (l : list Z) : foldr Z.max i l ∈ i :: l.
Proof.
  induction l as [|j l IH]; simpl; [by left|].
  destruct (Z.max_spec j (foldr Z.max i l)) as [[_ ->]|[_ ->]].
  - apply elem_of_cons in IH as [->|IH]; [by left|]. right. by right.
  - right. by left.
Qed.

Lemma next_rowid_seqZ (n : nat) : next_rowid (seqZ 1 (Z.of_nat n)) = 1 + Z.of_nat n.
Proof.
  destruct (seqZ 1 (Z.of_nat n)) as [|i l] eqn:E.
  - apply (f_equal length) in E. rewrite length_seqZ in E. simpl in E.
    assert (n = 0%nat) as -> by lia. done.
  - pose proof (foldr_max_elem i l) as Hin. rewrite <- E in Hin.
    apply elem_of_seqZ in Hin.
    assert (Z.of_nat n ∈ seqZ 1 (Z.of_nat n)) as Hn.
    { apply elem_of_seqZ. apply (f_equal length) in E. rewrite length_seqZ in E.
      simpl in E. lia. }
    rewrite E in Hn. apply next_rowid_gt in Hn. unfold next_rowid in *. lia.
Qed.

Lemma numbered_ids (names : list string) :
  dim_id <$> numbered names = seqZ 1 (Z.of_nat (length names)).
Proof.
  unfold numbered. apply fmap_zip_with_l; [done|]. rewrite length_seqZ. lia.
Qed.

Lemma numbered_names (names : list string) : dim_name <$> numbered names = names.
Proof.
  unfold numbered. apply fmap_zip_with_r; [done|]. rewrite length_seqZ. lia.
Qed.

Lemma numbered_snoc (names : list string) (n : string) :
  numbered (names ++ [n]) = numbered names ++ [DimRow (1 + Z.of_nat (length names)) n].
Proof.
  unfold numbered. rewrite length_app. simpl. rewrite Nat.add_1_r, seqZ_S.
  rewrite zip_with_app; [done|]. rewrite length_seqZ. lia.
Qed.

Lemma intern_numbered (names : list string) :
  NoDup names → intern names [] = numbered names.
Proof.
  induction names as [|n names IH] using rev_ind; [done|].
  intros [Hnames [Hn _]]%NoDup_app. unfold intern. rewrite foldl_app. simpl.
  fold (intern names []). rewrite IH by done. unfold insert_name.
  rewrite numbered_names. rewrite decide_False.
  - by rewrite numbered_ids, next_rowid_seqZ, numbered_snoc.
  - intros Hin. apply (Hn n Hin). by left.
Qed.

Lemma put_books_ids (skip : string → bool) (rs : list row) (d d' : db) (k : nat) :
  put_books skip rs d = (d', Ok tt) → bk_id <$> books d = seqZ 1 (Z.of_nat k) →
  bk_id <$> books d' = seqZ 1 (Z.of_nat (k + length rs)).
Proof.
  revert d k. induction rs as [|r rs IH]; intros d k; simpl.
  - intros [= <-]. by rewrite Nat.add_0_r.
  - destruct (put_book skip r d) as [d1|e] eqn:Hput; [|done].
    intros Hrun Hd. replace (k + S (length rs))%nat with (S k + length rs)%nat by lia.
    apply (IH d1 (S k) Hrun). unfold put_book in Hput.
    destruct (py_int (book_id r)) as [n|]; [|done]. unfold insert_book in Hput.
    case_decide; [|done]. destruct (p_title _) as [t|]; [|done]. case_decide; [done|].
    destruct (fks_ok _ d); [|done]. injection Hput as <-. simpl.
    rewrite fmap_app, Hd, seqZ_S. simpl. by rewrite Hd, next_rowid_seqZ.
Qed.

Lemma import_store_numbered (skip : string → bool) (df : list row) (d' : db) :
  put_books skip df (dims_db skip df) = (d', Ok tt) →
  bk_id <$> books d' = seqZ 1 (Z.of_nat (length df)).
Proof. intros H. by apply (put_books_ids skip df _ d' 0 H). Qed.

Lemma dims_db_numbered (skip : string → bool) (df : list row) (t : table) :
  dim t (dims_db skip df) = numbered (dim_names skip (column t) df).
Proof.
  rewrite dims_db_dim.
  destruct t; simpl; apply intern_numbered, NoDup_dim_names.
Qed.

Lemma installer_dims_numbered (df : list row) (t : table) :
  dim t (installer_dims df) = numbered (unique (dropna (column t <$> df))).
Proof. destruct t; simpl; apply intern_numbered, NoDup_unique. Qed.

(** X12. The ids of the store are fixed by the sheet.  After an import of
    [app_one_tab_pro.py] or [kaveh_books1.py], successful or not, the rows
    of a dimension table are the names the import interns, in alphabetical
    order, with the ids 1, 2, ...; after a successful one the book rows are
    the sheet rows in sheet order with the ids 1 to N.  After a successful
    import of [build_installer.py] the names are numbered in the order of
    their first appearance in the column. *)
Theorem ids_number_from_one (xl : list raw_row) (store : db) (db_path : string)
    (k : Installer.cache) :
  let a := App.update_archive xl store in
  let kv := Kaveh.action_rebuild_from_excel xl store in
  let b := Installer.action_rebuild_from_excel xl db_path store k in
  (∀ t, dim t a.1
        = numbered (sorted (unique (dropna (column t <$> load_excel_to_df xl))))) ∧
  (∀ t, dim t kv.1
        = numbered (filter (λ n, n ≠ "")
                      (sorted (unique (dropna (column t <$> load_excel_to_df xl)))))) ∧
  (∀ out, a.2 = Ok out →
     bk_id <$> books a.1 = seqZ 1 (Z.of_nat (length xl)) ∧
     Numeric <$> (bk_book_id <$> books a.1) = x_book_id <$> xl) ∧
  (∀ out, kv.2 = Ok out →
     bk_id <$> books kv.1 = seqZ 1 (Z.of_nat (length xl)) ∧
     Numeric <$> (bk_book_id <$> books kv.1) = x_book_id <$> xl) ∧
  (∀ out, b.2 = Ok out →
     ∀ t, dim t b.1.1
          = numbered (unique (dropna (column t <$> Installer.load_excel_to_df xl)))).
Proof.
  simpl. split_and!.
  - intros t. rewrite App_update_archive_store.
    rewrite (run_import_dims App.get_id no_skip App_get_id_Some).
    rewrite dims_db_numbered. unfold dim_names. by rewrite filter_no_skip.
  - intros t. rewrite Kaveh_action_rebuild_store.
    rewrite (run_import_dims Kaveh.get_id skip_empty Kaveh_get_id_Some).
    rewrite dims_db_numbered. unfold dim_names. f_equal.
    apply list_filter_iff. intros n. unfold skip_empty.
    rewrite bool_decide_eq_false. done.
  - intros out. unfold App.update_archive. rewrite App_run_import.
    destruct (put_books no_skip _ _) as [d [[]|e]] eqn:Hput; [|done]. simpl. intros _.
    split.
    + rewrite (import_store_numbered _ _ _ Hput). unfold load_excel_to_df.
      by rewrite length_fmap.
    + by apply (put_books_Ok_sheet no_skip xl _ d Hput).
  - intros out. unfold Kaveh.action_rebuild_from_excel. rewrite Kaveh_run_import.
    destruct (put_books skip_empty _ _) as [d [[]|e]] eqn:Hput; [|done]. simpl.
    intros _. split.
    + rewrite (import_store_numbered _ _ _ Hput). unfold load_excel_to_df.
      by rewrite length_fmap.
    + by apply (put_books_Ok_sheet skip_empty xl _ d Hput).
  - intros out (data & _ & Hexec)%Installer_import_Ok t.
    rewrite (exec_all_replace_dim _ _ _ t Hexec). apply installer_dims_numbered.
Qed.

Lemma ids_number_from_one_witness :
  brands (App.update_archive sheet_two empty_db).1 = [DimRow 1 "ABC"; DimRow 2 "XYZ"] ∧
  bk_id <$> books (App.update_archive sheet_two empty_db).1 = [1; 2].
Proof.
  destruct (ids_number_from_one sheet_two empty_db "books_archive.db" [])
    as (H1 & _ & H2 & _).
  split.
  - exact (H1 Brands).
  - exact (proj1 (H2 _ eq_refl)).
Defined.

(** ** Dimension rows without a book *)

Lemma stores_fk_of (skip : string → bool) (d : db) (r : row) (b : book_row) (t : table) :
  stores skip d r b → fk_of t b = resolve skip t d (column t r).
Proof. intros (_ & _ & _ & _ & H1 & H2 & H3 & H4). by destruct t. Qed.

Lemma import_no_orphan (skip : string → bool) (df : list row) (d' : db) (t : table)
    (row : dim_row) :
  put_books skip df (dims_db skip df) = (d', Ok tt) → row ∈ dim t d' →
  ∃ b, b ∈ books d' ∧ fk_of t b = Some (dim_id row).
Proof.
  intros Hput Hrow.
  destruct (put_books_read_back skip _ _ Hput) as (Hd & _ & Hst & _ & _).
  rewrite Hd in Hrow.
  assert (dim_name row ∈ dim_names skip (column t) df) as Hn.
  { rewrite <- (numbered_names (dim_names skip (column t) df)),
      <- (dims_db_numbered skip df t).
    by apply list_elem_of_fmap_2. }
  apply elem_of_dim_names in Hn as (Hskip & r & Hr & Hcol).
  destruct (Forall2_elem_l _ _ _ r Hst Hr) as (b & Hb & Hstores).
  exists b. split; [done|]. rewrite (stores_fk_of _ _ _ _ t Hstores), Hcol. simpl.
  rewrite Hskip.
  destruct (select_id_present t (dim_name row) (dims_db skip df)) as [i Hi].
  { by apply list_elem_of_fmap_2. }
  rewrite Hi. f_equal. apply select_id_elem in Hi.
  destruct (dims_db_ok skip df t) as [_ Hnames].
  apply list_elem_of_lookup in Hi as [j Hj]. apply list_elem_of_lookup in Hrow as [j' Hj'].
  assert (j = j') as ->.
  { apply (NoDup_lookup _ _ _ (dim_name row) Hnames); rewrite list_lookup_fmap.
    - by rewrite Hj.
    - by rewrite Hj'. }
  rewrite Hj in Hj'. injection Hj' as <-. done.
Qed.

(** X13. A successful import of [app_one_tab_pro.py] or [kaveh_books1.py]
    leaves no dimension row without a book: every brand, machine type,
    model and language of the store is the value of at least one book. *)
Theorem successful_import_has_no_orphan (xl : list raw_row) (store : db)
    (out : list drow) (t : table) (row : dim_row) :
  let a := App.update_archive xl store in
  let kv := Kaveh.action_rebuild_from_excel xl store in
  (a.2 = Ok out → row ∈ dim t a.1 →
   ∃ b, b ∈ books a.1 ∧ fk_of t b = Some (dim_id row)) ∧
  (kv.2 = Ok out → row ∈ dim t kv.1 →
   ∃ b, b ∈ books kv.1 ∧ fk_of t b = Some (dim_id row)).
Proof.
  simpl. split.
  - unfold App.update_archive. rewrite App_run_import.
    destruct (put_books no_skip _ _) as [d [[]|e]] eqn:Hput; [|done]. simpl.
    intros _ Hrow. by apply (import_no_orphan _ _ _ _ _ Hput).
  - unfold Kaveh.action_rebuild_from_excel. rewrite Kaveh_run_import.
    destruct (put_books skip_empty _ _) as [d [[]|e]] eqn:Hput; [|done]. simpl.
    intros _ Hrow. by apply (import_no_orphan _ _ _ _ _ Hput).
Qed.

Lemma successful_import_has_no_orphan_witness :
  DimRow 2 "XYZ" ∈ dim Brands (App.update_archive sheet_two empty_db).1 ∧
  ∃ b, b ∈ books (App.update_archive sheet_two empty_db).1 ∧ fk_of Brands b = Some 2.
Proof.
  assert (DimRow 2 "XYZ" ∈ dim Brands (App.update_archive sheet_two empty_db).1) as H.
  { vm_compute. set_solver. }
  split; [exact H|].
  destruct (successful_import_has_no_orphan sheet_two empty_db
              (App.load_db_to_df (App.update_archive sheet_two empty_db).1)
              Brands (DimRow 2 "XYZ")) as [HA _].
  exact (HA eq_refl H).
Defined.

(** ** The round trip of [kaveh_books1.py] *)

(** X14. Importing a well-formed sheet whose catalog numbers lie in the
    signed 64-bit range with [kaveh_books1.py] succeeds from any prior
    store, and the frame then loaded has one row per sheet row, in
    ascending order of the catalog number: the number, the title, the two
    free columns and the four names of the cleaned row, except that a name
    that is the empty text reads back as null. *)
Theorem Kaveh_round_trip (xl : list raw_row) (store : db) :
  well_formed xl → in_range xl →
  ∃ store',
    Kaveh.action_rebuild_from_excel xl store = (store', Ok (Kaveh.load_db_to_df store')) ∧
    length (Kaveh.load_db_to_df store') = length xl ∧
    Some <$> Kaveh.load_db_to_df store'
    ≡ₚ read_back_with skip_empty <$> load_excel_to_df xl ∧
    Sorted Z.le (c_number <$> Kaveh.load_db_to_df store').
Proof.
  intros [Hrows Hnd]%well_formed_rows H64.
  destruct (put_books_success skip_empty (load_excel_to_df xl)
              (dims_db skip_empty (load_excel_to_df xl)) Hrows Hnd) as [d Hput].
  { intros n _ []%elem_of_nil. }
  { by apply in_range_numbers. }
  exists d. unfold Kaveh.action_rebuild_from_excel. rewrite Kaveh_run_import, Hput.
  destruct (put_books_read_back skip_empty _ _ Hput) as (Hd & _ & _ & _ & Hrb).
  assert (pk_unique d) as Hpk.
  { intros t. rewrite Hd. apply dims_db_pk. }
  destruct (read_names d Hpk) as [Hperm Hsorted]. unfold Kaveh.load_db_to_df.
  assert (Some <$> (select_names <$> from_joins d)
          ≡ₚ read_back_with skip_empty <$> load_excel_to_df xl) as Hall.
  { by rewrite Hperm, Hrb. }
  split_and!; [done| |done|done].
  apply Permutation_length in Hall. rewrite !length_fmap in Hall.
  rewrite length_fmap, Hall. unfold load_excel_to_df. by rewrite length_fmap.
Qed.

Lemma Kaveh_round_trip_witness :
  well_formed sheet_blank ∧ in_range sheet_blank ∧
  ∃ store',
    Kaveh.action_rebuild_from_excel sheet_blank empty_db
    = (store', Ok (Kaveh.load_db_to_df store')) ∧
    length (Kaveh.load_db_to_df store') = length sheet_blank ∧
    Some <$> Kaveh.load_db_to_df store'
    ≡ₚ read_back_with skip_empty <$> load_excel_to_df sheet_blank ∧
    Sorted Z.le (c_number <$> Kaveh.load_db_to_df store').
Proof.
  assert (well_formed sheet_blank) as H.
  { split_and!.
    - intros x Hx. set_unfold in Hx. destruct Hx as [->|[]]; by eexists.
    - vm_compute. repeat constructor; set_solver.
    - intros x Hx. set_unfold in Hx. destruct Hx as [->|[]]; by vm_compute. }
  assert (in_range sheet_blank) as H64.
  { intros x n Hx Hn. set_unfold in Hx. destruct Hx as [->|[]].
    injection Hn as <-. by vm_compute. }
  split; [exact H|]. split; [exact H64|].
  exact (Kaveh_round_trip sheet_blank empty_db H H64).
Defined.

(** ** The thumbnail cache of [build_installer.py] *)

Lemma list_remove_Some (x : string) (l l' : list string) :
  ImageCache.list_remove x l = Some l' → l ≡ₚ x :: l'.
Proof.
  revert l'. induction l as [|y l IH]; intros l'; simpl; [done|].
  case_decide as Hy.
  - intros [= <-]. by subst.
  - destruct (ImageCache.list_remove x l) as [q|]; [|done]. simpl.
    intros [= <-]. rewrite (IH q eq_refl). apply Permutation_swap.
Qed.

Lemma list_remove_elem (x : string) (l : list string) :
  x ∈ l → is_Some (ImageCache.list_remove x l).
Proof.
  induction l as [|y l IH]; simpl; [by intros []%elem_of_nil|].
  intros [->|Hx]%elem_of_cons.
  - rewrite decide_True by done. by eexists.
  - case_decide; [by eexists|]. destruct (IH Hx) as [q ->]. by eexists.
Qed.

Lemma cache_size {QPixmap} (c : ImageCache.t QPixmap) :
  ImageCache.inv c → size (ImageCache.thumbnails c) = length (ImageCache.lru_queue c).
Proof.
  intros (Hnd & Hdom & _).
  rewrite <- (size_dom (D := gset string)), <- (size_list_to_set (C := gset string)) by done.
  f_equal. apply set_eq. intros k. by rewrite elem_of_dom, elem_of_list_to_set, Hdom.
Qed.

(** X15. [ImageCache.get_thumbnail] keeps the thumbnail cache coherent.
    On a cache whose queue lists the cached keys once each and that holds at
    most 500 thumbnails, a call never raises (the [remove], [pop] and [del]
    always find their key) and leaves such a cache; a key that is cached
    returns its stored picture without changing the dictionary; a picture
    that is returned is cached under the key, which becomes the most recent
    one; and the only entry a call can drop is the one at the head of the
    queue, the least recently used. *)
Theorem get_thumbnail_keeps_cache {QPixmap} (c : ImageCache.t QPixmap)
    (image_path : string) (sz : Z * Z) (created : option QPixmap) :
  ImageCache.inv c →
  ∃ c' r,
    ImageCache.get_thumbnail image_path sz created c = inr (c', r) ∧
    ImageCache.inv c' ∧
    (∀ pix, ImageCache.thumbnails c !! ImageCache.key_of image_path sz = Some pix →
            r = Some pix ∧ ImageCache.thumbnails c' = ImageCache.thumbnails c) ∧
    (is_Some r →
       ImageCache.thumbnails c' !! ImageCache.key_of image_path sz = r ∧
       last (ImageCache.lru_queue c') = Some (ImageCache.key_of image_path sz)) ∧
    (∀ k, is_Some (ImageCache.thumbnails c !! k) →
          ImageCache.thumbnails c' !! k = None →
          head (ImageCache.lru_queue c) = Some k).
Proof.
  intros Hinv. pose proof (cache_size c Hinv) as Hsize.
  destruct Hinv as (Hnd & Hdom & Hmax).
  unfold ImageCache.get_thumbnail. set (key := ImageCache.key_of image_path sz).
  destruct (ImageCache.thumbnails c !! key) as [pix|] eqn:Hkey.
  - assert (key ∈ ImageCache.lru_queue c) as Hin by (apply Hdom; by eexists).
    destruct (list_remove_elem key _ Hin) as [q Hq]. rewrite Hq.
    pose proof (list_remove_Some _ _ _ Hq) as Hperm.
    eexists _, _. split; [done|]. simpl. split_and!.
    + split_and!; simpl; [| |done].
      * rewrite Hperm in Hnd. apply NoDup_cons in Hnd as [Hk Hq'].
        apply NoDup_app. split_and!; [done| |apply NoDup_singleton].
        intros k Hk1 ->%list_elem_of_singleton. done.
      * intros k. rewrite <- Hdom, Hperm. set_solver.
    + by intros pix' [= <-].
    + intros _. by rewrite last_snoc.
    + intros k [x Hx] Hnone. congruence.
  - destruct created as [thumbnail|].
    + assert (key ∉ ImageCache.lru_queue c) as Hfresh.
      { intros [x Hx]%Hdom. congruence. }
      assert (size (<[key:=thumbnail]> (ImageCache.thumbnails c))
              = S (length (ImageCache.lru_queue c))) as Hsz.
      { by rewrite map_size_insert_None, Hsize. }
      case_decide as Hfull.
      * destruct (ImageCache.lru_queue c) as [|oldest rest] eqn:Hqueue.
        { rewrite Hsz in Hfull. unfold ImageCache.max_cache_size in *. simpl in *.
          lia. }
        simpl.
        assert (oldest ≠ key) as Hne.
        { intros ->. apply Hfresh. by left. }
        rewrite lookup_insert_ne by done.
        destruct (ImageCache.thumbnails c !! oldest) as [old|] eqn:Hold.
        2:{ destruct (proj1 (Hdom oldest)) as [x Hx]; [by left|]. congruence. }
        apply NoDup_cons in Hnd as [Hold_fresh Hrest].
        eexists _, _. split; [done|]. simpl. split_and!.
        -- split_and!; simpl.
           ++ apply NoDup_app. split_and!; [done| |apply NoDup_singleton].
              intros k Hk ->%list_elem_of_singleton. apply Hfresh. by right.
           ++ intros k. destruct (decide (k = oldest)) as [->|Hk].
              ** rewrite lookup_delete_eq. split; [|by intros [? ?]].
                 intros [?|?%list_elem_of_singleton]%elem_of_app; done.
              ** rewrite lookup_delete_ne by done.
                 rewrite lookup_insert_is_Some, <- Hdom. set_solver.
           ++ rewrite map_size_delete_Some.
              ** rewrite Hsz. rewrite Hsize in Hmax. simpl in *. lia.
              ** rewrite lookup_insert_ne by done. by eexists.
        -- intros pix. by rewrite Hkey || congruence.
        -- intros _. split; [|by rewrite last_snoc].
           rewrite lookup_delete_ne by done. by rewrite lookup_insert_eq.
        -- intros k [x Hx] Hnone. destruct (decide (k = oldest)) as [->|Hk]; [done|].
           rewrite lookup_delete_ne in Hnone by done.
           destruct (decide (k = key)) as [->|Hk']; [congruence|].
           rewrite lookup_insert_ne in Hnone by done. congruence.
      * eexists _, _. split; [done|]. simpl. split_and!.
        -- split_and!; simpl.
           ++ apply NoDup_app. split_and!; [done| |apply NoDup_singleton].
              intros k Hk ->%list_elem_of_singleton. done.
           ++ intros k. rewrite lookup_insert_is_Some, <- Hdom.
              destruct (decide (key = k)); set_solver.
           ++ lia.
        -- intros pix. congruence.
        -- intros _. split; [by rewrite lookup_insert_eq|by rewrite last_snoc].
        -- intros k [x Hx] Hnone. destruct (decide (k = key)) as [->|Hk]; [congruence|].
           rewrite lookup_insert_ne in Hnone by done. congruence.
    + eexists _, _. split; [done|]. split_and!; [done| | |].
      * intros pix. congruence.
      * by intros [? ?].
      * intros k [x Hx] Hnone. congruence.
Qed.

Lemma init_cache_inv {QPixmap} : ImageCache.inv (@ImageCache._init_cache QPixmap).
Proof.
  split_and!; simpl.
  - apply NoDup_nil_2.
  - intros k. rewrite lookup_empty. split; [by intros []%elem_of_nil|by intros [? ?]].
  - rewrite map_size_empty. lia.
Defined.

Lemma get_thumbnail_keeps_cache_witness :
  ImageCache.inv (@ImageCache._init_cache unit) ∧
  ∃ c' r,
    ImageCache.get_thumbnail "pics/7.jpg" (240, 140) (Some tt) ImageCache._init_cache
    = inr (c', r) ∧ ImageCache.inv c'.
Proof.
  split; [apply init_cache_inv|].
  destruct (get_thumbnail_keeps_cache (@ImageCache._init_cache unit)
              "pics/7.jpg" (240, 140) (Some tt) init_cache_inv)
    as (c' & r & H1 & H2 & _).
  exists c', r. split; [exact H1|exact H2].
Defined.

(** ** The archive page after an update *)

Lemma load_no_books (d : db) : books d = [] → App.load_db_to_df d = [].
Proof. unfold App.load_db_to_df, from_joins. by intros ->. Qed.

(** X16. In [app_one_tab_pro.py] a failed update is not seen on the archive
    page of a session that had loaded the archive: the update leaves the
    [books] table empty, so a fresh session shows an empty table, but the
    session keeps its frame and the archive page goes on showing the books
    of the old archive.  After a successful update the page shows the frame
    read from the new store. *)
Theorem failed_update_keeps_old_frame (xl : list raw_row) (store : db)
    (df0 : list drow) :
  let after := AppPage.update_page xl store (Some df0) in
  ((∃ e, (App.update_archive xl store).2 = Raise e) →
   (AppPage.archive_page true after.1 after.2).2 = Some df0 ∧
   (AppPage.archive_page true after.1 None).2 = Some []) ∧
  ((∃ out, (App.update_archive xl store).2 = Ok out) →
   (AppPage.archive_page true after.1 after.2).2 = Some (App.load_db_to_df after.1) ∧
   (AppPage.archive_page true after.1 None).2 = Some (App.load_db_to_df after.1)).
Proof.
  simpl. unfold AppPage.update_page.
  unfold App.update_archive. rewrite App_run_import.
  destruct (put_books no_skip _ _) as [d [[]|e]] eqn:Hput; simpl.
  - split; [by intros [? ?]|]. done.
  - split; [|by intros [? ?]]. intros _. split; [done|].
    unfold AppPage.archive_page. simpl. by rewrite load_no_books.
Qed.

Lemma failed_update_keeps_old_frame_witness :
  (∃ e, (App.update_archive sheet_twice store_two).2 = Raise e) ∧
  (AppPage.archive_page true (AppPage.update_page sheet_twice store_two (Some rows_two)).1
     (AppPage.update_page sheet_twice store_two (Some rows_two)).2).2 = Some rows_two ∧
  (AppPage.archive_page true (AppPage.update_page sheet_twice store_two (Some rows_two)).1
     None).2 = Some [].
Proof.
  assert (∃ e, (App.update_archive sheet_twice store_two).2 = Raise e) as H.
  { by exists IntegrityError. }
  split; [exact H|].
  exact (proj1 (failed_update_keeps_old_frame sheet_twice store_two rows_two) H).
Defined.

(** ** The pictures of a book *)

#[global] Instance str_le_total : Total str_le.
Proof. intros s1 s2. apply String.leb_total. Qed.

#[global] Instance str_le_antisymm : AntiSymm (=) str_le.
Proof. intros s1 s2. apply String.leb_antisym. Qed.

Lemma ascii_compare_trans (a b c : ascii) :
  Ascii.compare a b ≠ Gt → Ascii.compare b c ≠ Gt →
  Ascii.compare a c ≠ Gt ∧
  (Ascii.compare a c = Eq → Ascii.compare a b = Eq ∧ Ascii.compare b c = Eq).
Proof.
  unfold Ascii.compare. rewrite !N.compare_eq_iff, !N.compare_gt_iff. lia.
Qed.

Lemma string_compare_trans (s1 s2 s3 : string) :
  String.compare s1 s2 ≠ Gt → String.compare s2 s3 ≠ Gt → String.compare s1 s3 ≠ Gt.
Proof.
  revert s2 s3. induction s1 as [|a s1 IH]; intros [|b s2] [|c s3]; simpl; try done.
  intros H1 H2.
  destruct (ascii_compare_trans a b c) as [Hac Heq].
  { by destruct (Ascii.compare a b). }
  { by destruct (Ascii.compare b c). }
  destruct (Ascii.compare a c) eqn:Eac; [|done|done].
  destruct (Heq eq_refl) as [Eab Ebc]. rewrite Eab in H1. rewrite Ebc in H2.
  by apply (IH s2 s3).
Qed.

#[global] Instance str_le_trans : Transitive str_le.
Proof.
  intros s1 s2 s3. unfold str_le, String.leb. intros H1 H2.
  pose proof (string_compare_trans s1 s2 s3) as H.
  destruct (String.compare s1 s2); [| |done];
    (destruct (String.compare s2 s3); [| |done]);
    (destruct (String.compare s1 s3); [done|done|]); exfalso; by apply H.
Qed.

Lemma sorted_perm (l k : list string) : l ≡ₚ k → sorted l = sorted k.
Proof.
  intros Hperm. unfold sorted. apply (Sorted_unique str_le).
  - apply Sorted_merge_sort, _.
  - apply Sorted_merge_sort, _.
  - by rewrite !merge_sort_Permutation.
Qed.

Lemma bind_perm_ext {A B} (f g : A → list B) (l : list A) :
  (∀ x, f x ≡ₚ g x) → l ≫= f ≡ₚ l ≫= g.
Proof.
  intros H. induction l as [|x l IH]; [done|]. simpl. by rewrite H, IH.
Qed.

Section pictures.
Context {path : Type} `{EqDecision path}.
Variable str_path : path → string.
Variable div : path → string → path.
Variable PICS_DIR PICS_DIR_INSTALL : path.

Lemma file_names_perm (exts exts' : list string) (book_id : string) :
  exts ≡ₚ exts' →
  Pictures.file_names exts book_id ≡ₚ Pictures.file_names exts' book_id.
Proof.
  intros Hperm. unfold Pictures.file_names. f_equiv.
  - by rewrite Hperm.
  - apply bind_perm_ext. intros i. by rewrite Hperm.
Qed.

Lemma existing_Some (F : Pictures.fs) (ps l : list path) :
  Pictures.existing F ps = Some l ↔
  Forall (λ p, is_Some (Pictures.exists_ F p)) ps ∧
  l = filter (λ p, Pictures.exists_ F p = Some true) ps.
Proof.
  revert l. induction ps as [|p ps IH]; intros l; simpl.
  - split; [by intros [= <-]|by intros [_ ->]].
  - destruct (Pictures.exists_ F p) as [b|] eqn:Hp; simpl.
    + destruct (Pictures.existing F ps) as [k|]; simpl.
      * destruct (IH k) as [[Hall ->] _]; [done|]. split.
        -- intros [= <-]. split; [constructor; [by eexists|done]|].
           destruct b; [by rewrite filter_cons_True|
                        rewrite filter_cons_False; [done|congruence]].
        -- intros [_ ->]. f_equal.
           destruct b; [by rewrite filter_cons_True|
                        rewrite filter_cons_False; [done|congruence]].
      * split; [done|]. intros [[_ Hall]%Forall_cons _].
        discriminate (proj2 (IH _) (conj Hall eq_refl)).
    + split; [done|]. intros [[[? ?] _]%Forall_cons _]. congruence.
Qed.

Lemma existing_perm (F : Pictures.fs) (ps ps' : list path) :
  ps ≡ₚ ps' →
  option_Forall2 (≡ₚ) (Pictures.existing F ps) (Pictures.existing F ps').
Proof.
  intros Hperm.
  destruct (Pictures.existing F ps) as [l|] eqn:E;
    destruct (Pictures.existing F ps') as [l'|] eqn:E'; [|exfalso..|constructor].
  - apply existing_Some in E as [_ ->]. apply existing_Some in E' as [_ ->].
    constructor. by rewrite Hperm.
  - apply existing_Some in E as [Hall _]. rewrite Hperm in Hall.
    by rewrite (proj2 (existing_Some F ps' _) (conj Hall eq_refl)) in E'.
  - apply existing_Some in E' as [Hall _]. rewrite <- Hperm in Hall.
    by rewrite (proj2 (existing_Some F ps _) (conj Hall eq_refl)) in E.
Qed.

Lemma found_in_perm (exts exts' : list string) (F : Pictures.fs) (dir : path)
    (book_id : string) :
  exts ≡ₚ exts' →
  option_Forall2 (≡ₚ) (Pictures.found_in str_path div exts F dir book_id)
    (Pictures.found_in str_path div exts' F dir book_id).
Proof.
  intros Hperm. unfold Pictures.found_in.
  destruct (existing_perm F (div dir <$> Pictures.file_names exts book_id)
              (div dir <$> Pictures.file_names exts' book_id)) as [l k Hlk|]; simpl.
  - by rewrite (file_names_perm exts exts' book_id Hperm).
  - constructor. by rewrite Hlk.
  - constructor.
Qed.

Lemma search_subdirs_perm (exts exts' : list string) (F : Pictures.fs)
    (entries : list path) (book_id : string) :
  exts ≡ₚ exts' →
  option_Forall2 (≡ₚ) (Pictures.search_subdirs str_path div exts F entries book_id)
    (Pictures.search_subdirs str_path div exts' F entries book_id).
Proof.
  intros Hperm. induction entries as [|sub entries IH]; simpl; [by constructor|].
  destruct (Pictures.is_dir F sub) as [[]|]; simpl; [| |constructor].
  - destruct (found_in_perm exts exts' F sub book_id Hperm) as [l k Hlk|]; simpl;
      [|constructor].
    destruct IH as [l' k' Hlk'|]; simpl; constructor. by rewrite Hlk, Hlk'.
  - destruct IH as [l' k' Hlk'|]; simpl; by constructor.
Qed.

Lemma search_all_perm (exts exts' : list string) (F : Pictures.fs) (dirs : list path)
    (book_id : string) :
  exts ≡ₚ exts' →
  option_Forall2 (≡ₚ) (Pictures.search_all str_path div exts F dirs book_id)
    (Pictures.search_all str_path div exts' F dirs book_id).
Proof.
  intros Hperm. induction dirs as [|d dirs IH]; simpl; [by constructor|].
  unfold Pictures.search.
  destruct (found_in_perm exts exts' F d book_id Hperm) as [l k Hlk|]; simpl;
    [|constructor].
  destruct (Pictures.iterdir F d) as [entries|]; simpl; [|constructor].
  destruct (search_subdirs_perm exts exts' F entries book_id Hperm) as [l1 k1 Hlk1|];
    simpl; [|constructor].
  destruct IH as [l' k' Hlk'|]; simpl; constructor. by rewrite Hlk, Hlk1, Hlk'.
Qed.

Lemma found_in_is_Some (exts : list string) (F : Pictures.fs) (dir : path)
    (book_id : string) :
  is_Some (Pictures.found_in str_path div exts F dir book_id) ↔
  Pictures.probes_answer div exts F dir book_id.
Proof.
  unfold Pictures.found_in, Pictures.probes_answer. split.
  - intros [l Hl] n Hn.
    destruct (Pictures.existing F _) as [k|] eqn:E; [|done].
    apply existing_Some in E as [Hall _]. rewrite Forall_forall in Hall.
    apply Hall. by apply list_elem_of_fmap_2.
  - intros Hall.
    assert (Forall (λ p, is_Some (Pictures.exists_ F p))
              (div dir <$> Pictures.file_names exts book_id)) as Hps.
    { apply Forall_forall. intros p (n & -> & Hn)%list_elem_of_fmap. by apply Hall. }
    rewrite (proj2 (existing_Some F _ _) (conj Hps eq_refl)). by eexists.
Qed.

Lemma found_in_elem (exts : list string) (F : Pictures.fs) (dir : path)
    (book_id s : string) (images : list string) :
  Pictures.found_in str_path div exts F dir book_id = Some images →
  s ∈ images ↔
  ∃ n, n ∈ Pictures.file_names exts book_id ∧
       Pictures.exists_ F (div dir n) = Some true ∧ s = str_path (div dir n).
Proof.
  unfold Pictures.found_in.
  destruct (Pictures.existing F _) as [k|] eqn:E; [|done]. simpl. intros [= <-].
  apply existing_Some in E as [_ ->]. rewrite list_elem_of_fmap. split.
  - intros (p & -> & [Hex (n & -> & Hn)%list_elem_of_fmap]%list_elem_of_filter).
    by exists n.
  - intros (n & Hn & Hex & ->). exists (div dir n). split; [done|].
    apply list_elem_of_filter. split; [done|]. by apply list_elem_of_fmap_2.
Qed.

Lemma search_subdirs_is_Some (exts : list string) (F : Pictures.fs)
    (entries : list path) (book_id : string) :
  is_Some (Pictures.search_subdirs str_path div exts F entries book_id) ↔
  ∀ subdir, subdir ∈ entries →
    ∃ b, Pictures.is_dir F subdir = Some b ∧
         (b = true → Pictures.probes_answer div exts F subdir book_id).
Proof.
  induction entries as [|sub entries IH]; simpl.
  - split; [by intros _ ? []%elem_of_nil|by eexists].
  - split.
    + intros [l Hl] subdir Hin.
      destruct (Pictures.is_dir F sub) as [b|] eqn:Hb; [|done]. simpl in Hl.
      destruct (if b then _ else _) as [here|] eqn:Hhere; [|done]. simpl in Hl.
      destruct (Pictures.search_subdirs _ _ _ _ entries _) as [rest|]; [|done].
      apply elem_of_cons in Hin as [->|Hin]; [|by apply IH].
      exists b. split; [done|]. intros ->. apply found_in_is_Some. by eexists.
    + intros Hall. destruct (Hall sub ltac:(left)) as (b & -> & Hb). simpl.
      assert (is_Some (if b then Pictures.found_in str_path div exts F sub book_id
                       else Some [])) as [here ->].
      { destruct b; [|by eexists]. apply found_in_is_Some. by apply Hb. }
      simpl. destruct (proj2 IH) as [rest ->]; [|by eexists].
      intros subdir Hin. apply Hall. by right.
Qed.

Lemma search_subdirs_elem (exts : list string) (F : Pictures.fs)
    (entries : list path) (book_id s : string) (images : list string) :
  Pictures.search_subdirs str_path div exts F entries book_id = Some images →
  s ∈ images ↔
  ∃ dir n, dir ∈ entries ∧ Pictures.is_dir F dir = Some true ∧
           n ∈ Pictures.file_names exts book_id ∧
           Pictures.exists_ F (div dir n) = Some true ∧ s = str_path (div dir n).
Proof.
  revert images. induction entries as [|sub entries IH]; intros images; simpl.
  - intros [= <-]. split; [by intros []%elem_of_nil|].
    by intros (? & ? & []%elem_of_nil & _).
  - destruct (Pictures.is_dir F sub) as [b|] eqn:Hb; [|done]. simpl.
    destruct (if b then _ else _) as [here|] eqn:Hhere; [|done]. simpl.
    destruct (Pictures.search_subdirs _ _ _ _ entries _) as [rest|]; [|done]. simpl.
    intros [= <-]. rewrite elem_of_app, (IH rest eq_refl). split.
    + intros [Hs|(dir & n & Hin & Hrest)].
      * destruct b; [|injection Hhere as <-; by apply elem_of_nil in Hs].
        apply (found_in_elem _ _ _ _ _ _ Hhere) in Hs as (n & Hn & Hex & ->).
        exists sub, n. split_and!; [by left|done..].
      * exists dir, n. split; [by right|done].
    + intros (dir & n & [->|Hin]%elem_of_cons & Hd & Hn & Hex & ->).
      * left. rewrite Hb in Hd. injection Hd as ->.
        apply (found_in_elem _ _ _ _ _ _ Hhere). by exists n.
      * right. by exists dir, n.
Qed.

Lemma search_is_Some (exts : list string) (F : Pictures.fs) (base : path)
    (book_id : string) :
  is_Some (Pictures.search str_path div exts F base book_id) ↔
  Pictures.readable div exts F base book_id.
Proof.
  unfold Pictures.search, Pictures.readable. split.
  - intros [l Hl].
    destruct (Pictures.found_in _ _ _ _ base _) as [here|] eqn:Hhere; [|done].
    simpl in Hl. destruct (Pictures.iterdir F base) as [entries|]; [|done].
    simpl in Hl.
    destruct (Pictures.search_subdirs _ _ _ _ entries _) as [below|] eqn:Hbelow; [|done].
    split; [apply found_in_is_Some; by eexists|]. exists entries. split; [done|].
    apply search_subdirs_is_Some. by eexists.
  - intros [[here ->]%found_in_is_Some (entries & -> & [below Hbelow]%search_subdirs_is_Some)].
    simpl. rewrite Hbelow. by eexists.
Qed.

Lemma search_all_is_Some (exts : list string) (F : Pictures.fs) (dirs : list path)
    (book_id : string) :
  is_Some (Pictures.search_all str_path div exts F dirs book_id) ↔
  ∀ base, base ∈ dirs → Pictures.readable div exts F base book_id.
Proof.
  induction dirs as [|d dirs IH]; simpl.
  - split; [by intros _ ? []%elem_of_nil|by eexists].
  - split.
    + intros [l Hl] base Hin.
      destruct (Pictures.search _ _ _ _ d _) as [here|] eqn:Hhere; [|done]. simpl in Hl.
      destruct (Pictures.search_all _ _ _ _ dirs _) as [rest|]; [|done].
      apply elem_of_cons in Hin as [->|Hin]; [|by apply IH].
      apply search_is_Some. by eexists.
    + intros Hall. destruct (proj2 (search_is_Some exts F d book_id)) as [here ->].
      { apply Hall. by left. }
      simpl. destruct (proj2 IH) as [rest ->]; [|by eexists].
      intros base Hin. apply Hall. by right.
Qed.

Lemma search_all_elem (exts : list string) (F : Pictures.fs) (dirs : list path)
    (book_id s : string) (images : list string) :
  Pictures.search_all str_path div exts F dirs book_id = Some images →
  s ∈ images ↔
  ∃ base dir n,
    base ∈ dirs ∧
    (dir = base ∨
     ∃ entries, Pictures.iterdir F base = Some entries ∧ dir ∈ entries ∧
                Pictures.is_dir F dir = Some true) ∧
    n ∈ Pictures.file_names exts book_id ∧
    Pictures.exists_ F (div dir n) = Some true ∧ s = str_path (div dir n).
Proof.
  revert images. induction dirs as [|d dirs IH]; intros images; simpl.
  - intros [= <-]. split; [by intros []%elem_of_nil|].
    by intros (? & ? & ? & []%elem_of_nil & _).
  - unfold Pictures.search.
    destruct (Pictures.found_in _ _ _ _ d _) as [here|] eqn:Hhere; [|done]. simpl.
    destruct (Pictures.iterdir F d) as [entries|] eqn:Hit; [|done]. simpl.
    destruct (Pictures.search_subdirs _ _ _ _ entries _) as [below|] eqn:Hbelow; [|done].
    simpl. destruct (Pictures.search_all _ _ _ _ dirs _) as [rest|]; [|done]. simpl.
    intros [= <-]. rewrite !elem_of_app, (IH rest eq_refl),
      (found_in_elem _ _ _ _ _ _ Hhere), (search_subdirs_elem _ _ _ _ _ _ Hbelow).
    split.
    + intros [[(n & Hn & Hex & ->)|(dir & n & Hin & Hd & Hn & Hex & ->)]
             |(base & dir & n & Hbase & Hrest)].
      * exists d, d, n. split_and!; [by left|by left|done..].
      * exists d, dir, n. split_and!; [by left| |done..]. right. by exists entries.
      * exists base, dir, n. split; [by right|done].
    + intros (base & dir & n & [->|Hbase]%elem_of_cons & Hdir & Hn & Hex & ->).
      * left. destruct Hdir as [->|(en & Hen & Hin & Hd)]; [left; by exists n|].
        right. rewrite Hit in Hen. injection Hen as <-. by exists dir, n.
      * right. by exists base, dir, n.
Qed.

Lemma search_dirs_elem (F : Pictures.fs) (e e' : bool) (d : path) :
  Pictures.exists_ F PICS_DIR = Some e → Pictures.exists_ F PICS_DIR_INSTALL = Some e' →
  d ∈ (if e' then
         if decide (PICS_DIR_INSTALL ∈ (if e then [PICS_DIR] else []))
         then if e then [PICS_DIR] else []
         else (if e then [PICS_DIR] else []) ++ [PICS_DIR_INSTALL]
       else if e then [PICS_DIR] else []) ↔
  d ∈ [PICS_DIR; PICS_DIR_INSTALL] ∧ Pictures.exists_ F d = Some true.
Proof.
  intros E1 E2. destruct e, e'; repeat case_decide; set_unfold; naive_solver congruence.
Qed.

(** X17. [find_book_images_fast] answers from its memo: when a call returns,
    a second call for the same catalog number returns the same list and
    leaves the memo as it is, whatever has happened to the picture files in
    between.  A call raises exactly when the number is not in the memo and
    the probe of one of the two search directories raises, and then the memo
    is left as it is.  On a first call that returns, the list is sorted and
    does not depend on the order in which the set of extensions is iterated,
    and each of its entries is a picture of the book: a path [dir / name]
    that exists, for [name] a file name of the number and [dir] a search
    directory that exists or an entry of its listing that is a directory.
    When the search of the existing search directories meets no error, the
    list holds every picture of the book; when it meets one, the list is
    empty. *)
Theorem find_book_images_memo (exts : list string) (F F' : Pictures.fs)
    (book_id : string) (cache : gmap string (list string)) :
  let find := Pictures.find_book_images_fast str_path div PICS_DIR PICS_DIR_INSTALL in
  let picture := Pictures.picture str_path div PICS_DIR PICS_DIR_INSTALL exts F book_id in
  let no_error :=
    ∀ base, base ∈ [PICS_DIR; PICS_DIR_INSTALL] → Pictures.exists_ F base = Some true →
            Pictures.readable div exts F base book_id in
  (∀ images, (find exts F book_id cache).1 = Some images →
     find exts F' book_id (find exts F book_id cache).2
     = (Some images, (find exts F book_id cache).2)) ∧
  ((find exts F book_id cache).1 = None ↔
   cache !! book_id = None ∧
   (Pictures.exists_ F PICS_DIR = None ∨ Pictures.exists_ F PICS_DIR_INSTALL = None)) ∧
  ((find exts F book_id cache).1 = None → (find exts F book_id cache).2 = cache) ∧
  (∀ images, cache !! book_id = None → (find exts F book_id cache).1 = Some images →
     Sorted str_le images ∧
     (∀ exts', exts ≡ₚ exts' → find exts' F book_id cache = find exts F book_id cache) ∧
     (∀ s, s ∈ images → picture s) ∧
     (no_error → ∀ s, picture s → s ∈ images) ∧
     (¬ no_error → images = [])).
Proof.
  simpl. unfold Pictures.find_book_images_fast.
  destruct (cache !! book_id) as [cached|] eqn:Hc.
  { split_and!; [|split; [done|by intros [? _]]|done|done].
    intros images. simpl. intros [= <-]. by rewrite Hc. }
  destruct (Pictures.exists_ F PICS_DIR) as [e|] eqn:E1.
  2:{ split_and!; [done|split; [by auto|done]|done|done]. }
  destruct (Pictures.exists_ F PICS_DIR_INSTALL) as [e'|] eqn:E2.
  2:{ split_and!; [done|split; [by auto|done]|done|done]. }
  pose proof (λ d, search_dirs_elem F e e' d E1 E2) as Hdirs.
  set (dirs := if e' then _ else _) in *.
  split_and!.
  - intros images Himages.
    case_decide; [|destruct (Pictures.search_all _ _ _ _ dirs _)];
      simpl in *; injection Himages as <-; by rewrite lookup_insert_eq.
  - split; [|by intros [_ [|]]].
    case_decide; [done|]. by destruct (Pictures.search_all _ _ _ _ dirs _).
  - case_decide; [done|]. by destruct (Pictures.search_all _ _ _ _ dirs _).
  - intros images _ Himages. split_and!.
    + case_decide; [simpl in *; injection Himages as <-; constructor|].
      destruct (Pictures.search_all _ _ _ _ dirs _); simpl in *;
        injection Himages as <-; [|constructor].
      apply Sorted_merge_sort, _.
    + intros exts' Hperm. case_decide; [done|].
      destruct (search_all_perm exts exts' F dirs book_id Hperm) as [l k Hlk|]; [|done].
      by rewrite (sorted_perm l k Hlk).
    + intros s Hs. case_decide.
      { simpl in *. injection Himages as <-. by apply elem_of_nil in Hs. }
      destruct (Pictures.search_all _ _ _ _ dirs _) as [l|] eqn:Hall; simpl in *;
        injection Himages as <-; [|by apply elem_of_nil in Hs].
      apply elem_of_sorted, (search_all_elem _ _ _ _ _ _ Hall) in Hs
        as (base & dir & n & [Hbase Hex]%Hdirs & Hdir & Hn & Hn' & ->).
      by exists base, dir, n.
    + intros Hok s (base & dir & n & Hbase & Hex & Hdir & Hn & Hn' & ->).
      assert (base ∈ dirs) as Hin by (by apply Hdirs).
      rewrite decide_False in Himages
        by (intros Hnil; rewrite Hnil in Hin; by apply elem_of_nil in Hin).
      destruct (proj2 (search_all_is_Some exts F dirs book_id)) as [l Hall].
      { intros d [Hd Hde]%Hdirs. by apply Hok. }
      rewrite Hall in Himages. simpl in Himages. injection Himages as <-.
      apply elem_of_sorted, (search_all_elem _ _ _ _ _ _ Hall).
      by exists base, dir, n.
    + intros Hno. case_decide; [simpl in *; by injection Himages as <-|].
      destruct (Pictures.search_all _ _ _ _ dirs _) as [l|] eqn:Hall; simpl in *;
        injection Himages as <-; [|done].
      destruct Hno. intros base Hbase Hex.
      apply (proj1 (search_all_is_Some exts F dirs book_id) ltac:(by eexists)).
      by apply Hdirs.
Qed.
End pictures.

Lemma find_book_images_memo_witness :
  let find :=
    Pictures.find_book_images_fast id (λ d n, d +:+ "/" +:+ n) "pics" "bundle/pics" in
  (∅ : gmap string (list string)) !! "7" = None ∧
  (find six_extensions pics_fs "7" ∅).1 = Some ["pics/7.png"; "pics/old/7-2.jpg"] ∧
  find six_extensions locked_fs "7" (find six_extensions pics_fs "7" ∅).2
  = (Some ["pics/7.png"; "pics/old/7-2.jpg"], (find six_extensions pics_fs "7" ∅).2) ∧
  Sorted str_le ["pics/7.png"; "pics/old/7-2.jpg"] ∧
  find (reverse six_extensions) pics_fs "7" ∅ = find six_extensions pics_fs "7" ∅ ∧
  ∀ s, Pictures.picture id (λ d n, d +:+ "/" +:+ n) "pics" "bundle/pics"
         six_extensions pics_fs "7" s →
       s ∈ ["pics/7.png"; "pics/old/7-2.jpg"].
Proof.
  simpl.
  assert ((Pictures.find_book_images_fast id (λ d n, d +:+ "/" +:+ n) "pics" "bundle/pics"
             six_extensions pics_fs "7" ∅).1
          = Some ["pics/7.png"; "pics/old/7-2.jpg"]) as Hrun.
  { vm_compute. reflexivity. }
  destruct (find_book_images_memo id (λ d n, d +:+ "/" +:+ n) "pics" "bundle/pics"
              six_extensions pics_fs locked_fs "7" ∅) as (Hmemo & _ & _ & Hfirst).
  destruct (Hfirst _ eq_refl Hrun) as (Hsorted & Horder & _ & Hall & _).
  split; [reflexivity|]. split; [exact Hrun|]. split; [exact (Hmemo _ Hrun)|].
  split; [exact Hsorted|].
  split; [apply Horder; apply Permutation_sym, reverse_Permutation|].
  apply Hall. intros base Hbase Hex. split.
  - intros n _. eexists. reflexivity.
  - apply elem_of_cons in Hbase as [->|Hbase].
    + exists ["pics/7.png"; "pics/old"]. split; [reflexivity|].
      intros subdir _. eexists. split; [reflexivity|].
      intros _ n _. eexists. reflexivity.
    + apply list_elem_of_singleton in Hbase as ->. vm_compute in Hex. discriminate Hex.
Defined.

(** ** The cache of the table model *)

(** X18. The cache of [DataFrameModel.data] never changes an answer.  In a
    model whose cached values are those computed from its frame, [data]
    returns what it returns with an empty cache, and leaves such a model;
    a new model and a model after [set_dataframe] are such models. *)
Theorem data_cache_is_transparent (len : string → nat) (m : TableModel.t)
    (idx : TableModel.index) (rl : TableModel.role) (df : list drow) :
  TableModel.coherent len (TableModel.__init__ df) ∧
  TableModel.coherent len (TableModel.set_dataframe df m) ∧
  (TableModel.coherent len m →
   (TableModel.data len idx rl m).1
   = (TableModel.data len idx rl (TableModel.Model (TableModel._df m) ∅)).1 ∧
   TableModel._df (TableModel.data len idx rl m).2 = TableModel._df m ∧
   TableModel.coherent len (TableModel.data len idx rl m).2).
Proof.
  split_and!.
  - intros r c rl' v. simpl. by rewrite lookup_empty.
  - intros r c rl' v. simpl. by rewrite lookup_empty.
  - intros Hm. destruct idx as [valid r c]. unfold TableModel.data. simpl.
    destruct valid; simpl; [|done].
    destruct (decide (c = 0%nat)) as [->|Hc]; [done|].
    rewrite lookup_empty.
    destruct c as [|c]; [done|]. simpl. rewrite Nat.sub_0_r.
    destruct (TableModel._data_cache m !! (r, c, rl)) as [v|] eqn:Hcache.
    + simpl. split_and!; [|done|done].
      specialize (Hm r c rl v Hcache). unfold TableModel.data in Hm. simpl in Hm.
      rewrite lookup_empty in Hm. rewrite Nat.sub_0_r in Hm. by rewrite Hm.
    + destruct (TableModel._df m !! r) as [x|] eqn:Hrow; [|done].
      case_decide as Hcol; [|done].
      set (result := match rl with
                     | TableModel.DisplayRole | TableModel.EditRole => _
                     | TableModel.TextAlignmentRole => _
                     | TableModel.ToolTipRole => _
                     | TableModel.OtherRole => _
                     end).
      destruct result as [v|] eqn:Hres; simpl; [|done].
      split_and!; [done|done|].
      intros r' c' rl' v'. simpl.
      destruct (decide ((r', c', rl') = (r, c, rl))) as [[= -> -> ->]|Hne].
      * rewrite lookup_insert_eq. intros [= <-]. unfold TableModel.data. simpl.
        rewrite lookup_empty, Nat.sub_0_r, Hrow. rewrite decide_True by done.
        fold result. by rewrite Hres.
      * rewrite lookup_insert_ne by done. apply Hm.
Qed.

Lemma data_cache_is_transparent_witness :
  let m := (TableModel.data String.length (TableModel.Index true 0 2)
              TableModel.DisplayRole (TableModel.__init__ rows_two)).2 in
  TableModel.coherent String.length m ∧
  (TableModel.data String.length (TableModel.Index true 0 2) TableModel.DisplayRole m).1
  = Some (TableModel.VStr "Engine Manual").
Proof.
  simpl.
  destruct (data_cache_is_transparent String.length (TableModel.__init__ rows_two)
              (TableModel.Index true 0 2) TableModel.DisplayRole rows_two)
    as (H0 & _ & H).
  destruct (H H0) as (_ & _ & H3). split; [exact H3|]. by vm_compute.
Defined.
